(** * forklift.core: incremental, hash-based synchronisation of a crate

    A shallow embedding of [src/forklift/core.py].  The geoprocessing
    back end ([arcpy]) is modelled as an explicit store passed through
    every operation; Python exceptions are modelled by an outcome type and
    [try]/[except]/[finally] by combinators over it. *)

From Stdlib Require Import ZArith String Ascii List Bool Lia.
From stdpp Require Import base option list gmap strings sorting pretty.

Local Open Scope string_scope.
Local Open Scope Z_scope.
Local Open Scope list_scope.

(** ** Python values, [str], [repr] and tuple rendering *)

(** The values a cursor row holds: [None], an integer or a text.  A
    geometry is read through its well-known text, so a shape column holds
    a text or [None]. *)
Inductive value :=
  | VNone
  | VInt (z : Z)
  | VStr (s : string).

Global Instance value_eq_dec : EqDecision value.
Proof. solve_decision. Defined.

(** [str(v)] *)
Definition py_str (v : value) : string :=
  match v with
  | VNone => "None"
  | VInt z => pretty z
  | VStr s => s
  end.

(** [repr(v)]: texts come back from the store as unicode objects (escape
    sequences are not modelled). *)
Definition py_repr (v : value) : string :=
  match v with
  | VStr s => "u'" +:+ s +:+ "'"
  | _ => py_str v
  end.

(** [str(t)] for a tuple [t]. *)
Definition tuple_str (t : list value) : string :=
  match t with
  | [] => "()"
  | [v] => "(" +:+ py_repr v +:+ ",)"
  | _ => "(" +:+ String.concat ", " (map py_repr t) +:+ ")"
  end.

(** A cursor row is a tuple.  [row[-k]] and [row[:-k]] for [k >= 1]; the
    rows of a cursor have the length of its field list, which is at least
    [k] wherever the program indexes, so the out-of-range default of
    [py_neg_index] is never observed. *)
Notation row := (list value).

Definition py_neg_index (r : row) (k : nat) : value :=
  default VNone (r !! (length r - k)%nat).

Definition py_neg_slice (r : row) (k : nat) : row :=
  take (length r - k)%nat r.

(** [fields[:-1]] on a list of field names. *)
Definition py_neg_slice_s (l : list string) : list string :=
  take (length l - 1)%nat l.

(** ** String helpers: [upper], [in], [startswith], [rstrip] *)

Definition upper_ascii (c : ascii) : ascii :=
  let n := nat_of_ascii c in
  if (97 <=? n)%nat && (n <=? 122)%nat then ascii_of_nat (n - 32) else c.

Fixpoint upper (s : string) : string :=
  match s with
  | EmptyString => EmptyString
  | String c r => String (upper_ascii c) (upper r)
  end.

(** [sub in s] *)
Fixpoint contains (sub s : string) : bool :=
  String.prefix sub s ||
  match s with
  | EmptyString => false
  | String _ r => contains sub r
  end.

Definition startswith (s pre : string) : bool := String.prefix pre s.

Fixpoint lstrip_chars (chars : list ascii) (s : list ascii) : list ascii :=
  match s with
  | [] => []
  | c :: r => if bool_decide (c ∈ chars) then lstrip_chars chars r else s
  end.

(** [s.rstrip(chars)] *)
Definition rstrip (s chars : string) : string :=
  string_of_list_ascii
    (rev (lstrip_chars (list_ascii_of_string chars)
                       (rev (list_ascii_of_string s)))).

Definition endswith (s suf : string) : bool :=
  String.prefix (String.rev suf) (String.rev s).

(** ** Module constants *)

Definition reproject_temp_suffix : string := "_fl".
Definition hash_att_field : string := "att_hash".
Definition hash_geom_field : string := "geom_hash".
Definition hash_id_field : string := "Id".
Definition shape_token : string := "SHAPE@WKT".
Definition src_id_field : string := "src_id" +:+ reproject_temp_suffix.

(** ** [_is_naughty_field] and [_filter_fields] *)

Definition _is_naughty_field (fld : string) : bool :=
  contains "SHAPE" (upper fld)
  || bool_decide (upper fld ∈ ["GLOBAL_ID"; "GLOBALID"])
  || startswith fld "OBJECTID_".

(** [list.remove(x)]: drops the first occurrence; [None] stands for the
    [ValueError] raised when there is none. *)
Fixpoint list_remove (x : string) (l : list string) : option (list string) :=
  match l with
  | [] => None
  | y :: r => if bool_decide (x = y) then Some r
              else cons y <$> list_remove x r
  end.

Definition _filter_fields (fields : gset string) (source_primary_key : string)
  : list string :=
  let new_fields :=
    merge_sort String.le
      (filter (λ f, _is_naughty_field f = false) (elements fields)) in
  let new_fields :=
    match list_remove source_primary_key new_fields with
    | Some l => l
    | None => new_fields (* ValueError: pass *)
    end in
  new_fields ++ [source_primary_key].

(** ** The store: datasets, the hash table, the log *)

(** A field as [arcpy.ListFields] reports it. *)
Record Field := mkField {
  fld_name : string;
  fld_type : string;
  fld_length : Z
}.

(** A stored record: the identifier the store assigned to it, its
    attribute columns and its geometry (as well-known text). *)
Record record := mkRecord {
  rec_oid : Z;
  rec_attrs : gmap string value;
  rec_shape : option string
}.

(** A table or feature class.  [ds_oid_field] names the column that holds
    the store-assigned identifier; [ds_next_oid] is the identifier the next
    inserted record receives. *)
Record dataset := mkDataset {
  ds_fields : list Field;
  ds_oid_field : string;
  ds_rows : list record;
  ds_next_oid : Z
}.

(** A row of the crate's table in [hashes.gdb]: [Id], [att_hash],
    [geom_hash]. *)
Record hash_row := mkHashRow {
  h_id : string;
  h_att : option string;
  h_geom : option string
}.

Inductive level := DEBUG | INFO | WARN | ERROR.

Record log_record := mkLog {
  log_level : level;
  log_format : string;
  log_args : list string
}.

(** The local variable [edit_session] of [update] together with the state
    of the edit session it refers to: unbound, open (with the destination
    as it was when editing started, which an abort restores), or stopped. *)
Inductive editor :=
  | Unbound
  | Editing (saved : option dataset)
  | Stopped.

(** Everything one call of [update] can observe or change. *)
Record world := mkWorld {
  w_source : dataset;
  w_destination : option dataset;
  w_hash_table : option (list hash_row);
  w_workspace : bool;               (* path.exists(crate.destination_workspace) *)
  w_temp : option (list row);       (* <name>_fl in scratch.gdb *)
  w_projected : option (list row);  (* <name>_fl_fl, the reprojected copy *)
  w_editor : editor;
  w_env : option string;            (* arcpy.env.geographicTransformations *)
  w_log : list log_record
}.

Definition set_destination (d : option dataset) (w : world) : world :=
  mkWorld (w_source w) d (w_hash_table w) (w_workspace w) (w_temp w)
          (w_projected w) (w_editor w) (w_env w) (w_log w).
Definition set_hash_table (h : option (list hash_row)) (w : world) : world :=
  mkWorld (w_source w) (w_destination w) h (w_workspace w) (w_temp w)
          (w_projected w) (w_editor w) (w_env w) (w_log w).
Definition set_workspace (b : bool) (w : world) : world :=
  mkWorld (w_source w) (w_destination w) (w_hash_table w) b (w_temp w)
          (w_projected w) (w_editor w) (w_env w) (w_log w).
Definition set_temp (t : option (list row)) (w : world) : world :=
  mkWorld (w_source w) (w_destination w) (w_hash_table w) (w_workspace w) t
          (w_projected w) (w_editor w) (w_env w) (w_log w).
Definition set_projected (t : option (list row)) (w : world) : world :=
  mkWorld (w_source w) (w_destination w) (w_hash_table w) (w_workspace w)
          (w_temp w) t (w_editor w) (w_env w) (w_log w).
Definition set_editor (e : editor) (w : world) : world :=
  mkWorld (w_source w) (w_destination w) (w_hash_table w) (w_workspace w)
          (w_temp w) (w_projected w) e (w_env w) (w_log w).
Definition set_env (e : option string) (w : world) : world :=
  mkWorld (w_source w) (w_destination w) (w_hash_table w) (w_workspace w)
          (w_temp w) (w_projected w) (w_editor w) e (w_log w).
Definition add_log (l : log_record) (w : world) : world :=
  mkWorld (w_source w) (w_destination w) (w_hash_table w) (w_workspace w)
          (w_temp w) (w_projected w) (w_editor w) (w_env w) (w_log w ++ [l]).

(** ** The crate ([models.Crate], of which only the attributes read by
    [core.py] are kept) *)

Inductive key_type := KeyInt | KeyStr.

Record Crate := mkCrate {
  name : string;
  source : string;
  destination : string;
  destination_workspace : string;
  destination_name : string;
  source_primary_key : string;
  source_primary_key_type : key_type;
  geographic_transformation : option string;
  source_dataType : string;         (* source_describe.dataType *)
  is_table : bool;
  needs_reproject : bool;
  (** [arcpy.Project_management] on one geometry, for this crate's
      destination coordinate system and transformation. *)
  project : string → string
}.

(** The result constants of [models.Crate]. *)
Inductive status :=
  | NO_CHANGES
  | CREATED
  | UPDATED
  | INVALID_DATA
  | UNHANDLED_EXCEPTION.

Global Instance status_eq_dec : EqDecision status.
Proof. solve_decision. Defined.

(** ** Exceptions and the state-and-exception monad *)

(** Every exception the program can see derives from [Exception];
    [ValidationException] is the one class it tells apart. *)
Inductive exn :=
  | ValidationException (msg : string)
  | PyException (msg : string).

(** [e.message] *)
Definition message (e : exn) : string :=
  match e with
  | ValidationException m => m
  | PyException m => m
  end.

Inductive outcome (A : Type) :=
  | Ret (a : A)
  | Raise (e : exn).
Arguments Ret {A} a.
Arguments Raise {A} e.

Definition M (A : Type) : Type := world → outcome A * world.

Definition ret {A} (a : A) : M A := λ w, (Ret a, w).
Definition raise {A} (e : exn) : M A := λ w, (Raise e, w).
Definition bind {A B} (m : M A) (k : A → M B) : M B :=
  λ w, match m w with
       | (Ret a, w') => k a w'
       | (Raise e, w') => (Raise e, w')
       end.
Definition get : M world := λ w, (Ret w, w).
Definition modify (f : world → world) : M unit := λ w, (Ret tt, f w).

Notation "x <~ m ;; k" := (bind m (λ x, k))
  (at level 100, m at next level, right associativity).
Notation "m ;;; k" := (bind m (λ _, k))
  (at level 100, right associativity).

(** [try: body except Exception as e: handler e] *)
Definition try_except {A} (body : M A) (handler : exn → M A) : M A :=
  λ w, match body w with
       | (Ret a, w') => (Ret a, w')
       | (Raise e, w') => handler e w'
       end.

(** [try: body finally: final] *)
Definition try_finally {A} (body : M A) (final : M unit) : M A :=
  λ w, match body w with
       | (r, w') =>
           match final w' with
           | (Ret _, w'') => (r, w'')
           | (Raise e, w'') => (Raise e, w'')
           end
       end.

Definition log (l : level) (fmt : string) (args : list string) : M unit :=
  modify (add_log (mkLog l fmt args)).

(** Faults of the back end.  The store itself is modelled as a total
    structure; a run is given a plan saying which of its calls into the
    store fail, and with what exception. *)
Record faults := mkFaults {
  f_create : option exn;       (* creating the destination *)
  f_schema : option exn;       (* listing fields in check_schema *)
  f_hash : option exn;         (* reading the source while hashing *)
  f_delete : option exn;       (* deleting destination rows *)
  f_hash_delete : option exn;  (* deleting hash rows *)
  f_add : option exn;          (* inserting rows *)
  f_abort : option exn         (* aborting the edit session *)
}.

Definition no_faults : faults :=
  mkFaults None None None None None None None.

Definition inject (f : option exn) : M unit :=
  match f with
  | Some e => raise e
  | None => ret tt
  end.

(** ** Cursors over the store *)

Definition is_shape_token (f : string) : bool :=
  bool_decide (f = "SHAPE@WKT") || bool_decide (f = "SHAPE@").

Definition shape_value (s : option string) : value :=
  match s with
  | Some wkt => VStr wkt
  | None => VNone
  end.

(** The value a cursor reads for column [f] of record [r]: the geometry for
    a shape token, the assigned identifier for the identifier column, the
    stored attribute otherwise (a missing one reads as NULL). *)
Definition read_field (ds : dataset) (r : record) (f : string) : value :=
  if is_shape_token f then shape_value (rec_shape r)
  else if bool_decide (f = ds_oid_field ds) then VInt (rec_oid r)
  else default VNone (rec_attrs r !! f).

Definition read_row (ds : dataset) (fields : list string) (r : record) : row :=
  map (read_field ds r) fields.

Definition field_names (ds : dataset) : list string :=
  map fld_name (ds_fields ds).

(** Opening a cursor fails when it names a column the dataset lacks. *)
Definition cursor_fields_ok (ds : dataset) (fields : list string) : bool :=
  forallb (λ f, is_shape_token f || bool_decide (f ∈ field_names ds)) fields.

Definition open_cursor (ds : dataset) (fields : list string) : M unit :=
  if cursor_fields_ok ds fields then ret tt
  else raise (PyException "Cannot find field").

(** The order of [ORDER BY] on one column: NULL first, then numbers, then
    texts. *)
Definition value_leb (a b : value) : bool :=
  match a, b with
  | VNone, _ => true
  | VInt _, VNone => false
  | VInt x, VInt y => (x <=? y)%Z
  | VInt _, VStr _ => true
  | VStr x, VStr y => String.leb x y
  | VStr _, _ => false
  end.

Definition order_by (ds : dataset) (key : string) (r1 r2 : record) : Prop :=
  value_leb (read_field ds r1 key) (read_field ds r2 key) = true.

Global Instance order_by_dec ds key : RelDecision (order_by ds key).
Proof. intros r1 r2. unfold order_by. apply _. Defined.

(** A where clause, as the store evaluates it: [key IN (keys)]. *)
Record where_clause := WhereIn {
  wh_key : string;
  wh_type : key_type;
  wh_keys : gset string
}.

Definition eval_where (ds : dataset) (c : where_clause) (r : record) : bool :=
  bool_decide (py_str (read_field ds r (wh_key c)) ∈ wh_keys c).

(** The same clause on a row of a scratch table whose columns are
    [fields]. *)
Definition eval_where_row (fields : list string) (c : where_clause) (r : row)
  : bool :=
  match list_find (λ f, f = wh_key c) fields with
  | Some (i, _) => bool_decide (py_str (default VNone (r !! i)) ∈ wh_keys c)
  | None => false
  end.

(** [InsertCursor(ds, fields).insertRow(t)]: the store assigns the next
    identifier, ignores a value given for the identifier column, and
    returns the identifier. *)
Definition insert_attrs (ds : dataset) (fields : list string) (t : row)
  : gmap string value :=
  list_to_map
    (filter (λ kv, is_shape_token kv.1 = false ∧ kv.1 ≠ ds_oid_field ds)
            (zip fields t)).

Definition insert_shape (fields : list string) (t : row) : option string :=
  match list_find (λ kv, is_shape_token kv.1 = true) (zip fields t) with
  | Some (_, (_, VStr wkt)) => Some wkt
  | _ => None
  end.

Definition insert_row (ds : dataset) (fields : list string) (t : row)
  : dataset * Z :=
  let oid := ds_next_oid ds in
  (mkDataset (ds_fields ds) (ds_oid_field ds)
     (ds_rows ds ++ [mkRecord oid (insert_attrs ds fields t)
                              (insert_shape fields t)])
     (oid + 1),
   oid).

Definition delete_where (ds : dataset) (c : where_clause) : dataset :=
  mkDataset (ds_fields ds) (ds_oid_field ds)
    (filter (λ r, eval_where ds c r = false) (ds_rows ds))
    (ds_next_oid ds).

(** [arcpy.TruncateTable_management] *)
Definition truncate (ds : dataset) : dataset :=
  mkDataset (ds_fields ds) (ds_oid_field ds) [] (ds_next_oid ds).

(** [arcpy.AddField_management] *)
Definition add_field (f : Field) (ds : dataset) : dataset :=
  mkDataset (ds_fields ds ++ [f]) (ds_oid_field ds) (ds_rows ds)
            (ds_next_oid ds).

(** [CreateTable_management] / [CreateFeatureclass_management] with a
    template: an empty dataset with its own identifier column, a geometry
    column for a feature class, and the template's other columns. *)
Definition is_user_field (f : Field) : bool :=
  negb (bool_decide (fld_type f ∈ ["OID"; "Geometry"])).

Definition create_from_template (feature : bool) (template : dataset)
  : dataset :=
  mkDataset
    (mkField "OBJECTID" "OID" 4
     :: (if feature then [mkField "Shape" "Geometry" 0] else [])
     ++ filter (λ f, is_user_field f = true) (ds_fields template))
    "OBJECTID" [] 1.

Definition the_destination : M dataset :=
  w <~ get ;;
  match w_destination w with
  | Some d => ret d
  | None => raise (PyException "destination does not exist")
  end.

Definition the_hash_table : M (list hash_row) :=
  w <~ get ;;
  match w_hash_table w with
  | Some h => ret h
  | None => raise (PyException "hash table does not exist")
  end.

(** ** [check_schema] *)

(** [get_fields(dataset)]: the body of its loop, and the loop. *)
Definition get_fields_step (field_dict : gmap string Field) (field : Field)
  : gmap string Field :=
  (* don't worry about comparing managed fields *)
  if negb (_is_naughty_field (fld_name field))
     && negb (bool_decide (fld_name field ∈ ["OBJECTID"; "FID"]))
  then <[upper (fld_name field) := field]> field_dict
  else field_dict.

Definition get_fields (fs : list Field) : gmap string Field :=
  foldl get_fields_step ∅ fs.

Definition abstract_type (type : string) : string :=
  if bool_decide (type ∈ ["Double"; "Integer"; "Single"; "SmallInteger"])
  then "Numeric" else type.

Definition truncate_field_length (field : Field) : Z * list log_record :=
  if (4000 <? fld_length field)%Z
  then (4000, [mkLog WARN
                 "%s is longer than 4000 characters. Truncation may occur."
                 [fld_name field]])
  else (fld_length field, []).

Record schema_acc := mkAcc {
  missing_fields : list string;
  mismatching_fields : list string;
  schema_log : list log_record
}.

Definition type_mismatch_msg (s d : Field) : string :=
  fld_name s +:+ ": source type of " +:+ fld_type s
  +:+ " does not match destination type of " +:+ fld_type d.

Definition length_mismatch_msg (s : Field) (sl dl : Z) : string :=
  fld_name s +:+ ": source length of " +:+ pretty sl
  +:+ " does not match destination length of " +:+ pretty dl.

(** The body of the loop over [destination_fields.keys()]. *)
Definition check_field (source_fields : gmap string Field) (acc : schema_acc)
    (kv : string * Field) : schema_acc :=
  let '(field_key, destination_fld) := kv in
  match source_fields !! field_key with
  | None =>
      mkAcc (missing_fields acc ++ [fld_name destination_fld])
            (mismatching_fields acc) (schema_log acc)
  | Some source_fld =>
      if bool_decide (abstract_type (fld_type source_fld)
                      ≠ abstract_type (fld_type destination_fld))
      then mkAcc (missing_fields acc)
             (mismatching_fields acc
                ++ [type_mismatch_msg source_fld destination_fld])
             (schema_log acc)
      else if bool_decide (fld_type source_fld = "String")
      then
        let '(sl, l1) := truncate_field_length source_fld in
        let '(dl, l2) := truncate_field_length destination_fld in
        if bool_decide (sl ≠ dl)
        then mkAcc (missing_fields acc)
               (mismatching_fields acc ++ [length_mismatch_msg source_fld sl dl])
               (schema_log acc ++ l1 ++ l2)
        else mkAcc (missing_fields acc) (mismatching_fields acc)
               (schema_log acc ++ l1 ++ l2)
      else acc
  end.

(** The two lists as they stand when the loop ends.  A Python 2 dict is
    walked in no particular order; [map_to_list] stands for it. *)
Definition collect_fields (src dst : list Field) : schema_acc :=
  foldl (check_field (get_fields src)) (mkAcc [] [] [])
        (map_to_list (get_fields dst)).

Definition missing_msg (crate : Crate) (missing : list string) : string :=
  "Missing fields in " +:+ source crate +:+ ": " +:+ String.concat ", " missing.

Definition mismatching_msg (crate : Crate) (mismatching : list string)
  : string :=
  "Mismatching fields in " +:+ source crate +:+ ": "
  +:+ String.concat ", " mismatching.

Definition check_schema (fp : faults) (crate : Crate) : M bool :=
  log INFO "checking schema..." [] ;;;
  inject (f_schema fp) ;;;
  w <~ get ;;
  destination <~ the_destination ;;
  let acc := collect_fields (ds_fields (w_source w)) (ds_fields destination) in
  modify (λ w, foldl (λ w l, add_log l w) w (schema_log acc)) ;;;
  if bool_decide (0 < length (missing_fields acc))%nat then
    let msg := missing_msg crate (missing_fields acc) in
    log WARN msg [] ;;;
    raise (ValidationException msg)
  else if bool_decide (0 < length (mismatching_fields acc))%nat then
    let msg := mismatching_msg crate (mismatching_fields acc) in
    log WARN msg [] ;;;
    raise (ValidationException msg)
  else ret true.

(** ** The change set ([models.Changes]) *)

(** Which table the add phase reads: the crate's source, the scratch copy
    written while hashing, or its reprojection.  ([changes.table] is a path;
    the source path is taken not to end in [reproject_temp_suffix].) *)
Inductive table_ref := TSource | TTemp | TProjected.

Notation digests := (string * option string)%type.

Record Changes := mkChanges {
  adds : gmap string digests;
  unchanged : gmap string digests;
  _deletes : gset string;
  fields : list string;
  table : table_ref;
  total_rows : Z
}.

(** Modelled from the spec: [Changes.__init__] of models.py, which is not
    among the sources: empty mappings, no deletes, the given field list. *)
Definition new_changes (fields : list string) : Changes :=
  mkChanges ∅ ∅ ∅ fields TSource 0.

(** Modelled from the spec: [Changes.has_adds], [Changes.has_deletes] and
    [Changes.has_changes] of models.py: whether the adds, the deletes, or
    either of them, are not empty. *)
Definition has_adds (c : Changes) : bool := negb (bool_decide (adds c = ∅)).
Definition has_deletes (c : Changes) : bool :=
  negb (bool_decide (_deletes c = ∅)).
Definition has_changes (c : Changes) : bool := has_adds c || has_deletes c.

(** Modelled from the spec: [Changes.determine_deletes] of models.py:
    whatever identifiers remain in either reverse lookup are the deletes. *)
Definition determine_deletes (attribute_hashes geometry_hashes
                                : gmap string string) : gset string :=
  map_img attribute_hashes ∪ map_img geometry_hashes.

(** Modelled from the spec: [Changes.get_deletes_where_clause] of models.py:
    the clause selecting the records whose [key] is one of the deletes. *)
Definition get_deletes_where_clause (c : Changes) (key : string)
    (ty : key_type) : where_clause :=
  WhereIn key ty (_deletes c).

(** Modelled from the spec: [Changes.get_adds_where_clause] of models.py:
    the clause selecting the records whose primary key is one of the add
    keys. *)
Definition get_adds_where_clause (c : Changes) (key : string) (ty : key_type)
    (suffix : string) : where_clause :=
  WhereIn key ty (dom (adds c)).

Section Core.

(** [hashlib.md5(s).hexdigest()], left abstract. *)
Variable md5 : string → string.

(** ** [_create_hash] *)
Definition _create_hash (text : string) (salt : Z) : string :=
  md5 (text +:+ py_str (VInt salt)).

(** ** [_get_hash_lookups] *)
Definition hash_lookups (rows : list hash_row)
  : gmap string string * gmap string string :=
  foldl (λ '(hash_lookup, geo_hash_lookup) r,
           (match h_att r with
            | Some att_hash => <[att_hash := h_id r]> hash_lookup
            | None => hash_lookup
            end,
            match h_geom r with
            | Some geo_hash => <[geo_hash := h_id r]> geo_hash_lookup
            | None => geo_hash_lookup
            end))
        (∅, ∅) rows.


Definition _get_hash_lookups : M (gmap string string * gmap string string) :=
  rows <~ the_hash_table ;;
  ret (hash_lookups rows).

(** ** [_hash] *)

(** The variables the loop of [_hash] updates. *)
Record hstate := mkH {
  attribute_hashes : gmap string string;
  geometry_hashes : gmap string string;
  hs_adds : gmap string digests;
  hs_unchanged : gmap string digests;
  hs_total_rows : Z;
  unique_salty_id : Z;
  hs_temp : list row;            (* rows given to insert_cursor *)
  hs_log : list log_record
}.

(** The two digests of a row under salt [salt]; no geometry digest for a
    table. *)
Definition geom_digest (crate : Crate) (r : row) (salt : Z) : option string :=
  if is_table crate then None
  else Some (_create_hash (py_str (py_neg_index r 1)) salt).

Definition attribute_digest (primary_key_index : nat) (r : row) (salt : Z)
  : string :=
  _create_hash (tuple_str (py_neg_slice r primary_key_index)) salt.

(** The test [is this a new feature] of the loop. *)
Definition is_new (st : hstate) (att : string) (geom : option string) : bool :=
  bool_decide (attribute_hashes st !! att = None)
  || match geom with
     | Some g => bool_decide (geometry_hashes st !! g = None)
     | None => false
     end.

(** Empty geometry: the row is skipped. *)
Definition skipped (crate : Crate) (r : row) : bool :=
  negb (is_table crate) && bool_decide (py_neg_index r 1 = VNone).

(** One iteration of [for row in cursor]. *)
Definition hash_step (crate : Crate) (reproject : bool)
    (primary_key_index : nat) (st : hstate) (r : row) : hstate :=
  let total_rows := hs_total_rows st + 1 in
  let salt := unique_salty_id st + 1 in
  if skipped crate r then
    mkH (attribute_hashes st) (geometry_hashes st) (hs_adds st)
        (hs_unchanged st) (total_rows - 1) salt (hs_temp st)
        (hs_log st ++ [mkLog WARN "Empty geometry found in %s: %s"
                         [source_primary_key crate;
                          py_str (py_neg_index r primary_key_index)]])
  else
    let geom_hash_digest := geom_digest crate r salt in
    let attribute_hash_digest := attribute_digest primary_key_index r salt in
    let src_id := py_neg_index r primary_key_index in
    if is_new st attribute_hash_digest geom_hash_digest then
      mkH (attribute_hashes st) (geometry_hashes st)
          (<[py_str src_id := (attribute_hash_digest, geom_hash_digest)]>
             (hs_adds st))
          (hs_unchanged st) total_rows salt
          (if reproject then (hs_temp st ++ [(r ++ [src_id])%list])%list
           else hs_temp st)
          (hs_log st)
    else
      mkH (delete attribute_hash_digest (attribute_hashes st))
          (match geom_hash_digest with
           | Some g => delete g (geometry_hashes st)
           | None => geometry_hashes st
           end)
          (hs_adds st)
          (<[py_str src_id := (attribute_hash_digest, geom_hash_digest)]>
             (hs_unchanged st))
          total_rows salt (hs_temp st) (hs_log st).

Definition hash_loop (crate : Crate) (reproject : bool)
    (primary_key_index : nat) (st : hstate) (rows : list row) : hstate :=
  foldl (hash_step crate reproject primary_key_index) st rows.

(** The state the loop starts from. *)
Definition hash_init (lookups : gmap string string * gmap string string)
  : hstate :=
  mkH lookups.1 lookups.2 ∅ ∅ 0 0 [] [].

(** The field list of the source cursor and the index of the primary key
    in its rows, counted from the end. *)
Definition common_fields (src dst : dataset) : gset string :=
  list_to_set (field_names dst) ∩ list_to_set (field_names src).

Definition hash_fields (crate : Crate) (src dst : dataset)
  : list string * nat :=
  let fields := _filter_fields (common_fields src dst)
                               (source_primary_key crate) in
  if negb (is_table crate) then (fields ++ [shape_token], 2%nat)
  else (fields, 1%nat).

(** [SearchCursor(crate.source, fields, sql_clause=(None, ORDER BY key))] *)
Definition source_stream (crate : Crate) (src : dataset)
    (fields : list string) : list row :=
  map (read_row src fields)
      (merge_sort (order_by src (source_primary_key crate)) (ds_rows src)).

(** [changes.fields[-1] = x] *)
Definition set_last (l : list string) (x : string) : list string :=
  <[(length l - 1)%nat := x]> l.

(** The first lines of [_hash]: create the hash lookup table when the
    crate has none, and then truncate the destination. *)
Definition ensure_hash_table (crate : Crate) : M unit :=
  w <~ get ;;
  match w_hash_table w with
  | None =>
      log DEBUG "%s does not exist. creating" [name crate] ;;;
      modify (set_hash_table (Some [])) ;;;
      (* truncate destination table since we are hashing for the first time *)
      d <~ the_destination ;;
      modify (set_destination (Some (truncate d)))
  | Some _ => ret tt
  end.

(** The loop of [_hash] as it runs on source [src], destination [d] and
    the reverse lookups [lookups]. *)
Definition hash_run (crate : Crate) (reproject : bool) (src d : dataset)
    (lookups : gmap string string * gmap string string) : hstate :=
  hash_loop crate reproject (hash_fields crate src d).2
    (hash_init lookups)
    (source_stream crate src (hash_fields crate src d).1).

Definition _hash (fp : faults) (crate : Crate) (reproject : bool)
  : M Changes :=
  ensure_hash_table crate ;;;
  log INFO "checking for changes..." [] ;;;
  w <~ get ;;
  d <~ the_destination ;;
  let fields := (hash_fields crate (w_source w) d).1 in
  let changes_fields := fields ++ [source_primary_key crate] in
  lookups <~ _get_hash_lookups ;;
  changes_fields <~
    (if reproject then
       modify (set_temp (Some [])) ;;;
       ret (set_last changes_fields src_id_field)
     else ret changes_fields) ;;
  inject (f_hash fp) ;;;
  open_cursor (w_source w) fields ;;;
  let st := hash_run crate reproject (w_source w) d lookups in
  modify (λ w, foldl (λ w l, add_log l w) w (hs_log st)) ;;;
  (if reproject then modify (set_temp (Some (hs_temp st))) else ret tt) ;;;
  ret (mkChanges (hs_adds st) (hs_unchanged st)
         (determine_deletes (attribute_hashes st) (geometry_hashes st))
         changes_fields (if reproject then TTemp else TSource)
         (hs_total_rows st)).

(** ** [_create_destination_data] *)
Definition _create_destination_data (fp : faults) (crate : Crate) : M unit :=
  w <~ get ;;
  (if negb (w_workspace w) then
     if endswith (destination_workspace crate) ".gdb" then
       log WARN "destination not found; creating %s"
           [destination_workspace crate] ;;;
       inject (f_create fp) ;;;
       modify (set_workspace true)
     else
       raise (PyException ("destination_workspace does not exist! "
                           +:+ destination_workspace crate))
   else ret tt) ;;;
  if is_table crate then
    log WARN "creating new table: %s" [destination crate] ;;;
    inject (f_create fp) ;;;
    modify (set_destination
              (Some (create_from_template false (w_source w))))
  else
    log WARN "creating new feature class: %s" [destination crate] ;;;
    inject (f_create fp) ;;;
    modify (set_destination
              (Some (create_from_template true (w_source w)))) ;;;
    if bool_decide (source_dataType crate = "ShapeFile") then
      log INFO "adding FID field for shapefile comparison" [] ;;;
      d <~ the_destination ;;
      modify (set_destination (Some (add_field (mkField "FID" "Integer" 4) d)))
    else ret tt.

(** ** [update] *)

(** What the pallet's [validate_crate] hands back: the sentinel
    [NotImplemented] asks for the default schema check.  The hook inspects
    the store but does not change it. *)
Inductive custom := NotImplemented | Validated.

Definition validator : Type := Crate → world → outcome custom.

Definition validate (fp : faults) (crate : Crate) (validate_crate : validator)
  : M unit :=
  has_custom <~ (λ w, (validate_crate crate w, w)) ;;
  match has_custom with
  | NotImplemented => _ <~ check_schema fp crate ;; ret tt
  | Validated => ret tt
  end.

(** [arcpy.da.Editor(...)], [startEditing], [startOperation] *)
Definition start_editing : M unit :=
  w <~ get ;;
  modify (set_editor (Editing (w_destination w))).

(** [stopOperation], [stopEditing(True)] *)
Definition stop_editing : M unit := modify (set_editor Stopped).

(** [abortOperation], [stopEditing(False)]: fails when [edit_session] was
    never bound or its session is no longer open. *)
Definition abort_session (fp : faults) : M unit :=
  w <~ get ;;
  match w_editor w with
  | Unbound =>
      raise (PyException
               "local variable 'edit_session' referenced before assignment")
  | Editing saved =>
      inject (f_abort fp) ;;;
      modify (set_destination saved) ;;;
      modify (set_editor Stopped)
  | Stopped => raise (PyException "abortOperation: no edit operation")
  end.

(** The delete phase: destination rows, then hash rows. *)
Definition delete_phase (fp : faults) (crate : Crate) (changes : Changes)
  : M unit :=
  log DEBUG "Number of rows to be deleted: %d"
      [pretty (size (_deletes changes))] ;;;
  start_editing ;;;
  d <~ the_destination ;;
  open_cursor d [source_primary_key crate] ;;;
  modify (set_destination
            (Some (delete_where d
                     (get_deletes_where_clause changes
                        (source_primary_key crate)
                        (source_primary_key_type crate))))) ;;;
  inject (f_delete fp) ;;;
  stop_editing ;;;
  h <~ the_hash_table ;;
  inject (f_hash_delete fp) ;;;
  let clause := get_deletes_where_clause changes hash_id_field KeyStr in
  modify (set_hash_table
            (Some (filter (λ r, h_id r ∉ wh_keys clause) h))).

(** [arcpy.Project_management] on the scratch copy: the geometry column is
    the last but one. *)
Definition project_row (crate : Crate) (r : row) : row :=
  alter (λ v, match v with
              | VStr wkt => VStr (project crate wkt)
              | _ => v
              end)
        (length r - 2)%nat r.

(** [for row in add_cursor] *)
Fixpoint add_loop (crate : Crate) (changes : Changes)
    (fields : list string) (rows : list row) : M unit :=
  match rows with
  | [] => ret tt
  | r :: rest =>
      let primary_key := py_neg_index r 1 in
      (* skip null geometries *)
      if negb (is_table crate) && bool_decide (py_neg_index r 2 = VNone)
      then add_loop crate changes fields rest
      else
        d <~ the_destination ;;
        let '(d', dest_id) := insert_row d fields (py_neg_slice r 1) in
        modify (set_destination (Some d')) ;;;
        digs <~
          match adds changes !! py_str primary_key with
          | Some x => ret x
          | None =>
              match unchanged changes !! py_str primary_key with
              | Some x => ret x
              | None => raise (PyException (py_str primary_key)) (* KeyError *)
              end
          end ;;
        h <~ the_hash_table ;;
        modify (set_hash_table
                  (Some (h ++ [mkHashRow (pretty dest_id)
                                         (Some digs.1) digs.2]))) ;;;
        add_loop crate changes fields rest
  end.

(** [changes.fields] as the add phase rewrites it: for a feature class the
    shape token loses its [WKT] suffix. *)
Definition add_fields (crate : Crate) (changes : Changes) : list string :=
  if negb (is_table crate) then
    let i := (length (fields changes) - 2)%nat in
    <[i := rstrip (default "" (fields changes !! i)) "WKT"]> (fields changes)
  else fields changes.

(** The rows the add cursor yields. *)
Definition add_rows (w : world) (t : table_ref) (fields : list string)
    (clause : where_clause) : M (list row) :=
  match t with
  | TSource =>
      open_cursor (w_source w) fields ;;;
      ret (map (read_row (w_source w) fields)
               (filter (λ r, eval_where (w_source w) clause r = true)
                       (ds_rows (w_source w))))
  | TTemp =>
      match w_temp w with
      | Some rows =>
          ret (filter (λ r, eval_where_row fields clause r = true) rows)
      | None => raise (PyException "table does not exist")
      end
  | TProjected =>
      match w_projected w with
      | Some rows =>
          ret (filter (λ r, eval_where_row fields clause r = true) rows)
      | None => raise (PyException "table does not exist")
      end
  end.

(** The add phase. *)
Definition add_phase (fp : faults) (crate : Crate) (changes : Changes)
  : M unit :=
  log DEBUG "Number of rows to be added: %d" [pretty (size (adds changes))] ;;;
  (* reproject data if source is different than destination *)
  t <~ (if needs_reproject crate then
          w <~ get ;;
          match w_temp w with
          | Some rows =>
              modify (set_projected (Some (map (project_row crate) rows))) ;;;
              ret TProjected
          | None => raise (PyException "table does not exist")
          end
        else ret (table changes)) ;;
  log DEBUG "starting edit session..." [] ;;;
  start_editing ;;;
  log DEBUG "edit session and operation started" [] ;;;
  let clause := get_adds_where_clause changes (source_primary_key crate)
                  (source_primary_key_type crate) reproject_temp_suffix in
  let changes_fields := add_fields crate changes in
  let fields := py_neg_slice_s changes_fields in
  w <~ get ;;
  rows <~ add_rows w t changes_fields clause ;;
  d <~ the_destination ;;
  open_cursor d fields ;;;
  _ <~ the_hash_table ;;
  add_loop crate changes fields rows ;;;
  inject (f_add fp) ;;;
  log DEBUG "stopping edit session (saving edits)" [] ;;;
  stop_editing ;;;
  (* remove temporarily projected table *)
  match t with
  | TProjected =>
      log DEBUG "deleting %s" [name crate +:+ "_fl_fl"] ;;;
      modify (set_projected None)
  | _ => ret tt
  end.

Definition bump (st : status) : status :=
  if bool_decide (st ≠ CREATED) then UPDATED else st.

(** The stages of the body of the outer [try]: the destination is created
    when it does not exist ... *)
Definition ensure_destination (fp : faults) (crate : Crate) : M status :=
  w <~ get ;;
  match w_destination w with
  | None =>
      log DEBUG "%s does not exist. creating" [destination crate] ;;;
      _create_destination_data fp crate ;;;
      (* remove hash table entry for destination that does not exist *)
      w <~ get ;;
      (match w_hash_table w with
       | Some _ => modify (set_hash_table None)
       | None => ret tt
       end) ;;;
      ret CREATED
  | Some _ => ret NO_CHANGES
  end.

(** ... the crate is validated, a [ValidationException] being caught here
    (the result is its message) ... *)
Definition validation (fp : faults) (crate : Crate)
    (validate_crate : validator) : M (option string) :=
  try_except (validate fp crate validate_crate ;;; ret None)
    (λ e, match e with
          | ValidationException m =>
              log WARN "validation error: %s for crate %r" [m; name crate] ;;;
              ret (Some m)
          | _ => raise e
          end).

(** ... and the changes are computed and applied. *)
Definition synchronise (fp : faults) (crate : Crate) (change_status : status)
  : M (status * option string) :=
  (* create source hash and store *)
  changes <~ _hash fp crate (needs_reproject crate) ;;
  (if negb (has_changes changes) then log DEBUG "No changes found." []
   else ret tt) ;;;
  (* delete unaccessed hashes *)
  change_status <~
    (if has_deletes changes then
       delete_phase fp crate changes ;;; ret (bump change_status)
     else ret change_status) ;;
  (* add new/updated rows *)
  change_status <~
    (if has_adds changes then
       add_phase fp crate changes ;;; ret (bump change_status)
     else ret change_status) ;;
  ret (change_status, None).

(** The body of the outer [try]. *)
Definition update_body (fp : faults) (crate : Crate)
    (validate_crate : validator) : M (status * option string) :=
  change_status <~ ensure_destination fp crate ;;
  (* check for custom validation logic, otherwise do a default schema check *)
  invalid <~ validation fp crate validate_crate ;;
  match invalid with
  | Some m => ret (INVALID_DATA, Some m)
  | None => synchronise fp crate change_status
  end.

(** The first statement of [update]; a call starts with [edit_session]
    unbound. *)
Definition enter (crate : Crate) (w : world) : world :=
  set_env (geographic_transformation crate) (set_editor Unbound w).

(** The handler of the outer [try]: the abort of the edit session is
    attempted once and its own failure discarded. *)
Definition on_exception (fp : faults) (crate : Crate) (e : exn)
  : M (status * option string) :=
  log ERROR "unhandled exception: %s for crate %r" [message e; name crate] ;;;
  try_except
    (log WARN "stopping edit session (not saving edits)" [] ;;;
     abort_session fp)
    (λ _, ret tt) ;;;
  ret (UNHANDLED_EXCEPTION, Some (message e)).

(** [update(crate, validate_crate)] *)
Definition update (fp : faults) (crate : Crate) (validate_crate : validator)
  : M (status * option string) :=
  λ w,
    try_finally
      (try_except (update_body fp crate validate_crate)
                  (on_exception fp crate))
      (* arcpy.ResetEnvironments() *)
      (modify (set_env None))
      (enter crate w).

(** The key and the two digests the loop computes for each record of a
    stream that it does not skip, the salt being [salt] when it starts. *)
Fixpoint stream_entries (crate : Crate) (primary_key_index : nat) (salt : Z)
    (rows : list row) : list (string * digests) :=
  match rows with
  | [] => []
  | r :: rest =>
      (if skipped crate r then []
       else [(py_str (py_neg_index r primary_key_index),
              (attribute_digest primary_key_index r (salt + 1),
               geom_digest crate r (salt + 1)))])
      ++ stream_entries crate primary_key_index (salt + 1) rest
  end.

(** The same for the stream [_hash] reads from source [src] when the
    destination is [d]. *)
Definition source_entries (crate : Crate) (src d : dataset)
  : list (string * digests) :=
  stream_entries crate (hash_fields crate src d).2 0
    (source_stream crate src (hash_fields crate src d).1).

(** The change set [_hash] returns on source [src], destination [d] and
    hash rows [h]. *)
Definition changes_of (crate : Crate) (src d : dataset) (h : list hash_row)
  : Changes :=
  let reproject := needs_reproject crate in
  let fields := (hash_fields crate src d).1 in
  let st := hash_run crate reproject src d (hash_lookups h) in
  mkChanges (hs_adds st) (hs_unchanged st)
    (determine_deletes (attribute_hashes st) (geometry_hashes st))
    (if reproject
     then set_last (fields ++ [source_primary_key crate]) src_id_field
     else fields ++ [source_primary_key crate])
    (if reproject then TTemp else TSource)
    (hs_total_rows st).

End Core.

(** ** Definitions used to state the properties *)

(** What one destination field contributes to [mismatching_fields]. *)
Definition mismatch_of (source_fields : gmap string Field)
    (kv : string * Field) : option string :=
  match source_fields !! kv.1 with
  | None => None
  | Some s =>
      if bool_decide (abstract_type (fld_type s)
                      ≠ abstract_type (fld_type kv.2))
      then Some (type_mismatch_msg s kv.2)
      else if bool_decide (fld_type s = "String")
      then if bool_decide ((truncate_field_length s).1
                           ≠ (truncate_field_length kv.2).1)
           then Some (length_mismatch_msg s (truncate_field_length s).1
                        (truncate_field_length kv.2).1)
           else None
      else None
  end.

(** The fields [check_schema] leaves out of the comparison. *)
Definition managed_field (n : string) : bool :=
  _is_naughty_field n || bool_decide (n ∈ ["OBJECTID"; "FID"]).

(** A text without a closing parenthesis (as the decimal rendering of a
    salt is). *)
Fixpoint no_paren (s : string) : Prop :=
  match s with
  | EmptyString => True
  | String c r => c ≠ ")"%char ∧ no_paren r
  end.

(** A reverse lookup built from one digest column of the hash rows. *)
Definition build_lookup (column : hash_row → option string)
    (rows : list hash_row) (m : gmap string string) : gmap string string :=
  foldl (λ m r, match column r with
                | Some k => <[k := h_id r]> m
                | None => m
                end) m rows.

(** The digests the add loop stores for a row: those recorded for its key
    among the adds, else among the unchanged ([None]: [KeyError]). *)
Definition digests_of (changes : Changes) (r : row) : option digests :=
  match adds changes !! py_str (py_neg_index r 1) with
  | Some x => Some x
  | None => unchanged changes !! py_str (py_neg_index r 1)
  end.

(** The rows the add loop does not skip. *)
Definition inserted (crate : Crate) (r : row) : Prop :=
  is_table crate = true ∨ py_neg_index r 2 ≠ VNone.

(** What the add loop over [rows] makes of destination [d]: [d'] is [d]
    with new records, all with fresh identifiers, and [news] are the hash
    rows written, one for each row that is not skipped. *)
Definition added (crate : Crate) (changes : Changes) (rows : list row)
    (d d' : dataset) (news : list hash_row) : Prop :=
  ds_fields d' = ds_fields d
  ∧ ds_oid_field d' = ds_oid_field d
  ∧ ds_next_oid d ≤ ds_next_oid d'
  ∧ (∃ recs, ds_rows d' = ds_rows d ++ recs
             ∧ ∀ rec, rec ∈ recs → ds_next_oid d ≤ rec_oid rec)
  ∧ (∀ x, x ∈ news →
       (∃ z, ds_next_oid d ≤ z ∧ h_id x = pretty z)
       ∧ ∃ r digs, r ∈ rows ∧ digests_of changes r = Some digs
                   ∧ h_att x = Some digs.1 ∧ h_geom x = digs.2)
  ∧ (∀ r, r ∈ rows → inserted crate r →
       ∃ x digs, x ∈ news ∧ digests_of changes r = Some digs
                 ∧ h_att x = Some digs.1 ∧ h_geom x = digs.2).

(** The rows the add cursor of [add_phase] yields, given the scratch
    table. *)
Definition add_cursor_rows (crate : Crate) (changes : Changes)
    (src : dataset) (temp projected : option (list row))
  : option (list row) :=
  let clause := get_adds_where_clause changes (source_primary_key crate)
                  (source_primary_key_type crate) reproject_temp_suffix in
  let cf := add_fields crate changes in
  if needs_reproject crate then
    (λ rows, filter (λ r, eval_where_row cf clause r = true)
                    (map (project_row crate) rows)) <$> temp
  else
    match table changes with
    | TSource =>
        if cursor_fields_ok src cf
        then Some (map (read_row src cf)
                       (filter (λ r, eval_where src clause r = true)
                               (ds_rows src)))
        else None
    | TTemp => filter (λ r, eval_where_row cf clause r = true) <$> temp
    | TProjected =>
        filter (λ r, eval_where_row cf clause r = true) <$> projected
    end.



(** * Sample stores

    Concrete crates and stores on which the model is run in the examples
    at the end of the file.  [sample_md5] stands in for md5 there: it is
    injective and keeps the digests readable. *)

Definition sample_md5 (s : string) : string := s.

(** A pallet that keeps the default [validate_crate]. *)
Definition use_default : validator := λ _ _, Ret NotImplemented.

(** ** A table keyed by its identifier column *)

Definition town_fields : list Field :=
  [mkField "OBJECTID" "OID" 4; mkField "NAME" "String" 50;
   mkField "POP" "Integer" 4].

Definition town (oid : Z) (n : string) (p : Z) : record :=
  mkRecord oid (<["NAME" := VStr n]> (<["POP" := VInt p]> ∅)) None.

Definition towns : Crate :=
  mkCrate "towns" "src.gdb/towns" "dst.gdb/towns" "dst.gdb" "towns"
          "OBJECTID" KeyInt None "Table" true false (λ s, s).

(** The source now: town 2 was renamed and town 3 is new. *)
Definition towns_source : dataset :=
  mkDataset town_fields "OBJECTID"
            [town 1 "a" 10; town 2 "b2" 20; town 3 "c" 30] 4.

(** The destination and the hash table as an earlier run left them. *)
Definition towns_destination : dataset :=
  mkDataset town_fields "OBJECTID" [town 1 "a" 10; town 2 "b" 20] 3.

Definition towns_hashes : list hash_row :=
  [mkHashRow "1" (Some "(u'a', 10)1") None;
   mkHashRow "2" (Some "(u'b', 20)2") None].

Definition towns_world : world :=
  mkWorld towns_source (Some towns_destination) (Some towns_hashes)
          true None None Unbound None [].

(** The same store before the first run: no destination yet. *)
Definition towns_fresh : world :=
  mkWorld towns_source None None true None None Unbound None [].


(** A destination that declares a field the source does not have. *)
Definition towns_widened : world :=
  mkWorld towns_source
          (Some (mkDataset (town_fields ++ [mkField "EXTRA" "String" 10])
                           "OBJECTID" [] 1))
          None true None None Unbound None [].

(** A destination that declares such a field and, besides, types [POP] as
    text. *)
Definition towns_retyped : world :=
  mkWorld towns_source
          (Some (mkDataset [mkField "OBJECTID" "OID" 4;
                            mkField "NAME" "String" 50;
                            mkField "POP" "String" 10;
                            mkField "EXTRA" "String" 10]
                           "OBJECTID" [] 1))
          None true None None Unbound None [].

(** The same crate bound for an enterprise workspace that is not there. *)
Definition towns_sde : Crate :=
  mkCrate "towns" "src.gdb/towns" "db.sde/towns" "db.sde" "towns"
          "OBJECTID" KeyInt None "Table" true false (λ s, s).

Definition towns_homeless : world :=
  mkWorld towns_source None None false None None Unbound None [].

(** A destination absent while a hash table of an earlier life of the
    crate is still there. *)
Definition towns_stale : world :=
  mkWorld towns_source None (Some towns_hashes)
          true None None Unbound None [].

(** ** A table whose key column repeats a value *)

Definition codes_fields : list Field :=
  [mkField "OBJECTID" "OID" 4; mkField "CODE" "String" 10;
   mkField "NAME" "String" 50].

Definition code (oid : Z) (c n : string) : record :=
  mkRecord oid (<["CODE" := VStr c]> (<["NAME" := VStr n]> ∅)) None.

Definition codes : Crate :=
  mkCrate "codes" "src.gdb/codes" "dst.gdb/codes" "dst.gdb" "codes"
          "CODE" KeyStr None "Table" true false (λ s, s).

Definition codes_world : world :=
  mkWorld (mkDataset codes_fields "OBJECTID"
                     [code 1 "A" "a"; code 2 "A" "b"] 3)
          (Some (mkDataset codes_fields "OBJECTID" [] 1))
          None true None None Unbound None [].

(** ** A shapefile of points, keyed by [FID] *)



Definition wells : Crate :=
  mkCrate "wells" "shp/wells.shp" "dst.gdb/wells" "dst.gdb" "wells"
          "FID" KeyInt None "ShapeFile" false false (λ s, s).







(** A record with an empty geometry, as the cursor of [_hash] yields it:
    the attribute, the key, then the well-known text. *)
Definition well_without_shape : row := [VStr "c"; VInt 2; VNone].

(** The rows of [towns_source], as the cursor of [_hash] yields them. *)
Definition town_row (oid : Z) (n : string) (p : Z) : row :=
  [VStr n; VInt p; VInt oid].


(** ** Further definitions: the edit session, and [init] *)

(** No edit session is open. *)
Definition session_closed (w : world) : Prop :=
  match w_editor w with Editing _ => False | _ => True end.

(** The garage: the two geodatabases [core.py] keeps beside the
    configuration file, each absent or a set of named tables, and the
    [workspace] setting of the geoprocessing environment. *)
Record garage := mkGarage {
  g_hashes : option (gmap string (list hash_row));  (* hashes.gdb *)
  g_scratch : option (gmap string (list row));      (* scratch.gdb *)
  g_workspace : option string;                      (* arcpy.env.workspace *)
  g_log : list log_record
}.

(** [init()]; [hash_gdb_path] depends on where the package is installed and
    is a parameter here. *)
Definition init (hash_gdb_path : string) (g : garage) : garage :=
  (* create gdb if needed *)
  let g :=
    match g_hashes g with
    | None =>
        mkGarage (Some ∅) (g_scratch g) (g_workspace g)
          (g_log g ++ [mkLog INFO "%s does not exist. creating"
                         [hash_gdb_path]])
    | Some _ => g
    end in
  (* create gdb if needed *)
  let g :=
    match g_scratch g with
    | Some _ =>
        mkGarage (g_hashes g) None (g_workspace g)
          (g_log g ++ [mkLog INFO "%s exist. recreating" [hash_gdb_path]])
    | None => g
    end in
  let g := mkGarage (g_hashes g) (Some ∅) (g_workspace g) (g_log g) in
  mkGarage (g_hashes g) (g_scratch g) None (g_log g).

(** * Properties *)

Section Properties.

Variable md5 : string → string.

(** ** Classification of a source record *)

Lemma is_new_true st att geom :
  is_new st att geom = true ↔
  attribute_hashes st !! att = None
  ∨ ∃ g, geom = Some g ∧ geometry_hashes st !! g = None.
Proof.
  unfold is_new. rewrite orb_true_iff, bool_decide_eq_true.
  destruct geom as [g|].
  - rewrite bool_decide_eq_true. split.
    + intros [?|?]; [by left|right; eauto].
    + intros [?|(g' & [= <-] & ?)]; [by left|by right].
  - split; [intros [?|?]; [by left|done]|].
    intros [?|(g' & ? & ?)]; [by left|done].
Qed.

Lemma is_new_false st att geom :
  is_new st att geom = false ↔
  is_Some (attribute_hashes st !! att)
  ∧ ∀ g, geom = Some g → is_Some (geometry_hashes st !! g).
Proof.
  unfold is_new. rewrite orb_false_iff, bool_decide_eq_false.
  rewrite not_eq_None_Some. destruct geom as [g|].
  - rewrite bool_decide_eq_false, not_eq_None_Some.
    split; [intros [? ?]; split; [done|congruence]|intros [? Hg]; eauto].
  - split; [intros [? _]; split; [done|congruence]|intros [? _]; done].
Qed.

(** C1: in the loop of [_hash], a source record that is not skipped is
    classified as an add exactly when its attribute digest is absent from
    the attribute reverse lookup, or a geometry digest was computed and is
    absent from the geometry reverse lookup; an add leaves the lookups as
    they are.  In every other case the record is classified as unchanged,
    and its attribute entry, and its geometry entry when there is a geometry
    digest, are removed from the reverse lookups. *)
Theorem hash_step_classification crate reproject primary_key_index st r :
  skipped crate r = false →
  let salt := unique_salty_id st + 1 in
  let att := attribute_digest md5 primary_key_index r salt in
  let geom := geom_digest md5 crate r salt in
  let key := py_str (py_neg_index r primary_key_index) in
  let st' := hash_step md5 crate reproject primary_key_index st r in
  let absent :=
    attribute_hashes st !! att = None
    ∨ ∃ g, geom = Some g ∧ geometry_hashes st !! g = None in
  ((hs_adds st' = <[key := (att, geom)]> (hs_adds st)
    ∧ hs_unchanged st' = hs_unchanged st
    ∧ attribute_hashes st' = attribute_hashes st
    ∧ geometry_hashes st' = geometry_hashes st) ↔ absent)
  ∧ (¬ absent →
     hs_unchanged st' = <[key := (att, geom)]> (hs_unchanged st)
     ∧ hs_adds st' = hs_adds st
     ∧ attribute_hashes st' = delete att (attribute_hashes st)
     ∧ geometry_hashes st' =
         match geom with
         | Some g => delete g (geometry_hashes st)
         | None => geometry_hashes st
         end).
Proof.
  intros Hskip salt att geom key st' absent.
  subst st'. unfold hash_step. rewrite Hskip.
  fold salt. fold att. fold geom. fold key.
  destruct (is_new st att geom) eqn:Hnew; simpl.
  - apply is_new_true in Hnew. split; [|done]. by split.
  - assert (¬ absent) as Hn.
    { intros Habs. apply is_new_true in Habs. congruence. }
    split; [|done]. split; [|done].
    intros (_ & _ & Hatt & _). exfalso.
    apply is_new_false in Hnew as [[x Hx] _].
    apply (f_equal (λ m, m !! att)) in Hatt.
    rewrite lookup_delete_eq, Hx in Hatt. done.
Qed.

(** ** Null geometries *)

Lemma skipped_true crate r :
  skipped crate r = true ↔ is_table crate = false ∧ py_neg_index r 1 = VNone.
Proof.
  unfold skipped. rewrite andb_true_iff, negb_true_iff, bool_decide_eq_true.
  done.
Qed.

Lemma hash_step_skipped crate reproject primary_key_index st r :
  skipped crate r = true →
  hash_step md5 crate reproject primary_key_index st r =
  mkH (attribute_hashes st) (geometry_hashes st) (hs_adds st)
      (hs_unchanged st) (hs_total_rows st) (unique_salty_id st + 1)
      (hs_temp st)
      (hs_log st ++ [mkLog WARN "Empty geometry found in %s: %s"
                       [source_primary_key crate;
                        py_str (py_neg_index r primary_key_index)]]).
Proof.
  intros Hs. unfold hash_step. rewrite Hs. f_equal. lia.
Qed.

Lemma hash_step_total crate reproject primary_key_index st r :
  hs_total_rows (hash_step md5 crate reproject primary_key_index st r) =
  hs_total_rows st + (if skipped crate r then 0 else 1).
Proof.
  unfold hash_step. destruct (skipped crate r); simpl; [lia|].
  by destruct (is_new _ _ _).
Qed.

Lemma hash_loop_total crate reproject primary_key_index rows st :
  hs_total_rows (hash_loop md5 crate reproject primary_key_index st rows) =
  hs_total_rows st
  + Z.of_nat (length (filter (λ r, skipped crate r = false) rows)).
Proof.
  revert st. induction rows as [|r rows IH]; intros st; simpl.
  { lia. }
  unfold hash_loop in *. simpl. rewrite IH, hash_step_total.
  rewrite filter_cons. case_decide as Hs; rewrite Hs || (apply not_false_is_true in Hs; rewrite Hs); simpl; lia.
Qed.

Lemma bind_ext {A B} (m : M A) (k k' : A → M B) w :
  (∀ a w', k a w' = k' a w') → bind m k w = bind m k' w.
Proof.
  intros Hk. unfold bind. destruct (m w) as [[a|e] w']; [apply Hk|done].
Qed.

Lemma add_loop_skip crate changes fields rows w :
  is_table crate = false →
  add_loop crate changes fields rows w =
  add_loop crate changes fields
    (filter (λ r, py_neg_index r 2 ≠ VNone) rows) w.
Proof.
  intros Ht. revert w. induction rows as [|r rows IH]; intros w; [done|].
  rewrite filter_cons. simpl. rewrite Ht. simpl.
  destruct (decide (py_neg_index r 2 ≠ VNone)) as [Hn|Hn].
  - rewrite bool_decide_eq_false_2 by done. simpl. rewrite Ht. simpl.
    rewrite bool_decide_eq_false_2 by done.
    apply bind_ext. intros d w1.
    destruct (insert_row d fields (py_neg_slice r 1)) as [d' dest_id].
    repeat (apply bind_ext; intros ? ?). apply IH.
  - apply dec_stable in Hn. rewrite bool_decide_eq_true_2 by done.
    apply IH.
Qed.

(** C8: for a geometry-bearing crate, a source record whose well-known
    text is [None] is skipped while the changes are computed: nothing is
    recorded for it (no add, no unchanged entry, no row for reprojection, the
    lookups untouched), the total-row count is left as it was and a warning
    is logged; the total-row count of the loop counts exactly the records
    that are not skipped; and the add phase skips such a row again, so it
    never reaches the insert into the destination. *)
Theorem null_geometry_skip crate :
  is_table crate = false →
  (∀ reproject primary_key_index st r,
     py_neg_index r 1 = VNone →
     hash_step md5 crate reproject primary_key_index st r =
     mkH (attribute_hashes st) (geometry_hashes st) (hs_adds st)
         (hs_unchanged st) (hs_total_rows st) (unique_salty_id st + 1)
         (hs_temp st)
         (hs_log st ++ [mkLog WARN "Empty geometry found in %s: %s"
                          [source_primary_key crate;
                           py_str (py_neg_index r primary_key_index)]]))
  ∧ (∀ reproject primary_key_index st rows,
       hs_total_rows
         (hash_loop md5 crate reproject primary_key_index st rows) =
       hs_total_rows st
       + Z.of_nat (length (filter (λ r, py_neg_index r 1 ≠ VNone) rows)))
  ∧ (∀ changes fields rows w,
       add_loop crate changes fields rows w =
       add_loop crate changes fields
         (filter (λ r, py_neg_index r 2 ≠ VNone) rows) w).
Proof.
  intros Ht. split; [|split].
  - intros reproject primary_key_index st r Hr.
    apply hash_step_skipped, skipped_true. done.
  - intros reproject primary_key_index st rows.
    rewrite hash_loop_total. do 3 f_equal.
    apply list_filter_iff. intros r. unfold skipped. rewrite Ht. simpl.
    rewrite bool_decide_eq_false. done.
  - intros. by apply add_loop_skip.
Qed.

(** ** The schema check *)

Lemma check_field_missing S acc kv :
  missing_fields (check_field S acc kv) =
  missing_fields acc
  ++ (if S !! kv.1 is None then [fld_name kv.2] else []).
Proof.
  destruct kv as [k d]. unfold check_field. simpl.
  destruct (S !! k) as [s|]; [|done].
  rewrite app_nil_r. repeat case_bool_decide; try done;
    destruct (truncate_field_length s), (truncate_field_length d);
    by repeat case_bool_decide.
Qed.

Lemma check_field_mismatching S acc kv :
  mismatching_fields (check_field S acc kv) =
  mismatching_fields acc
  ++ (if mismatch_of S kv is Some m then [m] else []).
Proof.
  destruct kv as [k d]. unfold check_field, mismatch_of. simpl.
  destruct (S !! k) as [s|]; [|by rewrite app_nil_r].
  case_bool_decide; [done|]. case_bool_decide; [|by rewrite app_nil_r].
  destruct (truncate_field_length s) as [sl l1],
           (truncate_field_length d) as [dl l2]. simpl.
  case_bool_decide; [done|by rewrite app_nil_r].
Qed.

Lemma foldl_check_field_missing S l acc n :
  n ∈ missing_fields (foldl (check_field S) acc l) ↔
  n ∈ missing_fields acc
  ∨ ∃ kv, kv ∈ l ∧ S !! kv.1 = None ∧ n = fld_name kv.2.
Proof.
  revert acc. induction l as [|kv l IH]; intros acc; simpl.
  { split; [by left|]. intros [?|(kv & Hkv & _)]; [done|].
    by apply elem_of_nil in Hkv. }
  rewrite IH, check_field_missing, elem_of_app. split.
  - intros [[?|Hn]|(kv' & ? & ? & ?)].
    + by left.
    + right. exists kv. destruct (S !! kv.1) eqn:E.
      * by apply elem_of_nil in Hn.
      * apply list_elem_of_singleton in Hn. split; [left|done].
    + right. exists kv'. split; [by right|done].
  - intros [?|(kv' & Hin & Hnone & ->)]; [by left; left|].
    apply elem_of_cons in Hin as [->|Hin].
    + left; right. rewrite Hnone. by apply list_elem_of_singleton.
    + right. by exists kv'.
Qed.

Lemma foldl_check_field_mismatching S l acc m :
  m ∈ mismatching_fields (foldl (check_field S) acc l) ↔
  m ∈ mismatching_fields acc
  ∨ ∃ kv, kv ∈ l ∧ mismatch_of S kv = Some m.
Proof.
  revert acc. induction l as [|kv l IH]; intros acc; simpl.
  { split; [by left|]. intros [?|(kv & Hkv & _)]; [done|].
    by apply elem_of_nil in Hkv. }
  rewrite IH, check_field_mismatching, elem_of_app. split.
  - intros [[?|Hm]|(kv' & ? & ?)].
    + by left.
    + right. exists kv. destruct (mismatch_of S kv) eqn:E.
      * apply list_elem_of_singleton in Hm as ->. split; [left|done].
      * by apply elem_of_nil in Hm.
    + right. exists kv'. split; [by right|done].
  - intros [?|(kv' & Hin & Hsome)]; [by left; left|].
    apply elem_of_cons in Hin as [->|Hin].
    + left; right. rewrite Hsome. by apply list_elem_of_singleton.
    + right. by exists kv'.
Qed.

Lemma collect_fields_missing src dst n :
  n ∈ missing_fields (collect_fields src dst) ↔
  ∃ k d, get_fields dst !! k = Some d ∧ get_fields src !! k = None
         ∧ n = fld_name d.
Proof.
  unfold collect_fields. rewrite foldl_check_field_missing. simpl. split.
  - intros [Hn|([k d] & Hin & ? & ?)]; [by apply elem_of_nil in Hn|].
    exists k, d. by apply elem_of_map_to_list in Hin.
  - intros (k & d & Hk & ? & ?). right. exists (k, d).
    by rewrite elem_of_map_to_list.
Qed.

Lemma collect_fields_mismatching src dst m :
  m ∈ mismatching_fields (collect_fields src dst) ↔
  ∃ k d, get_fields dst !! k = Some d
         ∧ mismatch_of (get_fields src) (k, d) = Some m.
Proof.
  unfold collect_fields. rewrite foldl_check_field_mismatching. simpl. split.
  - intros [Hn|([k d] & Hin & ?)]; [by apply elem_of_nil in Hn|].
    exists k, d. by apply elem_of_map_to_list in Hin.
  - intros (k & d & Hk & ?). right. exists (k, d).
    by rewrite elem_of_map_to_list.
Qed.

(** The logging of the messages gathered in a loop changes nothing but the
    log. *)
Lemma add_logs_destination ls w :
  w_destination (foldl (λ w l, add_log l w) w ls) = w_destination w.
Proof. revert w. induction ls as [|l ls IH]; intros w; [done|]. simpl. by rewrite IH. Qed.

Lemma add_logs_hash_table ls w :
  w_hash_table (foldl (λ w l, add_log l w) w ls) = w_hash_table w.
Proof. revert w. induction ls as [|l ls IH]; intros w; [done|]. simpl. by rewrite IH. Qed.

Lemma add_logs_source ls w :
  w_source (foldl (λ w l, add_log l w) w ls) = w_source w.
Proof. revert w. induction ls as [|l ls IH]; intros w; [done|]. simpl. by rewrite IH. Qed.

Lemma add_logs_temp ls w :
  w_temp (foldl (λ w l, add_log l w) w ls) = w_temp w.
Proof. revert w. induction ls as [|l ls IH]; intros w; [done|]. simpl. by rewrite IH. Qed.

Lemma add_logs_editor ls w :
  w_editor (foldl (λ w l, add_log l w) w ls) = w_editor w.
Proof. revert w. induction ls as [|l ls IH]; intros w; [done|]. simpl. by rewrite IH. Qed.

Lemma add_logs_projected ls w :
  w_projected (foldl (λ w l, add_log l w) w ls) = w_projected w.
Proof. revert w. induction ls as [|l ls IH]; intros w; [done|]. simpl. by rewrite IH. Qed.

Lemma check_schema_result fp crate w d :
  f_schema fp = None →
  w_destination w = Some d →
  let acc := collect_fields (ds_fields (w_source w)) (ds_fields d) in
  (check_schema fp crate w).1 =
  if bool_decide (missing_fields acc ≠ [])
  then Raise (ValidationException (missing_msg crate (missing_fields acc)))
  else if bool_decide (mismatching_fields acc ≠ [])
  then Raise (ValidationException
                (mismatching_msg crate (mismatching_fields acc)))
  else Ret true.
Proof.
  intros Hf Hd acc. unfold check_schema, bind, log, modify, inject, get,
    the_destination, bind, get. rewrite Hf. simpl. rewrite Hd. simpl.
  fold acc. destruct (missing_fields acc) as [|n ns] eqn:Hm; simpl.
  - by destruct (mismatching_fields acc) as [|m ms] eqn:Hmm.
  - done.
Qed.

(** C7 (as amended): [check_schema] walks every destination field without
    stopping at the first problem: [missing_fields] ends up holding exactly
    the destination fields without a source field of that key, and
    [mismatching_fields] exactly the type or length mismatches.  When some
    field is missing it raises a [ValidationException] whose message lists
    all the missing fields (and no mismatch); when none is missing and some
    field mismatches, one whose message lists all the mismatches; otherwise
    it returns [True]. *)
Theorem check_schema_collects fp crate w d :
  f_schema fp = None →
  w_destination w = Some d →
  let acc := collect_fields (ds_fields (w_source w)) (ds_fields d) in
  (∀ n, n ∈ missing_fields acc ↔
        ∃ k f, get_fields (ds_fields d) !! k = Some f
               ∧ get_fields (ds_fields (w_source w)) !! k = None
               ∧ n = fld_name f)
  ∧ (∀ m, m ∈ mismatching_fields acc ↔
          ∃ k f, get_fields (ds_fields d) !! k = Some f
                 ∧ mismatch_of (get_fields (ds_fields (w_source w))) (k, f)
                   = Some m)
  ∧ (missing_fields acc ≠ [] →
     (check_schema fp crate w).1 =
     Raise (ValidationException (missing_msg crate (missing_fields acc))))
  ∧ (missing_fields acc = [] → mismatching_fields acc ≠ [] →
     (check_schema fp crate w).1 =
     Raise (ValidationException
              (mismatching_msg crate (mismatching_fields acc))))
  ∧ (missing_fields acc = [] → mismatching_fields acc = [] →
     (check_schema fp crate w).1 = Ret true).
Proof.
  intros Hf Hd acc.
  split; [intros n; apply collect_fields_missing|].
  split; [intros m; apply collect_fields_mismatching|].
  pose proof (check_schema_result fp crate w d Hf Hd) as Hr. simpl in Hr.
  fold acc in Hr. rewrite Hr. split; [|split].
  - intros Hne. by rewrite bool_decide_eq_true_2.
  - intros He Hne. rewrite bool_decide_eq_false_2 by (by intros ?).
    by rewrite bool_decide_eq_true_2.
  - intros He He'. rewrite bool_decide_eq_false_2 by (by intros ?).
    by rewrite bool_decide_eq_false_2 by (by intros ?).
Qed.

(** ** The handler of [update] *)

Lemma on_exception_returns fp crate e w :
  ∃ w', on_exception fp crate e w
        = (Ret (UNHANDLED_EXCEPTION, Some (message e)), w').
Proof.
  unfold on_exception, bind, log, modify, try_except, bind, modify. simpl.
  destruct (abort_session fp _) as [[[]|e'] w']; simpl; eauto.
Qed.

Lemma update_body_raises fp crate validate_crate w e w1 :
  update_body md5 fp crate validate_crate (enter crate w) = (Raise e, w1) →
  (update md5 fp crate validate_crate w).1
  = Ret (UNHANDLED_EXCEPTION, Some (message e)).
Proof.
  intros Hb. unfold update, try_finally, try_except. rewrite Hb.
  destruct (on_exception_returns fp crate e w1) as [w' ->]. done.
Qed.

Lemma update_body_returns fp crate validate_crate w r w1 :
  update_body md5 fp crate validate_crate (enter crate w) = (Ret r, w1) →
  update md5 fp crate validate_crate w = (Ret r, set_env None w1).
Proof.
  intros Hb. unfold update, try_finally, try_except. rewrite Hb. done.
Qed.

Lemma validation_caught fp crate validate_crate w m w1 :
  validate fp crate validate_crate w = (Raise (ValidationException m), w1) →
  ∃ w2, validation fp crate validate_crate w = (Ret (Some m), w2)
        ∧ w_destination w2 = w_destination w1
        ∧ w_hash_table w2 = w_hash_table w1.
Proof.
  intros Hv. unfold validation, try_except, bind. rewrite Hv.
  unfold log, modify. simpl. eauto.
Qed.

Lemma validation_raised fp crate validate_crate w m w1 :
  validate fp crate validate_crate w = (Raise (PyException m), w1) →
  validation fp crate validate_crate w = (Raise (PyException m), w1).
Proof.
  intros Hv. unfold validation, try_except, bind. by rewrite Hv.
Qed.

Lemma validation_passed fp crate validate_crate w w1 :
  validate fp crate validate_crate w = (Ret tt, w1) →
  validation fp crate validate_crate w = (Ret None, w1).
Proof.
  intros Hv. unfold validation, try_except, bind. by rewrite Hv.
Qed.

(** C2 (as amended): [update] never raises: whatever the store, the crate,
    the validation hook and the faults of the back end (a failing abort of
    the edit session included), it returns a pair.  An exception that leaves
    the body of the outer [try] is returned as [UNHANDLED_EXCEPTION] with its
    message: that is the case of every fault raised while the destination is
    created, the changes are computed or applied, and of every fault raised
    during validation other than a [ValidationException]; a
    [ValidationException] raised during validation is returned as
    [INVALID_DATA] with its message. *)
Theorem update_never_raises fp crate validate_crate w :
  let w0 := enter crate w in
  let result := (update md5 fp crate validate_crate w).1 in
  (∃ r w', update md5 fp crate validate_crate w = (Ret r, w'))
  ∧ (∀ e w1,
       update_body md5 fp crate validate_crate w0 = (Raise e, w1) →
       result = Ret (UNHANDLED_EXCEPTION, Some (message e)))
  ∧ (∀ e w1,
       ensure_destination fp crate w0 = (Raise e, w1) →
       result = Ret (UNHANDLED_EXCEPTION, Some (message e)))
  ∧ (∀ st e w1 w2,
       ensure_destination fp crate w0 = (Ret st, w1) →
       validate fp crate validate_crate w1 = (Raise e, w2) →
       result = Ret (match e with
                     | ValidationException m => (INVALID_DATA, Some m)
                     | PyException m => (UNHANDLED_EXCEPTION, Some m)
                     end))
  ∧ (∀ st e w1 w2 w3,
       ensure_destination fp crate w0 = (Ret st, w1) →
       validate fp crate validate_crate w1 = (Ret tt, w2) →
       synchronise md5 fp crate st w2 = (Raise e, w3) →
       result = Ret (UNHANDLED_EXCEPTION, Some (message e))).
Proof.
  intros w0 result. subst result.
  assert (∀ e w1,
       update_body md5 fp crate validate_crate w0 = (Raise e, w1) →
       (update md5 fp crate validate_crate w).1
       = Ret (UNHANDLED_EXCEPTION, Some (message e))) as Hbody.
  { intros e w1. apply update_body_raises. }
  split; [|split; [done|split; [|split]]].
  - destruct (update_body md5 fp crate validate_crate w0) as [[r|e] w1] eqn:Hb.
    + exists r, (set_env None w1). by apply update_body_returns.
    + unfold update, try_finally, try_except. fold w0. rewrite Hb.
      destruct (on_exception_returns fp crate e w1) as [w' ->].
      simpl. eauto.
  - intros e w1 He. apply (Hbody e w1).
    unfold update_body, bind. by rewrite He.
  - intros st e w1 w2 He Hv. destruct e as [m|m].
    + destruct (validation_caught _ _ _ _ _ _ Hv) as (w3 & Hv' & _).
      erewrite update_body_returns; [done|].
      unfold update_body, bind. fold w0. rewrite He, Hv'. done.
    + apply (Hbody (PyException m) w2).
      unfold update_body, bind. rewrite He.
      by rewrite (validation_raised _ _ _ _ _ _ Hv).
  - intros st e w1 w2 w3 He Hv Hs. apply (Hbody e w3).
    unfold update_body, bind. rewrite He.
    by rewrite (validation_passed _ _ _ _ _ Hv).
Qed.

(** ** Validation failures *)

Lemma bind_ret_inv {A B} (m : M A) (k : A → M B) w b w' :
  bind m k w = (Ret b, w') →
  ∃ a w1, m w = (Ret a, w1) ∧ k a w1 = (Ret b, w').
Proof.
  unfold bind. destruct (m w) as [[a|e] w1]; [eauto|done].
Qed.

Lemma get_fields_fold_keep fs acc k :
  is_Some (acc !! k) → is_Some (foldl get_fields_step acc fs !! k).
Proof.
  revert acc. induction fs as [|g fs IH]; intros acc Hacc; [done|].
  simpl. apply IH. unfold get_fields_step. destruct (_ && _); [|done].
  destruct (decide (upper (fld_name g) = k)) as [->|Hne].
  - rewrite lookup_insert_eq. eauto.
  - by rewrite lookup_insert_ne.
Qed.

Lemma get_fields_fold_lookup fs acc f :
  f ∈ fs → managed_field (fld_name f) = false →
  is_Some (foldl get_fields_step acc fs !! upper (fld_name f)).
Proof.
  intros Hin Hm. revert acc. induction fs as [|g fs IH]; intros acc.
  { by apply elem_of_nil in Hin. }
  apply elem_of_cons in Hin as [<-|Hin]; simpl.
  - apply get_fields_fold_keep. unfold managed_field in Hm.
    apply orb_false_iff in Hm as [Hn Ho]. unfold get_fields_step.
    rewrite Hn, Ho. simpl. rewrite lookup_insert_eq. eauto.
  - by apply IH.
Qed.

Lemma get_fields_lookup fs f :
  f ∈ fs → managed_field (fld_name f) = false →
  is_Some (get_fields fs !! upper (fld_name f)).
Proof. apply get_fields_fold_lookup. Qed.

Lemma check_schema_frame fp crate w :
  w_destination (check_schema fp crate w).2 = w_destination w
  ∧ w_hash_table (check_schema fp crate w).2 = w_hash_table w
  ∧ w_source (check_schema fp crate w).2 = w_source w
  ∧ w_temp (check_schema fp crate w).2 = w_temp w
  ∧ w_projected (check_schema fp crate w).2 = w_projected w.
Proof.
  unfold check_schema, bind, log, modify, inject, get, the_destination,
    bind, get, raise, ret.
  destruct (f_schema fp); simpl; [done|].
  destruct (w_destination w) as [d|] eqn:Hd; simpl; [|by rewrite Hd].
  repeat case_bool_decide; simpl;
    by rewrite add_logs_destination, add_logs_hash_table, add_logs_source,
      add_logs_temp, add_logs_projected.
Qed.

Lemma validate_frame fp crate validate_crate w :
  w_destination (validate fp crate validate_crate w).2 = w_destination w
  ∧ w_hash_table (validate fp crate validate_crate w).2 = w_hash_table w
  ∧ w_source (validate fp crate validate_crate w).2 = w_source w
  ∧ w_temp (validate fp crate validate_crate w).2 = w_temp w
  ∧ w_projected (validate fp crate validate_crate w).2 = w_projected w.
Proof.
  unfold validate, bind.
  destruct (validate_crate crate w) as [[|]|e]; simpl; [|done|done].
  pose proof (check_schema_frame fp crate w) as (Hd & Hh & Hs & Ht & Hp).
  destruct (check_schema fp crate w) as [[b|e] w1]; simpl in *; done.
Qed.

Lemma ensure_destination_exists fp crate w d :
  w_destination w = Some d →
  ensure_destination fp crate w = (Ret NO_CHANGES, w).
Proof.
  intros Hd. unfold ensure_destination, bind, get. by rewrite Hd.
Qed.

Lemma validation_failure_returned fp crate validate_crate w d m w1 :
  w_destination w = Some d →
  validate fp crate validate_crate (enter crate w)
  = (Raise (ValidationException m), w1) →
  ∃ w', update md5 fp crate validate_crate w
        = (Ret (INVALID_DATA, Some m), w')
        ∧ w_destination w' = w_destination w
        ∧ w_hash_table w' = w_hash_table w.
Proof.
  intros Hd Hv.
  pose proof (validate_frame fp crate validate_crate (enter crate w))
    as (Hfd & Hfh & _). rewrite Hv in Hfd, Hfh. simpl in Hfd, Hfh.
  destruct (validation_caught _ _ _ _ _ _ Hv) as (w2 & Hv' & Hd2 & Hh2).
  exists (set_env None w2). split.
  - apply update_body_returns. unfold update_body, bind.
    rewrite (ensure_destination_exists fp crate (enter crate w) d) by done.
    by rewrite Hv'.
  - simpl. rewrite Hd2, Hh2, Hfd, Hfh. done.
Qed.

(** C5: when the destination already exists and validation fails with a
    [ValidationException], [update] returns [INVALID_DATA] with the message,
    and the destination dataset and the hash table are as they were before
    the call.  In particular this is what happens under the default schema
    check when the destination declares a field, other than the managed ones
    the check leaves out, for which the source has no field of that
    (upper-cased) name. *)
Theorem invalid_schema_blocks_update fp crate validate_crate w d :
  w_destination w = Some d →
  (∀ m w1,
     validate fp crate validate_crate (enter crate w)
     = (Raise (ValidationException m), w1) →
     ∃ w', update md5 fp crate validate_crate w
           = (Ret (INVALID_DATA, Some m), w')
           ∧ w_destination w' = w_destination w
           ∧ w_hash_table w' = w_hash_table w)
  ∧ (∀ f,
       validate_crate crate (enter crate w) = Ret NotImplemented →
       f_schema fp = None →
       f ∈ ds_fields d →
       managed_field (fld_name f) = false →
       get_fields (ds_fields (w_source w)) !! upper (fld_name f) = None →
       ∃ m w', update md5 fp crate validate_crate w
               = (Ret (INVALID_DATA, Some m), w')
               ∧ w_destination w' = w_destination w
               ∧ w_hash_table w' = w_hash_table w).
Proof.
  intros Hd. split.
  - intros m w1. by apply validation_failure_returned with d.
  - intros f Hni Hfs Hin Hm Hsrc.
    destruct (get_fields_lookup _ _ Hin Hm) as [f' Hf'].
    set (acc := collect_fields (ds_fields (w_source (enter crate w)))
                               (ds_fields d)).
    assert (missing_fields acc ≠ []) as Hne.
    { assert (fld_name f' ∈ missing_fields acc) as Hel.
      { apply collect_fields_missing. exists (upper (fld_name f)), f'. done. }
      intros Hnil. rewrite Hnil in Hel. by apply elem_of_nil in Hel. }
    pose proof (check_schema_result fp crate (enter crate w) d Hfs Hd) as Hr.
    simpl in Hr. fold acc in Hr. rewrite bool_decide_eq_true_2 in Hr by done.
    exists (missing_msg crate (missing_fields acc)).
    destruct (check_schema fp crate (enter crate w)) as [r w1] eqn:Hc.
    simpl in Hr. subst r.
    apply validation_failure_returned with d w1; [done|].
    unfold validate, bind. rewrite Hni, Hc. done.
Qed.

(** ** Creation of the destination *)

Lemma bump_created : bump CREATED = CREATED.
Proof. done. Qed.

Lemma synchronise_status fp crate st w r w' :
  synchronise md5 fp crate st w = (Ret r, w') →
  r.2 = None ∧ (r.1 = st ∨ r.1 = bump st ∨ r.1 = bump (bump st)).
Proof.
  unfold synchronise. intros H.
  apply bind_ret_inv in H as (changes & w1 & _ & H).
  apply bind_ret_inv in H as ([] & w2 & _ & H).
  apply bind_ret_inv in H as (st1 & w3 & H1 & H).
  apply bind_ret_inv in H as (st2 & w4 & H2 & H).
  injection H as <- <-. simpl. split; [done|].
  assert (st1 = st ∨ st1 = bump st) as Hst1.
  { destruct (has_deletes changes); [|injection H1 as <- _; by left].
    apply bind_ret_inv in H1 as ([] & ? & _ & H1). injection H1 as <- _.
    by right. }
  assert (st2 = st1 ∨ st2 = bump st1) as Hst2.
  { destruct (has_adds changes); [|injection H2 as <- _; by left].
    apply bind_ret_inv in H2 as ([] & ? & _ & H2). injection H2 as <- _.
    by right. }
  destruct Hst1 as [->| ->], Hst2 as [->| ->]; auto.
Qed.

Lemma create_destination_schema fp crate w w1 :
  _create_destination_data fp crate w = (Ret tt, w1) →
  w_source w1 = w_source w
  ∧ ∃ d, w_destination w1 = Some d
         ∧ ds_rows d = []
         ∧ filter (λ f, managed_field (fld_name f) = false) (ds_fields d)
           = filter (λ f, managed_field (fld_name f) = false)
               (filter (λ f, is_user_field f = true)
                       (ds_fields (w_source w))).
Proof.
  unfold _create_destination_data. intros H.
  apply bind_ret_inv in H as (w' & w2 & Hg & H). injection Hg as <- <-.
  apply bind_ret_inv in H as ([] & w3 & Hws & H).
  assert (w_source w3 = w_source w) as Hsrc.
  { destruct (negb (w_workspace w)); [|by injection Hws as <-].
    destruct (endswith _ _); [|done].
    unfold bind, log, modify, inject, raise, ret in Hws. simpl in Hws.
    destruct (f_create fp); [done|]. by injection Hws as <-. }
  clear Hws. destruct (is_table crate).
  - unfold bind, log, modify, inject, raise, ret in H. simpl in H.
    destruct (f_create fp); [done|]. injection H as <-. simpl.
    split; [done|]. eexists. split; [done|]. split; [done|]. simpl.
    rewrite filter_cons_False; [done|]. by vm_compute.
  - unfold bind, log, modify, inject, raise, ret, the_destination, bind, get,
      ret in H. simpl in H.
    destruct (f_create fp); [done|]. simpl in H.
    case_bool_decide; simpl in H; injection H as <-; simpl.
    + split; [done|]. eexists. split; [done|]. split; [done|]. simpl.
      rewrite filter_cons_False by (by vm_compute).
      rewrite filter_cons_False by (by vm_compute).
      rewrite filter_app. rewrite (filter_cons_False _ (mkField "FID" _ _))
        by (by vm_compute).
      by rewrite filter_nil, app_nil_r.
    + split; [done|]. eexists. split; [done|]. split; [done|]. simpl.
      rewrite filter_cons_False by (by vm_compute).
      rewrite filter_cons_False by (by vm_compute). done.
Qed.

Lemma ensure_destination_created fp crate w st w1 :
  w_destination w = None →
  ensure_destination fp crate w = (Ret st, w1) →
  st = CREATED
  ∧ w_hash_table w1 = None
  ∧ ∃ d, w_destination w1 = Some d
         ∧ ds_rows d = []
         ∧ filter (λ f, managed_field (fld_name f) = false) (ds_fields d)
           = filter (λ f, managed_field (fld_name f) = false)
               (filter (λ f, is_user_field f = true)
                       (ds_fields (w_source w))).
Proof.
  intros Hd. unfold ensure_destination. intros H.
  apply bind_ret_inv in H as (w' & w2 & Hg & H). injection Hg as <- <-.
  rewrite Hd in H.
  apply bind_ret_inv in H as ([] & w3 & Hl & H).
  unfold log, modify in Hl. injection Hl as <-.
  apply bind_ret_inv in H as ([] & w4 & Hc & H).
  apply create_destination_schema in Hc as (Hsrc & d & Hd4 & Hrows & Hf).
  apply bind_ret_inv in H as (w5 & w6 & Hg & H). injection Hg as <- <-.
  apply bind_ret_inv in H as ([] & w7 & Hh & H). injection H as <- <-.
  split; [done|].
  destruct (w_hash_table w4) eqn:Hh4.
  - unfold modify in Hh. injection Hh as <-. simpl. split; [done|]. eauto.
  - injection Hh as <-. split; [done|]. eauto.
Qed.

(** C6 (as amended): when the destination does not exist, [update] creates
    it as an empty dataset whose fields, the managed ones left out, are those
    of the source (its identifier and geometry columns apart), and drops a
    stale hash table.  It then returns [CREATED] provided that validation
    passes and no exception is raised; otherwise it returns [INVALID_DATA]
    or [UNHANDLED_EXCEPTION], and never [NO_CHANGES] or [UPDATED]. *)
Theorem update_creates_destination fp crate validate_crate w :
  w_destination w = None →
  let w0 := enter crate w in
  (∀ st w1,
     ensure_destination fp crate w0 = (Ret st, w1) →
     st = CREATED
     ∧ w_hash_table w1 = None
     ∧ ∃ d, w_destination w1 = Some d
            ∧ ds_rows d = []
            ∧ filter (λ f, managed_field (fld_name f) = false) (ds_fields d)
              = filter (λ f, managed_field (fld_name f) = false)
                  (filter (λ f, is_user_field f = true)
                          (ds_fields (w_source w))))
  ∧ (∀ st w1 w2 r w3,
       ensure_destination fp crate w0 = (Ret st, w1) →
       validate fp crate validate_crate w1 = (Ret tt, w2) →
       synchronise md5 fp crate st w2 = (Ret r, w3) →
       update md5 fp crate validate_crate w
       = (Ret (CREATED, None), set_env None w3))
  ∧ (∀ r w',
       update md5 fp crate validate_crate w = (Ret r, w') →
       r.1 = CREATED ∨ r.1 = INVALID_DATA ∨ r.1 = UNHANDLED_EXCEPTION).
Proof.
  intros Hd w0.
  assert (w_destination w0 = None) as Hd0 by done.
  split; [|split].
  - intros st w1 He.
    by apply (ensure_destination_created fp crate w0 st w1 Hd0) in He.
  - intros st w1 w2 r w3 He Hv Hs.
    pose proof (ensure_destination_created fp crate w0 st w1 Hd0 He)
      as [-> _].
    pose proof (synchronise_status _ _ _ _ _ _ Hs) as [Hm Hst].
    apply update_body_returns. unfold update_body, bind. fold w0.
    rewrite He, (validation_passed _ _ _ _ _ Hv), Hs.
    destruct r as [st' m]. simpl in *. subst m.
    rewrite !bump_created in Hst. by destruct Hst as [->|[->| ->]].
  - intros r w' Hu.
    destruct (update_body md5 fp crate validate_crate w0) as [[r'|e] w1] eqn:Hb.
    + rewrite (update_body_returns _ _ _ _ _ _ Hb) in Hu. injection Hu as <- _.
      unfold update_body in Hb.
      apply bind_ret_inv in Hb as (st & w2 & He & Hb).
      pose proof (ensure_destination_created fp crate w0 st w2 Hd0 He)
        as [-> _].
      apply bind_ret_inv in Hb as ([m|] & w3 & Hv & Hb).
      * injection Hb as <- _. by right; left.
      * apply synchronise_status in Hb as [_ Hst].
        rewrite !bump_created in Hst. left. by destruct Hst as [?|[?|?]].
    + pose proof (update_body_raises _ _ _ _ _ _ Hb) as Hr.
      rewrite Hu in Hr. simpl in Hr. injection Hr as ->. by right; right.
Qed.

(** ** What [_hash] returns *)

Lemma ensure_hash_table_present crate w h :
  w_hash_table w = Some h → ensure_hash_table crate w = (Ret tt, w).
Proof. intros Hh. unfold ensure_hash_table, bind, get. by rewrite Hh. Qed.

Lemma ensure_hash_table_missing crate w d :
  w_hash_table w = None → w_destination w = Some d →
  ∃ w1, ensure_hash_table crate w = (Ret tt, w1)
        ∧ w_hash_table w1 = Some []
        ∧ w_destination w1 = Some (truncate d)
        ∧ w_source w1 = w_source w
        ∧ w_editor w1 = w_editor w
        ∧ w_temp w1 = w_temp w.
Proof.
  intros Hh Hd. unfold ensure_hash_table, bind, get, log, modify,
    the_destination, bind, get. rewrite Hh. simpl. rewrite Hd. simpl.
  eexists. split; [done|]. done.
Qed.

(** [_hash] on a store that has a destination and a hash table. *)
Lemma hash_eval fp crate reproject w d h :
  w_destination w = Some d →
  w_hash_table w = Some h →
  let fields := (hash_fields crate (w_source w) d).1 in
  let st := hash_run md5 crate reproject (w_source w) d (hash_lookups h) in
  let changes :=
    mkChanges (hs_adds st) (hs_unchanged st)
      (determine_deletes (attribute_hashes st) (geometry_hashes st))
      (if reproject
       then set_last (fields ++ [source_primary_key crate]) src_id_field
       else fields ++ [source_primary_key crate])
      (if reproject then TTemp else TSource)
      (hs_total_rows st) in
  let wa :=
    (if reproject then set_temp (Some []) else id)
      (add_log (mkLog INFO "checking for changes..." []) w) in
  let wb :=
    (if reproject then set_temp (Some (hs_temp st)) else id)
      (foldl (λ w l, add_log l w) wa (hs_log st)) in
  _hash md5 fp crate reproject w =
  match f_hash fp with
  | Some e => (Raise e, wa)
  | None =>
      if cursor_fields_ok (w_source w) fields then (Ret changes, wb)
      else (Raise (PyException "Cannot find field"), wa)
  end.
Proof.
  intros Hd Hh fields st changes wa wb. unfold _hash.
  unfold bind at 1. rewrite (ensure_hash_table_present crate w h Hh).
  unfold bind, log, modify, get, the_destination, _get_hash_lookups,
    the_hash_table, bind, get, inject, open_cursor, raise, ret.
  simpl. rewrite Hd. simpl. rewrite Hh. simpl. fold fields.
  subst wa wb. destruct reproject; simpl.
  - destruct (f_hash fp) as [e|]; simpl; [done|].
    by destruct (cursor_fields_ok (w_source w) fields).
  - destruct (f_hash fp) as [e|]; simpl; [done|].
    by destruct (cursor_fields_ok (w_source w) fields).
Qed.

(** The change set [_hash] builds from the final state of its loop, and
    what it leaves untouched. *)
Lemma hash_computes fp crate reproject w d h :
  w_destination w = Some d →
  w_hash_table w = Some h →
  let fields := (hash_fields crate (w_source w) d).1 in
  let st := hash_run md5 crate reproject (w_source w) d (hash_lookups h) in
  let changes :=
    mkChanges (hs_adds st) (hs_unchanged st)
      (determine_deletes (attribute_hashes st) (geometry_hashes st))
      (if reproject
       then set_last (fields ++ [source_primary_key crate]) src_id_field
       else fields ++ [source_primary_key crate])
      (if reproject then TTemp else TSource)
      (hs_total_rows st) in
  ∃ r w', _hash md5 fp crate reproject w = (r, w')
        ∧ w_destination w' = Some d
        ∧ w_hash_table w' = Some h
        ∧ w_source w' = w_source w
        ∧ w_editor w' = w_editor w
        ∧ w_projected w' = w_projected w
        ∧ ((∃ e, r = Raise e
                 ∧ (f_hash fp = Some e
                    ∨ cursor_fields_ok (w_source w) fields = false))
           ∨ (r = Ret changes
              ∧ f_hash fp = None
              ∧ cursor_fields_ok (w_source w) fields = true
              ∧ w_temp w' = if reproject then Some (hs_temp st)
                            else w_temp w)).
Proof.
  intros Hd Hh fields st changes.
  rewrite (hash_eval fp crate reproject w d h Hd Hh). fold fields st changes.
  destruct (f_hash fp) as [e|].
  { eexists _, _. split; [reflexivity|].
    destruct reproject; split_and!; try done; left; eauto. }
  destruct (cursor_fields_ok (w_source w) fields) eqn:Hok.
  - eexists _, _. split; [reflexivity|].
    destruct reproject; simpl;
      rewrite ?add_logs_destination, ?add_logs_hash_table,
        ?add_logs_source, ?add_logs_editor, ?add_logs_projected,
        ?add_logs_temp;
      split_and!; try done; right; done.
  - eexists _, _. split; [reflexivity|].
    destruct reproject; split_and!; try done; left; eauto.
Qed.

Lemma hash_after_ensure fp crate reproject w w1 :
  ensure_hash_table crate w = (Ret tt, w1) →
  is_Some (w_hash_table w1) →
  _hash md5 fp crate reproject w = _hash md5 fp crate reproject w1.
Proof.
  intros He [h Hh].
  pose proof (ensure_hash_table_present crate w1 h Hh) as He1.
  unfold _hash, bind at 1. rewrite He. symmetry.
  unfold bind at 1. by rewrite He1.
Qed.

(** ** Hashing for the first time *)




Lemma hash_loop_empty_lookups crate reproject primary_key_index rows st :
  attribute_hashes st = ∅ → geometry_hashes st = ∅ →
  let st' := hash_loop md5 crate reproject primary_key_index st rows in
  attribute_hashes st' = ∅
  ∧ geometry_hashes st' = ∅
  ∧ hs_unchanged st' = hs_unchanged st
  ∧ dom (hs_adds st) ⊆ dom (hs_adds st')
  ∧ ∀ r, r ∈ rows → skipped crate r = false →
         py_str (py_neg_index r primary_key_index) ∈ dom (hs_adds st').
Proof.
  revert st. induction rows as [|r rows IH]; intros st Ha Hg; simpl.
  { split_and!; try done. intros r Hr. by apply elem_of_nil in Hr. }
  set (st1 := hash_step md5 crate reproject primary_key_index st r).
  assert (attribute_hashes st1 = ∅ ∧ geometry_hashes st1 = ∅
          ∧ hs_unchanged st1 = hs_unchanged st
          ∧ dom (hs_adds st) ⊆ dom (hs_adds st1)
          ∧ (skipped crate r = false →
             py_str (py_neg_index r primary_key_index) ∈ dom (hs_adds st1)))
    as (Ha1 & Hg1 & Hu1 & Hd1 & Hk1).
  { subst st1. unfold hash_step. destruct (skipped crate r); simpl.
    { split_and!; done. }
    unfold is_new. rewrite Ha, lookup_empty. simpl.
    split_and!; try done.
    - rewrite dom_insert_L. set_solver.
    - intros _. rewrite dom_insert_L. set_solver. }
  destruct (IH st1 Ha1 Hg1) as (Ha' & Hg' & Hu' & Hd' & Hk').
  unfold hash_loop in *. split_and!; try done.
  - by rewrite Hu'.
  - set_solver.
  - intros r' [->|Hr']%elem_of_cons Hs; [|by apply Hk'].
    apply Hd'. by apply Hk1.
Qed.


Lemma hash_run_empty_lookups crate reproject src d :
  let st := hash_run md5 crate reproject src d (hash_lookups []) in
  attribute_hashes st = ∅
  ∧ geometry_hashes st = ∅
  ∧ hs_unchanged st = ∅
  ∧ ∀ r, r ∈ source_stream crate src (hash_fields crate src d).1 →
         skipped crate r = false →
         py_str (py_neg_index r (hash_fields crate src d).2)
         ∈ dom (hs_adds st).
Proof.
  pose proof (hash_loop_empty_lookups crate reproject
    (hash_fields crate src d).2
    (source_stream crate src (hash_fields crate src d).1)
    (hash_init (∅, ∅)) eq_refl eq_refl) as (Ha & Hg & Hu & _ & Hk).
  done.
Qed.


(** ** Salted digests *)

Lemma string_app_assoc (a b c : string) : (a +:+ b) +:+ c = a +:+ b +:+ c.
Proof.
  induction a as [|x a IH]; [done|].
  change (String x ((a +:+ b) +:+ c) = String x (a +:+ b +:+ c)).
  by rewrite IH.
Qed.

Lemma tuple_str_closed t : ∃ b, tuple_str t = b +:+ ")".
Proof.
  destruct t as [|v [|v' t]].
  - by exists "(".
  - exists ("(" +:+ py_repr v +:+ ","). unfold tuple_str.
    by rewrite !string_app_assoc.
  - exists ("(" +:+ String.concat ", " (map py_repr (v :: v' :: t))).
    unfold tuple_str. by rewrite !string_app_assoc.
Qed.

Lemma pretty_N_char_no_paren x : pretty_N_char x ≠ ")"%char.
Proof. unfold pretty_N_char. by repeat case_match. Qed.

Lemma pretty_N_go_no_paren x s : no_paren s → no_paren (pretty_N_go x s).
Proof.
  revert s. induction (N.lt_wf_0 x) as [x _ IH]; intros s Hs.
  assert (x = 0 ∨ 0 < x)%N as [->|Hx] by lia.
  - by rewrite pretty_N_go_0.
  - rewrite pretty_N_go_step by done. apply IH.
    + by apply N.div_lt.
    + simpl. split; [apply pretty_N_char_no_paren|done].
Qed.

Lemma pretty_Z_no_paren z : 0 ≤ z → no_paren (pretty z).
Proof.
  destruct z as [|p|p]; [by simpl|intros _|lia].
  unfold pretty, pretty_Z, pretty, pretty_positive, pretty, pretty_N.
  rewrite decide_False by done. by apply pretty_N_go_no_paren.
Qed.

Lemma string_app_cons x (a b : string) :
  String x a +:+ b = String x (a +:+ b).
Proof. done. Qed.

Lemma string_app_nil_l (a : string) : "" +:+ a = a.
Proof. done. Qed.

Lemma no_paren_tail b p q :
  no_paren p → p = b +:+ String ")" q → False.
Proof.
  revert p. induction b as [|x b IH]; intros p Hp ->.
  - rewrite string_app_nil_l in Hp. by destruct Hp.
  - rewrite string_app_cons in Hp. destruct Hp as [_ Hp].
    by apply (IH _ Hp).
Qed.

Lemma append_paren_inj b1 b2 p1 p2 :
  no_paren p1 → no_paren p2 →
  b1 +:+ String ")" p1 = b2 +:+ String ")" p2 → b1 = b2 ∧ p1 = p2.
Proof.
  intros Hp1 Hp2. revert b2.
  induction b1 as [|x b1 IH]; intros [|y b2];
    rewrite ?string_app_nil_l, ?string_app_cons.
  - by intros [= ->].
  - intros [= <- ->]. by destruct (no_paren_tail b2 _ p2 Hp1 eq_refl).
  - intros [= -> <-]. by destruct (no_paren_tail b1 _ p1 Hp2 eq_refl).
  - intros [= -> Heq]. apply IH in Heq as [-> ->]. done.
Qed.

Lemma create_hash_inj t1 t2 n1 n2 :
  Inj (=) (=) md5 → 0 ≤ n1 → 0 ≤ n2 →
  _create_hash md5 (tuple_str t1) n1 = _create_hash md5 (tuple_str t2) n2 →
  tuple_str t1 = tuple_str t2 ∧ n1 = n2.
Proof.
  intros Hinj Hn1 Hn2 Heq. unfold _create_hash in Heq. apply Hinj in Heq.
  destruct (tuple_str_closed t1) as [b1 Hb1].
  destruct (tuple_str_closed t2) as [b2 Hb2].
  rewrite Hb1, Hb2 in *. unfold py_str in Heq.
  rewrite !string_app_assoc in Heq.
  change (b1 +:+ String ")" (pretty n1) = b2 +:+ String ")" (pretty n2))
    in Heq.
  apply append_paren_inj in Heq as [-> Hp];
    [|by apply pretty_Z_no_paren..].
  split; [done|]. by apply (inj pretty).
Qed.

Lemma hash_step_salt crate reproject primary_key_index st r :
  unique_salty_id (hash_step md5 crate reproject primary_key_index st r)
  = unique_salty_id st + 1.
Proof.
  unfold hash_step. destruct (skipped crate r); [done|].
  by destruct (is_new _ _ _).
Qed.

Lemma hash_loop_salt crate reproject primary_key_index rows st :
  unique_salty_id (hash_loop md5 crate reproject primary_key_index st rows)
  = unique_salty_id st + Z.of_nat (length rows).
Proof.
  revert st. induction rows as [|r rows IH]; intros st; simpl; [lia|].
  unfold hash_loop in *. simpl. rewrite IH, hash_step_salt. lia.
Qed.

Lemma hash_loop_snoc crate reproject primary_key_index st rows r :
  hash_loop md5 crate reproject primary_key_index st (rows ++ [r])
  = hash_step md5 crate reproject primary_key_index
      (hash_loop md5 crate reproject primary_key_index st rows) r.
Proof. unfold hash_loop. by rewrite foldl_app. Qed.

(** C9: the digests are salted with the position of the record in the
    stream read in primary-key order: once the loop of [_hash] has processed
    the record at position [n] (counted from 1, skipped records included)
    and not skipped it, the entry recorded under the record's key carries,
    as attribute digest, the digest of the rendering of its non-key content
    combined with [n].  Hence, md5 being taken free of collisions, the
    attribute digests of two records, of this or another run, are equal only
    if the renderings of their contents are equal and their positions are
    the same. *)
Theorem digest_salted_by_position crate reproject primary_key_index
    lookups pre r :
  skipped crate r = false →
  let n := Z.of_nat (length pre) + 1 in
  let st := hash_loop md5 crate reproject primary_key_index
              (hash_init lookups) (pre ++ [r]) in
  let key := py_str (py_neg_index r primary_key_index) in
  let att := _create_hash md5 (tuple_str (py_neg_slice r primary_key_index))
               n in
  attribute_digest md5 primary_key_index r n = att
  ∧ (hs_adds st !! key = Some (att, geom_digest md5 crate r n)
     ∨ hs_unchanged st !! key = Some (att, geom_digest md5 crate r n))
  ∧ (Inj (=) (=) md5 →
     ∀ (pre' : list row) r',
       attribute_digest md5 primary_key_index r' (Z.of_nat (length pre') + 1)
       = att →
       tuple_str (py_neg_slice r' primary_key_index)
       = tuple_str (py_neg_slice r primary_key_index)
       ∧ length pre' = length pre).
Proof.
  intros Hs n st key att. split; [done|]. split.
  - subst st. rewrite hash_loop_snoc.
    set (st0 := hash_loop md5 crate reproject primary_key_index
                  (hash_init lookups) pre).
    assert (unique_salty_id st0 + 1 = n) as Hn.
    { subst st0 n. rewrite hash_loop_salt. simpl. lia. }
    unfold hash_step. rewrite Hs, Hn.
    fold (attribute_digest md5 primary_key_index r n).
    destruct (is_new _ _ _); simpl; rewrite lookup_insert_eq; auto.
  - intros Hinj pre' r' Heq. unfold attribute_digest in Heq. subst att.
    apply create_hash_inj in Heq as [? ?]; [|done|lia|lia].
    split; [done|lia].
Qed.

(** ** The reverse lookups *)

Lemma hash_lookups_build rows :
  hash_lookups rows = (build_lookup h_att rows ∅, build_lookup h_geom rows ∅).
Proof.
  unfold hash_lookups, build_lookup.
  generalize (∅ : gmap string string) at 1 3.
  generalize (∅ : gmap string string).
  induction rows as [|r rows IH]; intros m1 m2; [done|]. simpl.
  by rewrite IH.
Qed.

Lemma build_lookup_elem column rows m k id :
  build_lookup column rows m !! k = Some id →
  m !! k = Some id ∨ ∃ r, r ∈ rows ∧ column r = Some k ∧ h_id r = id.
Proof.
  revert m. induction rows as [|r rows IH]; intros m; simpl; [by left|].
  intros [Hm|(r' & ? & ? & ?)]%IH.
  - destruct (column r) as [k'|] eqn:Hc; [|by left].
    destruct (decide (k' = k)) as [->|Hne].
    + rewrite lookup_insert_eq in Hm. injection Hm as <-.
      right. exists r. split; [left|done].
    + rewrite lookup_insert_ne in Hm by done. by left.
  - right. exists r'. split; [by right|done].
Qed.



(** ** The loop of [_hash] *)

Lemma hash_step_cases crate reproject primary_key_index st r :
  let st' := hash_step md5 crate reproject primary_key_index st r in
  let salt := unique_salty_id st + 1 in
  let a := attribute_digest md5 primary_key_index r salt in
  let g := geom_digest md5 crate r salt in
  let k := py_str (py_neg_index r primary_key_index) in
  unique_salty_id st' = salt
  ∧ ((skipped crate r = true
      ∧ attribute_hashes st' = attribute_hashes st
      ∧ geometry_hashes st' = geometry_hashes st
      ∧ hs_adds st' = hs_adds st
      ∧ hs_unchanged st' = hs_unchanged st
      ∧ hs_temp st' = hs_temp st)
     ∨ (skipped crate r = false
        ∧ is_new st a g = true
        ∧ attribute_hashes st' = attribute_hashes st
        ∧ geometry_hashes st' = geometry_hashes st
        ∧ hs_adds st' = <[k := (a, g)]> (hs_adds st)
        ∧ hs_unchanged st' = hs_unchanged st
        ∧ hs_temp st' = if reproject
                        then hs_temp st ++ [r ++ [py_neg_index r primary_key_index]]
                        else hs_temp st)
     ∨ (skipped crate r = false
        ∧ is_new st a g = false
        ∧ attribute_hashes st' = delete a (attribute_hashes st)
        ∧ geometry_hashes st' =
            match g with
            | Some g' => delete g' (geometry_hashes st)
            | None => geometry_hashes st
            end
        ∧ hs_adds st' = hs_adds st
        ∧ hs_unchanged st' = <[k := (a, g)]> (hs_unchanged st)
        ∧ hs_temp st' = hs_temp st)).
Proof.
  intros st' salt a g k. subst st'. unfold hash_step.
  fold salt. fold a. fold g. fold k.
  destruct (skipped crate r); simpl; [split; [done|left; done]|].
  destruct (is_new st a g); simpl.
  - split; [done|]. right; left. done.
  - split; [done|]. right; right. done.
Qed.

Lemma hash_loop_cons crate reproject primary_key_index st r rows :
  hash_loop md5 crate reproject primary_key_index st (r :: rows)
  = hash_loop md5 crate reproject primary_key_index
      (hash_step md5 crate reproject primary_key_index st r) rows.
Proof. done. Qed.

Lemma geom_delete_subseteq (g : option string) (m : gmap string string) :
  match g with Some g' => delete g' m | None => m end ⊆ m.
Proof. destruct g; [apply delete_subseteq|done]. Qed.

(** The lookups only lose entries. *)
Lemma hash_loop_lookups_shrink crate reproject primary_key_index rows st :
  let st' := hash_loop md5 crate reproject primary_key_index st rows in
  attribute_hashes st' ⊆ attribute_hashes st
  ∧ geometry_hashes st' ⊆ geometry_hashes st.
Proof.
  revert st. induction rows as [|r rows IH]; intros st; [done|].
  rewrite hash_loop_cons.
  destruct (IH (hash_step md5 crate reproject primary_key_index st r))
    as [Ha Hg].
  destruct (hash_step_cases crate reproject primary_key_index st r)
    as (_ & [(_ & Ea & Eg & _)|[(_ & _ & Ea & Eg & _)|(_ & _ & Ea & Eg & _)]]);
    simpl; rewrite Ea in Ha; rewrite Eg in Hg; split; try done.
  - etrans; [exact Ha|apply delete_subseteq].
  - etrans; [exact Hg|apply geom_delete_subseteq].
Qed.


(** The adds and the unchanged entries come from the stream. *)
Lemma hash_loop_adds_from crate reproject primary_key_index rows st :
  let st' := hash_loop md5 crate reproject primary_key_index st rows in
  let E := stream_entries md5 crate primary_key_index (unique_salty_id st)
             rows in
  (∀ k v, hs_adds st' !! k = Some v → hs_adds st !! k = Some v ∨ (k, v) ∈ E)
  ∧ (∀ k v, hs_unchanged st' !! k = Some v →
            hs_unchanged st !! k = Some v ∨ (k, v) ∈ E)
  ∧ (∀ k, k ∉ E.*1 → hs_adds st' !! k = hs_adds st !! k).
Proof.
  revert st. induction rows as [|r rows IH]; intros st.
  { simpl. split_and!; auto. }
  rewrite hash_loop_cons. simpl.
  set (st1 := hash_step md5 crate reproject primary_key_index st r).
  destruct (IH st1) as (IHa & IHu & IHk). fold st1 in IHa, IHu, IHk.
  destruct (hash_step_cases crate reproject primary_key_index st r)
    as (Hsalt & Hcases). fold st1 in Hsalt, Hcases.
  rewrite Hsalt in IHa, IHu, IHk.
  destruct Hcases as [(Hs & _ & _ & Ea & Eu & _)|[(Hs & _ & _ & _ & Ea & Eu & _)
                                          |(Hs & _ & _ & _ & Ea & Eu & _)]];
    rewrite Hs; simpl.
  - rewrite Ea in IHa, IHk. rewrite Eu in IHu. done.
  - rewrite Eu in IHu. split_and!.
    + intros k v [Hk|Hk]%IHa; [|by right; right].
      rewrite Ea in Hk. apply lookup_insert_Some in Hk as [[<- <-]|[_ Hk]].
      * right; left.
      * by left.
    + intros k v [Hk|Hk]%IHu; [by left|by right; right].
    + intros k Hk. apply not_elem_of_cons in Hk as [Hne Hk].
      rewrite IHk by done. rewrite Ea. by rewrite lookup_insert_ne.
  - rewrite Ea in IHa, IHk. split_and!.
    + intros k v [Hk|Hk]%IHa; [by left|by right; right].
    + intros k v [Hk|Hk]%IHu; [|by right; right].
      rewrite Eu in Hk. apply lookup_insert_Some in Hk as [[<- <-]|[_ Hk]].
      * right; left.
      * by left.
    + intros k Hk. apply not_elem_of_cons in Hk as [Hne Hk]. by apply IHk.
Qed.

Lemma stream_entries_salt_keys crate primary_key_index rows s1 s2 :
  (stream_entries md5 crate primary_key_index s1 rows).*1
  = (stream_entries md5 crate primary_key_index s2 rows).*1.
Proof.
  revert s1 s2. induction rows as [|r rows IH]; intros s1 s2; [done|].
  simpl. rewrite !fmap_app. rewrite (IH (s1 + 1) (s2 + 1)).
  by destruct (skipped crate r).
Qed.



(** With reprojection, every add of the loop has its row in the scratch
    table. *)
Lemma hash_loop_temp crate primary_key_index rows st :
  let st' := hash_loop md5 crate true primary_key_index st rows in
  (∀ t, t ∈ hs_temp st → t ∈ hs_temp st')
  ∧ ∀ k, k ∈ dom (hs_adds st') →
         k ∈ dom (hs_adds st)
         ∨ ∃ r, r ∈ rows ∧ skipped crate r = false
                ∧ py_str (py_neg_index r primary_key_index) = k
                ∧ r ++ [py_neg_index r primary_key_index] ∈ hs_temp st'.
Proof.
  revert st. induction rows as [|r rows IH]; intros st.
  { simpl. split; [done|]. intros k Hk. by left. }
  rewrite hash_loop_cons. simpl.
  set (st1 := hash_step md5 crate true primary_key_index st r).
  destruct (IH st1) as [IHt IHk]. fold st1 in IHt, IHk.
  destruct (hash_step_cases crate true primary_key_index st r)
    as (_ & Hcases). fold st1 in Hcases.
  destruct Hcases as [(_ & _ & _ & Ea & _ & Et)|[(Hs & _ & _ & _ & Ea & _ & Et)
                                          |(_ & _ & _ & _ & Ea & _ & Et)]].
  - rewrite Ea, Et in *. split; [done|].
    intros k [?|(r' & ? & ?)]%IHk; [by left|].
    right. exists r'. split; [by right|done].
  - split.
    + intros t Ht. apply IHt. rewrite Et. apply elem_of_app. by left.
    + intros k [Hk|(r' & ? & ?)]%IHk.
      * rewrite Ea, dom_insert_L in Hk.
        apply elem_of_union in Hk as [Hk|Hk]; [|by left].
        apply elem_of_singleton in Hk as ->. right. exists r.
        split; [left|]. split; [done|]. split; [done|].
        apply IHt. rewrite Et. apply elem_of_app. right. left.
      * right. exists r'. split; [by right|done].
  - rewrite Ea, Et in *. split; [done|].
    intros k [?|(r' & ? & ?)]%IHk; [by left|].
    right. exists r'. split; [by right|done].
Qed.

(** ** The apply phases *)

Lemma inject_ret f w u w' :
  inject f w = (Ret u, w') → f = None ∧ w' = w.
Proof. destruct f; [done|]. by intros [= <-]. Qed.

Lemma open_cursor_ret ds fs w u w' :
  open_cursor ds fs w = (Ret u, w') → cursor_fields_ok ds fs = true ∧ w' = w.
Proof.
  unfold open_cursor. destruct (cursor_fields_ok ds fs); [|done].
  by intros [= <-].
Qed.

Lemma the_destination_ret w d w' :
  the_destination w = (Ret d, w') → w_destination w = Some d ∧ w' = w.
Proof.
  unfold the_destination, bind, get. destruct (w_destination w); [|done].
  by intros [= <- <-].
Qed.

Lemma the_hash_table_ret w h w' :
  the_hash_table w = (Ret h, w') → w_hash_table w = Some h ∧ w' = w.
Proof.
  unfold the_hash_table, bind, get. destruct (w_hash_table w); [|done].
  by intros [= <- <-].
Qed.

Lemma modify_ret f w u w' : modify f w = (Ret u, w') → w' = f w.
Proof. by intros [= <-]. Qed.

Lemma log_ret l fmt args w u w' :
  log l fmt args w = (Ret u, w') → w' = add_log (mkLog l fmt args) w.
Proof. by intros [= <-]. Qed.

Lemma get_ret w a w' : get w = (Ret a, w') → a = w ∧ w' = w.
Proof. by intros [= <- <-]. Qed.

Lemma start_editing_ret w u w' :
  start_editing w = (Ret u, w') →
  w' = set_editor (Editing (w_destination w)) w.
Proof. by intros [= <-]. Qed.

(** One step through a successful sequence of calls. *)
Tactic Notation "step" hyp(H) "as" ident(H1) :=
  apply bind_ret_inv in H as (? & ? & H1 & H);
  first
    [ apply inject_ret in H1 as [H1 ->]
    | apply open_cursor_ret in H1 as [H1 ->]
    | apply the_destination_ret in H1 as [H1 ->]
    | apply the_hash_table_ret in H1 as [H1 ->]
    | apply log_ret in H1 as ->
    | apply start_editing_ret in H1 as ->
    | apply modify_ret in H1 as ->
    | apply get_ret in H1 as [-> ->]
    | idtac ].

Lemma delete_phase_spec fp crate changes w w' d h :
  delete_phase fp crate changes w = (Ret tt, w') →
  w_destination w = Some d →
  w_hash_table w = Some h →
  w_destination w'
  = Some (delete_where d
            (get_deletes_where_clause changes (source_primary_key crate)
               (source_primary_key_type crate)))
  ∧ w_hash_table w' = Some (filter (λ r, h_id r ∉ _deletes changes) h)
  ∧ w_source w' = w_source w
  ∧ w_temp w' = w_temp w
  ∧ w_projected w' = w_projected w
  ∧ cursor_fields_ok d [source_primary_key crate] = true.
Proof.
  intros H Hd Hh. unfold delete_phase in H.
  step H as L1. step H as E1. step H as D1.
  simpl in D1. rewrite Hd in D1. injection D1 as <-.
  step H as C1. step H as M1. step H as F1. unfold stop_editing in H.
  step H as E2. step H as T1.
  simpl in T1. rewrite Hh in T1. injection T1 as <-.
  step H as F2. apply modify_ret in H as ->. done.
Qed.

Lemma insert_row_spec d fields t :
  let d' := (insert_row d fields t).1 in
  ds_fields d' = ds_fields d
  ∧ ds_oid_field d' = ds_oid_field d
  ∧ ds_next_oid d' = ds_next_oid d + 1
  ∧ (insert_row d fields t).2 = ds_next_oid d
  ∧ ∃ rec, ds_rows d' = ds_rows d ++ [rec] ∧ rec_oid rec = ds_next_oid d.
Proof. simpl. split_and!; try done. eauto. Qed.

Lemma add_loop_spec crate changes fields rows w w' d h :
  add_loop crate changes fields rows w = (Ret tt, w') →
  w_destination w = Some d →
  w_hash_table w = Some h →
  ∃ d' recs news,
    w_destination w' = Some d'
    ∧ w_hash_table w' = Some (h ++ news)
    ∧ w_source w' = w_source w
    ∧ ds_fields d' = ds_fields d
    ∧ ds_oid_field d' = ds_oid_field d
    ∧ ds_next_oid d ≤ ds_next_oid d'
    ∧ ds_rows d' = ds_rows d ++ recs
    ∧ (∀ rec, rec ∈ recs → ds_next_oid d ≤ rec_oid rec)
    ∧ (∀ x, x ∈ news →
         (∃ z, ds_next_oid d ≤ z ∧ h_id x = pretty z)
         ∧ ∃ r digs, r ∈ rows ∧ digests_of changes r = Some digs
                     ∧ h_att x = Some digs.1 ∧ h_geom x = digs.2)
    ∧ (∀ r, r ∈ rows → inserted crate r →
         ∃ x digs, x ∈ news ∧ digests_of changes r = Some digs
                   ∧ h_att x = Some digs.1 ∧ h_geom x = digs.2).
Proof.
  revert w d h. induction rows as [|r rows IH]; intros w d h H Hd Hh.
  { injection H as <-. exists d, [], []. rewrite !app_nil_r.
    split_and!; try done; try lia.
    - intros rec Hr. by apply elem_of_nil in Hr.
    - intros x Hx. by apply elem_of_nil in Hx.
    - intros x Hx. by apply elem_of_nil in Hx. }
  simpl in H.
  destruct (negb (is_table crate) && bool_decide (py_neg_index r 2 = VNone))
    eqn:Hskip.
  - destruct (IH w d h H Hd Hh) as (d' & recs & news & H1 & H2 & H3 & H4 & H5
      & H6 & H7 & H8 & H9 & H10).
    exists d', recs, news. split_and!; try done.
    + intros x Hx. destruct (H9 x Hx) as (Hz & r' & digs & Hr' & Hrest).
      split; [done|]. exists r', digs. split; [by right|done].
    + intros r' [->|Hr']%elem_of_cons Hins; [|by apply H10].
      apply andb_true_iff in Hskip as [Ht Hn].
      apply negb_true_iff in Ht. apply bool_decide_eq_true in Hn.
      destruct Hins; congruence.
  - step H as D1. rewrite Hd in D1. injection D1 as <-.
    unfold insert_row in H. cbv zeta iota beta in H.
    step H as M1. step H as G1.
    set (key := py_str (py_neg_index r 1)) in *.
    match type of G1 with _ ?w0 = (Ret ?v, ?w1) =>
      assert (digests_of changes r = Some v ∧ w1 = w0) as [Hdigs ->]
    end.
    { unfold digests_of. fold key.
      destruct (adds changes !! key) as [y|]; [by injection G1 as -> ->|].
      destruct (unchanged changes !! key) as [y|];
        [by injection G1 as -> ->|done]. }
    clear G1. step H as T1.
    simpl in T1. rewrite Hh in T1. injection T1 as <-.
    step H as M2.
    match type of Hdigs with _ = Some ?v => rename v into digs end.
    set (d1 := mkDataset (ds_fields d) (ds_oid_field d) _ _) in H.
    set (hr := mkHashRow (pretty (ds_next_oid d)) (Some digs.1) digs.2) in H.
    apply IH with (d := d1) (h := h ++ [hr]) in H; [|done..].
    destruct H as (d' & recs & news & H1 & H2 & H3 & H4 & H5
      & H6 & H7 & H8 & H9 & H10). simpl in *.
    exists d', (mkRecord (ds_next_oid d) (insert_attrs d fields (py_neg_slice r 1))
                  (insert_shape fields (py_neg_slice r 1)) :: recs),
      (hr :: news).
    rewrite <-!app_assoc in H2, H7. simpl in H2, H7.
    split_and!; try done; try lia.
    + intros rec [->|Hr]%elem_of_cons; simpl; [lia|].
      specialize (H8 rec Hr). lia.
    + intros y [->|Hy]%elem_of_cons.
      * split; [exists (ds_next_oid d); split; [lia|done]|].
        exists r, digs. split; [left|done].
      * destruct (H9 y Hy) as ((z & Hz & Hid) & r' & digs' & Hr' & Hrest).
        split; [exists z; split; [lia|done]|].
        exists r', digs'. split; [by right|done].
    + intros r' [->|Hr']%elem_of_cons Hins.
      * exists hr, digs. split; [left|done].
      * destruct (H10 r' Hr' Hins) as (y & digs' & Hy & Hrest).
        exists y, digs'. split; [by right|done].
Qed.

Lemma add_loop_added crate changes fields rows w w' d h :
  add_loop crate changes fields rows w = (Ret tt, w') →
  w_destination w = Some d →
  w_hash_table w = Some h →
  ∃ d' news,
    w_destination w' = Some d'
    ∧ w_hash_table w' = Some (h ++ news)
    ∧ w_source w' = w_source w
    ∧ added crate changes rows d d' news.
Proof.
  intros H Hd Hh.
  destruct (add_loop_spec _ _ _ _ _ _ _ _ H Hd Hh)
    as (d' & recs & news & H1 & H2 & H3 & H4 & H5 & H6 & H7 & H8 & H9 & H10).
  exists d', news. unfold added. split_and!; try done. eauto.
Qed.

Lemma add_rows_ret wr t cf clause ws rows ws' :
  add_rows wr t cf clause ws = (Ret rows, ws') →
  ws' = ws
  ∧ match t with
    | TSource =>
        if cursor_fields_ok (w_source wr) cf
        then Some (map (read_row (w_source wr) cf)
                     (filter (λ r, eval_where (w_source wr) clause r = true)
                             (ds_rows (w_source wr))))
        else None
    | TTemp => filter (λ r, eval_where_row cf clause r = true) <$> w_temp wr
    | TProjected =>
        filter (λ r, eval_where_row cf clause r = true) <$> w_projected wr
    end = Some rows.
Proof.
  unfold add_rows. destruct t.
  - intros H. step H as C1. injection H as <- <-. by rewrite C1.
  - destruct (w_temp wr); [|done]. by intros [= <- <-].
  - destruct (w_projected wr); [|done]. by intros [= <- <-].
Qed.

Lemma add_phase_spec fp crate changes w w' d h :
  add_phase fp crate changes w = (Ret tt, w') →
  w_destination w = Some d →
  w_hash_table w = Some h →
  ∃ rows d' news,
    add_cursor_rows crate changes (w_source w) (w_temp w) (w_projected w)
    = Some rows
    ∧ w_destination w' = Some d'
    ∧ w_hash_table w' = Some (h ++ news)
    ∧ w_source w' = w_source w
    ∧ added crate changes rows d d' news.
Proof.
  intros H Hd Hh. unfold add_phase in H.
  step H as L1. step H as T1.
  match type of T1 with _ ?w0 = (Ret ?t, ?w1) =>
    assert (w_destination w1 = Some d ∧ w_hash_table w1 = Some h
            ∧ w_source w1 = w_source w
            ∧ w_temp w1 = w_temp w
            ∧ if needs_reproject crate
              then t = TProjected
                   ∧ w_projected w1 = map (project_row crate) <$> w_temp w
              else t = table changes ∧ w_projected w1 = w_projected w)
      as (Hd1 & Hh1 & Hs1 & Ht1 & Hp1)
  end.
  { destruct (needs_reproject crate).
    - step T1 as G1. simpl in T1.
      destruct (w_temp w) as [temp|] eqn:Htemp; [|done].
      step T1 as M1. injection T1 as <- <-. simpl. by rewrite Htemp.
    - injection T1 as <- <-. done. }
  clear T1. step H as L2. step H as E1. step H as L3.
  cbv zeta in H. step H as G1. step H as R1.
  apply add_rows_ret in R1 as [-> R1]. simpl in R1.
  rewrite Hs1, Ht1 in R1.
  step H as D1. simpl in D1. rewrite Hd1 in D1. injection D1 as <-.
  step H as C1. step H as T1. step H as A1.
  match type of A1 with _ = (Ret ?u, _) => destruct u end.
  apply add_loop_added with (d := d) (h := h) in A1; [|done..].
  destruct A1 as (d' & news & Hd' & Hh' & Hs' & Hadded).
  match type of Hadded with added _ _ ?rows _ _ _ => exists rows, d', news end.
  split.
  { unfold add_cursor_rows. destruct (needs_reproject crate).
    - destruct Hp1 as [-> Hp1]. rewrite Hp1 in R1.
      destruct (w_temp w); [|done]. simpl in *. done.
    - destruct Hp1 as [-> Hp1]. rewrite Hp1 in R1. done. }
  step H as F1. step H as L4. unfold stop_editing in H. step H as E2.
  match type of H with _ ?w8 = _ =>
    assert (w_destination w' = w_destination w8
            ∧ w_hash_table w' = w_hash_table w8
            ∧ w_source w' = w_source w8) as (-> & -> & ->)
  end.
  { match type of H with (match ?t with _ => _ end) _ = _ => destruct t end.
    - by injection H as <-.
    - by injection H as <-.
    - step H as L5. by apply modify_ret in H as ->. }
  simpl. rewrite Hd', Hh', Hs'. simpl. rewrite Hs1. done.
Qed.

(** ** A successful run, stage by stage *)


Lemma synchronise_spec fp crate st0 w r w' d h :
  synchronise md5 fp crate st0 w = (Ret r, w') →
  w_destination w = Some d →
  w_hash_table w = Some h →
  let changes := changes_of md5 crate (w_source w) d h in
  let temp :=
    if needs_reproject crate
    then Some (hs_temp (hash_run md5 crate true (w_source w) d
                          (hash_lookups h)))
    else w_temp w in
  ∃ d1 h1 d' h',
    cursor_fields_ok (w_source w) (hash_fields crate (w_source w) d).1 = true
    ∧ (if has_deletes changes
       then d1 = delete_where d
                   (get_deletes_where_clause changes
                      (source_primary_key crate)
                      (source_primary_key_type crate))
            ∧ h1 = filter (λ x, h_id x ∉ _deletes changes) h
       else d1 = d ∧ h1 = h)
    ∧ (if has_adds changes
       then ∃ rows news,
              add_cursor_rows crate changes (w_source w) temp (w_projected w)
              = Some rows
              ∧ h' = h1 ++ news
              ∧ added crate changes rows d1 d' news
       else d' = d1 ∧ h' = h1)
    ∧ w_destination w' = Some d'
    ∧ w_hash_table w' = Some h'
    ∧ w_source w' = w_source w
    ∧ r = ((if has_adds changes then bump else id)
             ((if has_deletes changes then bump else id) st0), None).
Proof.
  intros H Hd Hh changes temp. unfold synchronise in H.
  apply bind_ret_inv in H as (ch & w0 & X1 & H).
  destruct (hash_computes fp crate (needs_reproject crate) w d h Hd Hh)
    as (r0 & w0' & Hr & Hd0 & Hh0 & Hs0 & _ & Hp0 & Hcases).
  rewrite Hr in X1. injection X1 as E1 E2. subst r0 w0'.
  destruct Hcases as [(e & ? & _)|(Hc & _ & Hok & Ht0)]; [done|].
  injection Hc as Hc. fold (changes_of md5 crate (w_source w) d h) in Hc.
  fold changes in Hc. subst ch.
  assert (w_temp w0 = temp) as Htemp.
  { subst temp. by destruct (needs_reproject crate). }
  clear Ht0. apply bind_ret_inv in H as (u & x0 & X2 & H).
  assert (w_destination x0 = Some d ∧ w_hash_table x0 = Some h
          ∧ w_source x0 = w_source w ∧ w_temp x0 = temp
          ∧ w_projected x0 = w_projected w) as (Hd2 & Hh2 & Hs2 & Ht2 & Hp2).
  { destruct (negb (has_changes changes)).
    - apply log_ret in X2 as ->. simpl. by rewrite Hs0, Hp0.
    - injection X2 as _ <-. by rewrite Hs0, Hp0. }
  clear X2. step H as X3. step H as X4. injection H as <- <-.
  destruct (has_deletes changes) eqn:Hdel.
  - step X3 as P1. injection X3 as <- <-.
    match type of P1 with _ = (Ret ?u, _) => destruct u end.
    destruct (delete_phase_spec _ _ _ _ _ _ _ P1 Hd2 Hh2)
      as (Hd3 & Hh3 & Hs3 & Ht3 & Hp3 & _).
    destruct (has_adds changes) eqn:Hadd.
    + step X4 as P2. injection X4 as <- <-.
      match type of P2 with _ = (Ret ?u, _) => destruct u end.
      destruct (add_phase_spec _ _ _ _ _ _ _ P2 Hd3 Hh3)
        as (rows & d' & news & Hrows & Hd4 & Hh4 & Hs4 & Hadded).
      rewrite Hs3, Hs2, Ht3, Ht2, Hp3, Hp2 in Hrows.
      eexists _, _, d', _. split; [done|]. split; [done|].
      split; [by exists rows, news|].
      rewrite Hd4, Hh4, Hs4, Hs3, Hs2. done.
    + injection X4 as <- <-.
      eexists _, _, _, _. split; [done|]. split; [done|].
      split; [done|]. rewrite Hd3, Hh3, Hs3, Hs2. done.
  - injection X3 as <- <-.
    destruct (has_adds changes) eqn:Hadd.
    + step X4 as P2. injection X4 as <- <-.
      match type of P2 with _ = (Ret ?u, _) => destruct u end.
      destruct (add_phase_spec _ _ _ _ _ _ _ P2 Hd2 Hh2)
        as (rows & d' & news & Hrows & Hd4 & Hh4 & Hs4 & Hadded).
      rewrite Hs2, Ht2, Hp2 in Hrows.
      eexists _, _, d', _. split; [done|]. split; [done|].
      split; [by exists rows, news|].
      rewrite Hd4, Hh4, Hs4, Hs2. done.
    + injection X4 as <- <-.
      eexists _, _, _, _. split; [done|]. split; [done|].
      split; [done|]. rewrite Hd2, Hh2, Hs2. done.
Qed.

Lemma update_success fp crate validate_crate w d st w' :
  w_destination w = Some d →
  update md5 fp crate validate_crate w = (Ret (st, None), w') →
  ∃ w1 w2,
    validate fp crate validate_crate (enter crate w) = (Ret tt, w1)
    ∧ synchronise md5 fp crate NO_CHANGES w1 = (Ret (st, None), w2)
    ∧ w' = set_env None w2
    ∧ w_destination w1 = Some d
    ∧ w_hash_table w1 = w_hash_table w
    ∧ w_source w1 = w_source w
    ∧ w_temp w1 = w_temp w
    ∧ w_projected w1 = w_projected w.
Proof.
  intros Hd Hu.
  destruct (update_body md5 fp crate validate_crate (enter crate w))
    as [[r|e] w2] eqn:Hb.
  - rewrite (update_body_returns _ _ _ _ _ _ Hb) in Hu.
    injection Hu as -> <-. unfold update_body in Hb.
    apply bind_ret_inv in Hb as (st0 & w0 & He & Hb).
    rewrite (ensure_destination_exists fp crate (enter crate w) d) in He
      by done. injection He as <- <-.
    apply bind_ret_inv in Hb as (inv & w1 & Hv & Hb).
    destruct inv as [m|]; [done|].
    pose proof (validate_frame fp crate validate_crate (enter crate w))
      as (F1 & F2 & F3 & F4 & F5).
    unfold validation, try_except, bind in Hv.
    destruct (validate fp crate validate_crate (enter crate w))
      as [[[]|[m|m]] w1'] eqn:Hval; simpl in *; [|done..].
    injection Hv as Hv. subst w1'. exists w1, w2.
    rewrite F1, Hd. split_and!; done.
  - pose proof (update_body_raises _ _ _ _ _ _ Hb) as Hr.
    rewrite Hu in Hr. done.
Qed.

(** ** Deletes *)




(** ** Rows of the source cursor and of the add cursor *)

Lemma py_neg_index_last (l : row) x : py_neg_index (l ++ [x]) 1 = x.
Proof.
  unfold py_neg_index. rewrite length_app.
  replace (length l + length [x] - 1)%nat with (length l) by (simpl; lia).
  by rewrite list_lookup_middle.
Qed.

Lemma py_neg_index_last_but_one (l : row) x y :
  py_neg_index (l ++ [x; y]) 2 = x.
Proof.
  unfold py_neg_index. rewrite length_app.
  replace (length l + length [x; y] - 2)%nat with (length l)
    by (simpl; lia).
  by rewrite list_lookup_middle.
Qed.

Lemma py_neg_index_middle (l : row) x y z :
  py_neg_index (l ++ [x; y; z]) 2 = y.
Proof.
  replace (l ++ [x; y; z]) with ((l ++ [x]) ++ [y; z])
    by (by rewrite <-app_assoc).
  apply py_neg_index_last_but_one.
Qed.

Lemma hash_fields_shape crate src d :
  ∃ ff, hash_fields crate src d
        = (ff ++ source_primary_key crate
              :: (if is_table crate then [] else [shape_token]),
           if is_table crate then 1%nat else 2%nat).
Proof.
  unfold hash_fields, _filter_fields.
  destruct (is_table crate); simpl; eexists; [done|].
  by rewrite <-app_assoc.
Qed.

Lemma read_row_app src f1 f2 rec :
  read_row src (f1 ++ f2) rec = read_row src f1 rec ++ read_row src f2 rec.
Proof. unfold read_row. by rewrite map_app. Qed.

Lemma shape_token_read src rec :
  read_field src rec shape_token = shape_value (rec_shape rec).
Proof. done. Qed.

Lemma shape_object_read src rec :
  read_field src rec "SHAPE@" = shape_value (rec_shape rec).
Proof. done. Qed.

(** The key and the geometry of the row the source cursor yields for a
    record. *)
Lemma stream_row_key crate src d rec :
  let r := read_row src (hash_fields crate src d).1 rec in
  py_neg_index r (hash_fields crate src d).2
  = read_field src rec (source_primary_key crate)
  ∧ (skipped crate r = false ↔
     is_table crate = true ∨ shape_value (rec_shape rec) ≠ VNone).
Proof.
  destruct (hash_fields_shape crate src d) as [ff ->]. simpl.
  unfold skipped. destruct (is_table crate); simpl.
  - rewrite read_row_app. simpl. rewrite py_neg_index_last.
    split; [done|]. split; [by left|done].
  - rewrite read_row_app. simpl. rewrite py_neg_index_last_but_one.
    split; [done|].
    replace (read_row src ff rec
             ++ [read_field src rec (source_primary_key crate);
                 read_field src rec shape_token])
      with ((read_row src ff rec
             ++ [read_field src rec (source_primary_key crate)])
            ++ [read_field src rec shape_token])
      by (by rewrite <-app_assoc).
    rewrite py_neg_index_last, shape_token_read, bool_decide_eq_false.
    split; [by right|]. by intros [?|?].
Qed.

Lemma stream_row_record crate src fields r :
  r ∈ source_stream crate src fields →
  ∃ rec, rec ∈ ds_rows src ∧ r = read_row src fields rec.
Proof.
  unfold source_stream. intros Hr.
  apply list_elem_of_fmap in Hr as (rec & -> & Hrec).
  rewrite merge_sort_Permutation in Hrec. eauto.
Qed.

Lemma stream_entries_elem crate primary_key_index rows salt k v :
  (k, v) ∈ stream_entries md5 crate primary_key_index salt rows →
  ∃ r, r ∈ rows ∧ skipped crate r = false
       ∧ py_str (py_neg_index r primary_key_index) = k.
Proof.
  revert salt. induction rows as [|r rows IH]; intros salt; simpl.
  { intros H. by apply elem_of_nil in H. }
  intros [Hin|Hin]%elem_of_app.
  - destruct (skipped crate r) eqn:Hs; [by apply elem_of_nil in Hin|].
    apply list_elem_of_singleton in Hin as [= -> _].
    exists r. split; [left|done].
  - destruct (IH _ Hin) as (r' & ? & ?). exists r'. split; [by right|done].
Qed.

Lemma add_fields_changes crate src d h :
  (is_table crate = true → needs_reproject crate = false) →
  ∃ ff,
    (hash_fields crate src d).1
    = ff ++ source_primary_key crate
         :: (if is_table crate then [] else [shape_token])
    ∧ add_fields crate (changes_of md5 crate src d h)
      = ff ++ source_primary_key crate
           :: (if is_table crate then [] else ["SHAPE@"])
           ++ [if needs_reproject crate then src_id_field
               else source_primary_key crate].
Proof.
  intros Hwf. destruct (hash_fields_shape crate src d) as [ff Hff].
  exists ff. rewrite Hff. split; [done|].
  unfold add_fields, changes_of. simpl. rewrite Hff. simpl.
  destruct (is_table crate) eqn:Ht; simpl.
  - rewrite Hwf by done. by rewrite <-app_assoc.
  - set (pk := source_primary_key crate).
    assert (∀ z, <[(length (ff ++ [pk; shape_token; z]) - 2)%nat :=
                   rstrip (default "" ((ff ++ [pk; shape_token; z])
                      !! (length (ff ++ [pk; shape_token; z]) - 2)%nat))
                     "WKT"]> (ff ++ [pk; shape_token; z])
                = ff ++ [pk; "SHAPE@"; z]) as Hins.
    { intros z.
      replace (length (ff ++ [pk; shape_token; z]) - 2)%nat
        with (length ff + 1)%nat by (rewrite length_app; simpl; lia).
      rewrite insert_app_r, lookup_app_r by lia.
      replace (length ff + 1 - length ff)%nat with 1%nat by lia. done. }
    destruct (needs_reproject crate).
    + unfold set_last. rewrite <-app_assoc. simpl.
      replace (length (ff ++ [pk; shape_token; pk]) - 1)%nat
        with (length ff + 2)%nat by (rewrite length_app; simpl; lia).
      rewrite insert_app_r. simpl. apply Hins.
    + rewrite <-app_assoc. simpl. apply Hins.
Qed.

(** Every add has a row of the add cursor that the add loop inserts. *)
Lemma add_rows_cover crate src d h temp projected rows k :
  (is_table crate = true → needs_reproject crate = false) →
  let changes := changes_of md5 crate src d h in
  add_cursor_rows crate changes src
    (if needs_reproject crate
     then Some (hs_temp (hash_run md5 crate true src d (hash_lookups h)))
     else temp) projected = Some rows →
  k ∈ dom (adds changes) →
  ∃ r, r ∈ rows ∧ py_str (py_neg_index r 1) = k ∧ inserted crate r.
Proof.
  intros Hwf changes Hrows Hk.
  destruct (add_fields_changes crate src d h Hwf) as (ff & Hff & Hcf).
  fold changes in Hcf. unfold add_cursor_rows in Hrows. rewrite Hcf in Hrows.
  set (g := read_field src) in *.
  set (pk := source_primary_key crate) in *.
  destruct (needs_reproject crate) eqn:Hrp.
  - (* the rows come from the reprojected scratch table *)
    assert (is_table crate = false) as Ht.
    { destruct (is_table crate); [|done]. by specialize (Hwf eq_refl). }
    rewrite Ht in Hcf, Hrows, Hff. simpl in Hrows. injection Hrows as <-.
    pose proof (hash_loop_temp crate (hash_fields crate src d).2
      (source_stream crate src (hash_fields crate src d).1)
      (hash_init (hash_lookups h))) as [_ Htemp].
    destruct (Htemp k) as [Hk0|(r0 & Hr0 & Hs0 & Hkey & Hin)].
    { unfold changes, changes_of in Hk. simpl in Hk. by rewrite Hrp in Hk. }
    { simpl in Hk0. by apply not_elem_of_empty in Hk0. }
    destruct (stream_row_record _ _ _ _ Hr0) as (rec & Hrec & ->).
    pose proof (stream_row_key crate src d rec) as [Hkv Hskip].
    simpl in Hkv, Hskip. rewrite Hkv in Hkey, Hin.
    apply Hskip in Hs0 as [?|Hshape]; [congruence|].
    fold g pk in Hin, Hkey.
    set (t := map (g rec) (ff ++ [pk])
              ++ [shape_value (rec_shape rec); g rec pk]).
    assert (read_row src (hash_fields crate src d).1 rec ++ [g rec pk] = t)
      as Hrow.
    { rewrite Hff. unfold read_row, t. rewrite !map_app. simpl.
      by rewrite <-!app_assoc. }
    rewrite Hrow in Hin.
    set (sh := (λ v, match v with
                     | VStr wkt => VStr (project crate wkt)
                     | _ => v
                     end) (shape_value (rec_shape rec))).
    assert (project_row crate t
            = map (g rec) (ff ++ [pk]) ++ [sh; g rec pk]) as Hproj.
    { unfold project_row, t.
      replace (length (map (g rec) (ff ++ [pk])
                       ++ [shape_value (rec_shape rec); g rec pk]) - 2)%nat
        with (length (map (g rec) (ff ++ [pk])) + 0)%nat
        by (rewrite length_app; simpl; lia).
      rewrite alter_app_r. reflexivity. }
    exists (project_row crate t). split; [|split].
    + apply list_elem_of_filter. split.
      2:{ apply list_elem_of_fmap. by exists t. }
      unfold eval_where_row. simpl.
      destruct (list_find (λ f, f = pk)
                  (ff ++ [pk; "SHAPE@"; src_id_field])) as [[i f]|] eqn:Hfind.
      2:{ apply list_find_None in Hfind.
          rewrite Forall_app, Forall_cons in Hfind.
          by destruct Hfind as (_ & ? & _). }
      apply list_find_Some in Hfind as (Hi & -> & Hmin).
      assert (i < length (ff ++ [pk]))%nat as Hlt.
      { destruct (decide (i < length (ff ++ [pk]))%nat); [done|].
        exfalso. apply (Hmin (length ff) pk); [|rewrite length_app in *;
          simpl in *; lia|done].
        by rewrite list_lookup_middle. }
      replace (ff ++ [pk; "SHAPE@"; src_id_field])
        with ((ff ++ [pk]) ++ ["SHAPE@"; src_id_field]) in Hi
        by (by rewrite <-app_assoc).
      rewrite lookup_app_l in Hi by done.
      rewrite Hproj, lookup_app_l by (by rewrite length_map).
      rewrite list_lookup_fmap, Hi. simpl.
      apply bool_decide_eq_true. by rewrite Hkey.
    + rewrite Hproj.
      replace (map (g rec) (ff ++ [pk]) ++ [sh; g rec pk])
        with ((map (g rec) (ff ++ [pk]) ++ [sh]) ++ [g rec pk])
        by (by rewrite <-app_assoc).
      by rewrite py_neg_index_last.
    + right. rewrite Hproj, py_neg_index_last_but_one.
      subst sh. by destruct (shape_value (rec_shape rec)).
  - (* the rows come from the source *)
    assert (table changes = TSource) as Htab.
    { unfold changes, changes_of. simpl. by rewrite Hrp. }
    rewrite Htab in Hrows.
    destruct (cursor_fields_ok src _); [|done]. injection Hrows as <-.
    pose proof (hash_loop_adds_from crate false (hash_fields crate src d).2
      (source_stream crate src (hash_fields crate src d).1)
      (hash_init (hash_lookups h))) as (Hadds & _ & _).
    apply elem_of_dom in Hk as [v Hv].
    destruct (Hadds k v) as [Hk0|Hin].
    { unfold changes, changes_of in Hv. simpl in Hv. by rewrite Hrp in Hv. }
    { done. }
    apply stream_entries_elem in Hin as (r0 & Hr0 & Hs0 & Hkey).
    destruct (stream_row_record _ _ _ _ Hr0) as (rec & Hrec & ->).
    pose proof (stream_row_key crate src d rec) as [Hkv Hskip].
    simpl in Hkv, Hskip. rewrite Hkv in Hkey. fold g pk in Hkey.
    apply Hskip in Hs0.
    exists (read_row src (ff ++ pk :: (if is_table crate then []
                                      else ["SHAPE@"]) ++ [pk]) rec).
    split; [|split].
    + apply list_elem_of_fmap. exists rec. split; [done|].
      apply list_elem_of_filter. split; [|done].
      unfold eval_where. simpl. fold g pk. apply bool_decide_eq_true.
      rewrite Hkey. apply elem_of_dom. eauto.
    + replace (ff ++ pk :: (if is_table crate then [] else ["SHAPE@"])
                 ++ [pk])
        with ((ff ++ pk :: (if is_table crate then [] else ["SHAPE@"]))
              ++ [pk]) by (by rewrite <-app_assoc).
      rewrite read_row_app. simpl. by rewrite py_neg_index_last.
    + unfold inserted. destruct (is_table crate) eqn:Ht; [by left|].
      destruct Hs0 as [?|Hshape]; [done|]. right.
      rewrite read_row_app. simpl. by rewrite py_neg_index_middle.
Qed.

(** ** Idempotence *)











End Properties.

(** * Examples *)


(** Town 1 is as the hash table has it: it is classified as unchanged and
    its digest leaves the lookup. *)
Lemma town_1_is_unchanged :
  let st := hash_step sample_md5 towns false 1
              (hash_init (hash_lookups towns_hashes)) (town_row 1 "a" 10) in
  skipped towns (town_row 1 "a" 10) = false
  ∧ hs_unchanged st = {["1" := ("(u'a', 10)1", None)]}
  ∧ hs_adds st = ∅
  ∧ attribute_hashes st = {["(u'b', 20)2" := "2"]}.
Proof.
  split; [reflexivity|].
  destruct (hash_step_classification sample_md5 towns false 1
              (hash_init (hash_lookups towns_hashes)) (town_row 1 "a" 10)
              eq_refl) as [_ H].
  destruct H as (Hu & Ha & Hl & _).
  - intros [H | (g & H & _)]; vm_compute in H; discriminate H.
  - vm_compute in Hu, Ha, Hl |- *. exact (conj Hu (conj Ha Hl)).
Defined.

(** A record of [wells] without geometry is skipped by the loop of
    [_hash]: nothing is recorded, the count stays, a warning is logged. *)
Lemma well_without_shape_is_skipped :
  let st := hash_step sample_md5 wells false 2 (hash_init (∅, ∅))
              well_without_shape in
  is_table wells = false
  ∧ hs_adds st = ∅
  ∧ hs_unchanged st = ∅
  ∧ hs_total_rows st = 0
  ∧ hs_log st = [mkLog WARN "Empty geometry found in %s: %s" ["FID"; "2"]].
Proof.
  split; [reflexivity|].
  destruct (null_geometry_skip sample_md5 wells eq_refl) as (H & _ & _).
  rewrite (H false 2%nat (hash_init (∅, ∅)) well_without_shape eq_refl).
  repeat split.
Defined.

(** Town 2 is read second: its digest is that of its name and population
    combined with 2, and only a record read second with the same rendering
    has that digest. *)
Lemma town_2_is_salted_with_2 :
  let st := hash_loop sample_md5 towns false 1
              (hash_init (hash_lookups towns_hashes))
              [town_row 1 "a" 10; town_row 2 "b2" 20] in
  skipped towns (town_row 2 "b2" 20) = false
  ∧ hs_adds st !! "2" = Some ("(u'b2', 20)2", None)
  ∧ ∀ (pre' : list row) r',
      attribute_digest sample_md5 1 r' (Z.of_nat (length pre') + 1)
      = "(u'b2', 20)2" →
      tuple_str (py_neg_slice r' 1) = "(u'b2', 20)"
      ∧ length pre' = 1%nat.
Proof.
  split; [reflexivity|].
  destruct (digest_salted_by_position sample_md5 towns false 1
              (hash_lookups towns_hashes) [town_row 1 "a" 10]
              (town_row 2 "b2" 20) eq_refl) as (_ & H2 & H3).
  split.
  - destruct H2 as [H | H]; vm_compute in H |- *; [exact H | discriminate H].
  - intros pre' r' E. exact (H3 (λ x y e, e) pre' r' E).
Defined.


(** The destination of [towns_widened] declares [EXTRA], which the source
    lacks: [update] returns [INVALID_DATA] and changes neither the
    destination nor the hash table. *)
Lemma widened_towns_are_rejected :
  is_Some (w_destination towns_widened)
  ∧ ∃ m w', update sample_md5 no_faults towns use_default towns_widened
            = (Ret (INVALID_DATA, Some m), w')
            ∧ w_destination w' = w_destination towns_widened
            ∧ w_hash_table w' = w_hash_table towns_widened.
Proof.
  split; [by eexists|].
  destruct (invalid_schema_blocks_update sample_md5 no_faults towns
              use_default towns_widened _ eq_refl) as [_ H].
  apply (H (mkField "EXTRA" "String" 10)); try reflexivity.
  apply elem_of_app; right. apply list_elem_of_here.
Defined.

(** [towns_fresh] has no destination: [update] creates it and returns
    [CREATED]. *)
Lemma fresh_towns_are_created :
  w_destination towns_fresh = None
  ∧ (update sample_md5 no_faults towns use_default towns_fresh).1
    = Ret (CREATED, None).
Proof.
  split; [reflexivity|].
  destruct (update_creates_destination sample_md5 no_faults towns
              use_default towns_fresh eq_refl) as (_ & H & _).
  set (w0 := enter towns towns_fresh) in H.
  set (e := ensure_destination no_faults towns w0).
  set (v := validate no_faults towns use_default e.2).
  set (s := synchronise sample_md5 no_faults towns CREATED v.2).
  rewrite (H CREATED e.2 v.2 (CREATED, None) s.2); [reflexivity | | |];
    vm_compute; reflexivity.
Defined.

(** On [towns_widened] the schema check raises, with the missing field in
    its message. *)
Lemma widened_towns_fail_the_check :
  f_schema no_faults = None
  ∧ is_Some (w_destination towns_widened)
  ∧ (check_schema no_faults towns towns_widened).1
    = Raise (ValidationException "Missing fields in src.gdb/towns: EXTRA").
Proof.
  split; [reflexivity|]. split; [by eexists|].
  destruct (check_schema_collects no_faults towns towns_widened _
              eq_refl eq_refl) as (_ & _ & H & _).
  rewrite H; [reflexivity|].
  vm_compute. discriminate.
Defined.



(** An insert that fails while the edit session is open, the abort of the
    session failing too: [update] returns [UNHANDLED_EXCEPTION] with the
    message of the first fault, and the second is discarded. *)
Lemma failed_insert_is_unhandled :
  let fp := mkFaults None None None None None
              (Some (PyException "insert failed"))
              (Some (PyException "abort failed")) in
  (update_body sample_md5 fp towns use_default (enter towns towns_world)).1
  = Raise (PyException "insert failed")
  ∧ (update sample_md5 fp towns use_default towns_world).1
    = Ret (UNHANDLED_EXCEPTION, Some "insert failed").
Proof.
  intros fp.
  assert (Hb : update_body sample_md5 fp towns use_default
                 (enter towns towns_world)
               = (Raise (PyException "insert failed"),
                  (update_body sample_md5 fp towns use_default
                     (enter towns towns_world)).2))
    by (vm_compute; reflexivity).
  split; [rewrite Hb; reflexivity|].
  destruct (update_never_raises sample_md5 fp towns use_default towns_world)
    as (_ & H & _).
  exact (H _ _ Hb).
Defined.

(** ** Runs on which a property of the specification fails *)

(** A [ValidationException] raised during validation is not returned as
    [UNHANDLED_EXCEPTION]: on [towns_widened] the default schema check
    raises one, and [update] returns [INVALID_DATA]. *)
Lemma validation_fault_is_not_unhandled :
  let m := "Missing fields in src.gdb/towns: EXTRA" in
  (validate no_faults towns use_default (enter towns towns_widened)).1
  = Raise (ValidationException m)
  ∧ (update sample_md5 no_faults towns use_default towns_widened).1
    = Ret (INVALID_DATA, Some m)
  ∧ (update sample_md5 no_faults towns use_default towns_widened).1
    ≠ Ret (UNHANDLED_EXCEPTION, Some m).
Proof.
  repeat split; [vm_compute; reflexivity ..|].
  vm_compute. discriminate.
Qed.


(** Nor does it when two records of the source share their key: both runs
    on [codes_world] succeed, the second returns [UPDATED] again and adds
    the two records once more. *)
Lemma repeated_key_is_added_again :
  let first := update sample_md5 no_faults codes use_default codes_world in
  let second := update sample_md5 no_faults codes use_default first.2 in
  first.1 = Ret (UPDATED, None)
  ∧ second.1 = Ret (UPDATED, None)
  ∧ (λ h : list hash_row, h_id <$> h) <$> w_hash_table first.2 = Some ["1"; "2"]
  ∧ (λ h : list hash_row, h_id <$> h) <$> w_hash_table second.2 = Some ["1"; "2"; "3"; "4"].
Proof. repeat split; vm_compute; reflexivity. Qed.


(** When the destination is absent the stale hash table is dropped and
    the identifiers start again: identifier 2 of [towns_stale], whose
    digest is that of no record of the source, names after the run a record
    of the created destination and a row of the new hash table. *)
Lemma identifier_reused_after_creation :
  let run := update sample_md5 no_faults towns use_default towns_stale in
  w_hash_table towns_stale = Some towns_hashes
  ∧ run.1 = Ret (CREATED, None)
  ∧ w_hash_table run.2
    = Some [mkHashRow "1" (Some "(u'a', 10)1") None;
            mkHashRow "2" (Some "(u'b2', 20)2") None;
            mkHashRow "3" (Some "(u'c', 30)3") None]
  ∧ (λ d : dataset, (λ r, pretty (rec_oid r)) <$> ds_rows d)
      <$> w_destination run.2
    = Some ["1"; "2"; "3"].
Proof. repeat split; vm_compute; reflexivity. Qed.

(** The destination of [towns_sde] does not exist, and neither does its
    workspace, which is no file geodatabase: [update] returns
    [UNHANDLED_EXCEPTION], not [CREATED]. *)
Lemma missing_workspace_is_not_created :
  w_destination towns_homeless = None
  ∧ (update sample_md5 no_faults towns_sde use_default towns_homeless).1
    = Ret (UNHANDLED_EXCEPTION,
           Some "destination_workspace does not exist! db.sde")
  ∧ w_destination
      (update sample_md5 no_faults towns_sde use_default towns_homeless).2
    = None.
Proof. repeat split; vm_compute; reflexivity. Qed.

(** On [towns_retyped] a field is missing and another mismatches: both
    are collected, and the message of the exception names the missing one
    only. *)
Lemma mismatches_left_out_of_the_message :
  let acc := collect_fields (ds_fields towns_source)
               [mkField "OBJECTID" "OID" 4; mkField "NAME" "String" 50;
                mkField "POP" "String" 10; mkField "EXTRA" "String" 10] in
  missing_fields acc = ["EXTRA"]
  ∧ mismatching_fields acc
    = ["POP: source type of Integer does not match destination type of String"]
  ∧ (check_schema no_faults towns towns_retyped).1
    = Raise (ValidationException "Missing fields in src.gdb/towns: EXTRA")
  ∧ contains "POP" "Missing fields in src.gdb/towns: EXTRA" = false.
Proof. repeat split; vm_compute; reflexivity. Qed.

(** * Further properties *)

Section Coverage.

Variable md5 : string → string.

(** ** [_filter_fields] *)

Lemma list_remove_None x l : list_remove x l = None ↔ x ∉ l.
Proof.
  induction l as [|y l IH]; simpl.
  - split; [intros _; apply not_elem_of_nil | done].
  - case_bool_decide as Hxy.
    + subst. split; [done|]. intros H. destruct H. left.
    + rewrite fmap_None, IH, not_elem_of_cons. naive_solver.
Qed.

Lemma list_remove_Some x l l' :
  list_remove x l = Some l' →
  ∃ l1 l2, l = l1 ++ x :: l2 ∧ l' = l1 ++ l2 ∧ x ∉ l1.
Proof.
  revert l'. induction l as [|y l IH]; intros l'; simpl; [done|].
  case_bool_decide as Hxy.
  - intros [= <-]. subst. exists [], l. split_and!; [done..|].
    apply not_elem_of_nil.
  - intros (l0 & Hl0 & ->)%fmap_Some.
    destruct (IH _ Hl0) as (l1 & l2 & -> & -> & Hn).
    exists (y :: l1), l2. split_and!; [done..|].
    apply not_elem_of_cons. done.
Qed.

Lemma filter_fields_spec (S : gset string) (pk : string) :
  ∃ l, _filter_fields S pk = l ++ [pk]
       ∧ StronglySorted String.le l
       ∧ NoDup l
       ∧ ∀ f, f ∈ l ↔ f ∈ S ∧ _is_naughty_field f = false ∧ f ≠ pk.
Proof.
  unfold _filter_fields.
  set (L := merge_sort String.le
              (filter (λ f, _is_naughty_field f = false) (elements S))).
  assert (HS : StronglySorted String.le L)
    by apply (StronglySorted_merge_sort _).
  assert (HP : L ≡ₚ filter (λ f, _is_naughty_field f = false) (elements S))
    by apply merge_sort_Permutation.
  assert (HN : NoDup L).
  { rewrite HP. apply NoDup_filter, NoDup_elements. }
  assert (HE : ∀ f, f ∈ L ↔ f ∈ S ∧ _is_naughty_field f = false).
  { intros f. rewrite HP, list_elem_of_filter, elem_of_elements. tauto. }
  destruct (list_remove pk L) as [l|] eqn:Hr.
  - destruct (list_remove_Some _ _ _ Hr) as (l1 & l2 & HL & -> & Hn1).
    exists (l1 ++ l2). split; [done|].
    rewrite HL in HS, HN, HE.
    apply NoDup_app in HN as (HN1 & HN12 & HN2).
    apply NoDup_cons in HN2 as [Hn2 HN2].
    split; [|split].
    + apply StronglySorted_app in HS as (H12 & HS1 & HS2).
      apply StronglySorted_cons in HS2 as [_ HS2].
      apply StronglySorted_app. split_and!; [|done..].
      intros x1 x2 Hx1 Hx2. apply H12; [done|]. by right.
    + apply NoDup_app. split_and!; [done| |done].
      intros y Hy1 Hy2. apply (HN12 y Hy1). by right.
    + intros f. specialize (HE f).
      rewrite elem_of_app, elem_of_cons in HE. rewrite elem_of_app.
      split.
      * intros Hin. assert (f ≠ pk) by (intros ->; tauto).
        destruct HE as [HE _]. destruct HE as [? ?]; tauto.
      * intros (? & ? & ?). destruct HE as [_ HE].
        destruct HE as [?|[?|?]]; tauto.
  - apply list_remove_None in Hr. exists L. split; [reflexivity|].
    split; [exact HS|]. split; [exact HN|].
    intros f. rewrite HE. split; [|tauto].
    intros [? ?]. split_and!; [done..|]. intros ->. apply Hr, HE. done.
Qed.

(** X1: whatever the field set and the key, [_filter_fields] returns the
    fields that are not naughty and are not the key, each once and in
    ascending order, followed by the key: the key comes last also when it is
    not among the fields, or is itself a naughty field. *)
Theorem filter_fields_key_last (S : gset string) (pk : string) :
  ∃ l, _filter_fields S pk = l ++ [pk]
       ∧ StronglySorted String.le l
       ∧ NoDup l
       ∧ ∀ f, f ∈ l ↔ f ∈ S ∧ _is_naughty_field f = false ∧ f ≠ pk.
Proof. apply filter_fields_spec. Qed.

(** ** Dictionaries filled in a loop: the last assignment to a key wins *)

Lemma foldl_insert_last {A B K} `{Countable K} (key : A → option K)
    (val : A → B) (l : list A) (k : K) (v : B) :
  foldl (λ (m : gmap K B) x,
           match key x with Some k' => <[k' := val x]> m | None => m end)
        ∅ l !! k = Some v
  ↔ ∃ pre x post, l = pre ++ x :: post ∧ key x = Some k ∧ val x = v
                  ∧ ∀ y, y ∈ post → key y ≠ Some k.
Proof.
  induction l as [|z l IH] using rev_ind.
  - simpl. rewrite lookup_empty. split; [done|].
    intros (pre & x & post & Hl & _). by destruct pre.
  - rewrite foldl_app. simpl.
    assert (Hkeep :
      (∃ pre x post, l = pre ++ x :: post ∧ key x = Some k ∧ val x = v
                     ∧ ∀ y, y ∈ post → key y ≠ Some k)
      → key z ≠ Some k
      → ∃ pre x post, l ++ [z] = pre ++ x :: post ∧ key x = Some k
                      ∧ val x = v ∧ ∀ y, y ∈ post → key y ≠ Some k).
    { intros (pre & x & post & -> & Hx & Hv & Hp) Hz.
      exists pre, x, (post ++ [z]). split_and!; [|done..|].
      - by rewrite <- app_assoc.
      - intros y [Hy | ->%list_elem_of_singleton]%elem_of_app; auto. }
    assert (Hback :
      (∃ pre x post, l ++ [z] = pre ++ x :: post ∧ key x = Some k
                     ∧ val x = v ∧ ∀ y, y ∈ post → key y ≠ Some k)
      → (key z = Some k ∧ val z = v)
        ∨ (key z ≠ Some k
           ∧ ∃ pre x post, l = pre ++ x :: post ∧ key x = Some k
                           ∧ val x = v ∧ ∀ y, y ∈ post → key y ≠ Some k)).
    { intros (pre & x & post & Hl & Hx & Hv & Hp).
      destruct post as [|y post _] using rev_ind.
      - apply app_inj_tail in Hl as [_ ->]. by left.
      - right. rewrite app_comm_cons, app_assoc in Hl.
        apply app_inj_tail in Hl as [-> ->]. split.
        + apply Hp, elem_of_app. right. apply list_elem_of_here.
        + exists pre, x, post. split_and!; [done..|].
          intros y' Hy'. apply Hp, elem_of_app. by left. }
    destruct (key z) as [k'|] eqn:Hz.
    + destruct (decide (k' = k)) as [->|Hne].
      * rewrite lookup_insert_eq. split.
        -- intros [= <-]. exists l, z, []. split_and!; [done..|].
           intros y Hy. by apply elem_of_nil in Hy.
        -- intros [[_ ->] | [Hn _]]%Hback; [done|]. by destruct Hn.
      * rewrite lookup_insert_ne by done. rewrite IH. split.
        -- intros Hl. apply Hkeep; [done|]. by intros [= ->].
        -- intros [[[= ->] _] | [_ Hl]]%Hback; done.
    + rewrite IH. split.
      * intros Hl. by apply Hkeep.
      * intros [[? _] | [_ Hl]]%Hback; done.
Qed.

(** ** [_get_hash_lookups] *)

(** X2: [_get_hash_lookups] does not change the store; it raises when the
    crate has no hash table, and otherwise returns two dictionaries in which
    a digest is bound to the identifier of the last row of the table that
    holds it (a later row overwrites an earlier one), rows with a null digest
    adding nothing. *)
Theorem hash_lookups_last_row_wins (h : list hash_row) :
  (∀ a id,
     (hash_lookups h).1 !! a = Some id
     ↔ ∃ pre row post, h = pre ++ row :: post ∧ h_att row = Some a
                       ∧ h_id row = id
                       ∧ ∀ r, r ∈ post → h_att r ≠ Some a)
  ∧ (∀ g id,
       (hash_lookups h).2 !! g = Some id
       ↔ ∃ pre row post, h = pre ++ row :: post ∧ h_geom row = Some g
                         ∧ h_id row = id
                         ∧ ∀ r, r ∈ post → h_geom r ≠ Some g)
  ∧ (∀ w, w_hash_table w = Some h →
          _get_hash_lookups w = (Ret (hash_lookups h), w))
  ∧ (∀ w, w_hash_table w = None →
          ∃ e, _get_hash_lookups w = (Raise e, w)).
Proof.
  rewrite hash_lookups_build. simpl. split_and!.
  - intros a id. apply (foldl_insert_last h_att h_id).
  - intros g id. apply (foldl_insert_last h_geom h_id).
  - intros w Hw. unfold _get_hash_lookups, the_hash_table, bind, get.
    rewrite Hw. simpl. by rewrite hash_lookups_build.
  - intros w Hw. unfold _get_hash_lookups, the_hash_table, bind, get.
    rewrite Hw. simpl. eauto.
Qed.

(** ** [get_fields] of [check_schema] *)

Lemma get_fields_as_fold fs :
  get_fields fs
  = foldl (λ (m : gmap string Field) f,
             match (if managed_field (fld_name f) then None
                    else Some (upper (fld_name f))) with
             | Some k => <[k := f]> m
             | None => m
             end) ∅ fs.
Proof.
  unfold get_fields. generalize (∅ : gmap string Field).
  induction fs as [|f fs IH]; intros m; [done|]. simpl. rewrite <- IH.
  f_equal. unfold get_fields_step, managed_field.
  destruct (_is_naughty_field (fld_name f)); [done|]. simpl.
  by destruct (bool_decide (fld_name f ∈ ["OBJECTID"; "FID"])).
Qed.

Lemma get_fields_spec (fs : list Field) (k : string) (f : Field) :
  get_fields fs !! k = Some f
  ↔ ∃ pre post, fs = pre ++ f :: post
                ∧ managed_field (fld_name f) = false
                ∧ upper (fld_name f) = k
                ∧ ∀ f', f' ∈ post → managed_field (fld_name f') = false →
                        upper (fld_name f') ≠ k.
Proof.
  rewrite get_fields_as_fold.
  rewrite (foldl_insert_last
             (λ f, if managed_field (fld_name f) then None
                   else Some (upper (fld_name f))) id).
  split.
  - intros (pre & x & post & -> & Hx & <- & Hp). exists pre, post.
    destruct (managed_field (fld_name x)) eqn:Hm; [done|].
    injection Hx as <-. split_and!; [done..|].
    intros f' Hf' Hm' Hk. apply (Hp f' Hf'). by rewrite Hm', Hk.
  - intros (pre & post & -> & Hm & <- & Hp). exists pre, f, post.
    rewrite Hm. split_and!; [done..|].
    intros f' Hf'. destruct (managed_field (fld_name f')) eqn:Hm'; [done|].
    intros [= Hk]. by apply (Hp f' Hf').
Qed.

(** X3: the dictionary [get_fields] builds holds, under each key, a field
    of the dataset that is not a managed one and whose upper-cased name is
    the key; of several such fields whose names differ in case only, it is
    the last that is kept. *)
Theorem get_fields_last_field_wins (fs : list Field) (k : string)
    (f : Field) :
  get_fields fs !! k = Some f
  ↔ ∃ pre post, fs = pre ++ f :: post
                ∧ managed_field (fld_name f) = false
                ∧ upper (fld_name f) = k
                ∧ ∀ f', f' ∈ post → managed_field (fld_name f') = false →
                        upper (fld_name f') ≠ k.
Proof. apply get_fields_spec. Qed.

(** ** [check_schema] *)

Lemma check_schema_logs fp crate w :
  ∃ ls, (check_schema fp crate w).2 = foldl (λ w l, add_log l w) w ls.
Proof.
  unfold check_schema, the_destination, bind, log, modify, inject, get, raise,
    ret.
  set (l0 := mkLog INFO "checking schema..." []).
  destruct (f_schema fp) as [e|]; simpl.
  { by exists [l0]. }
  change (w_destination (add_log l0 w)) with (w_destination w).
  destruct (w_destination w) as [d|]; simpl.
  2: { by exists [l0]. }
  change (w_source (add_log l0 w)) with (w_source w).
  set (acc := collect_fields _ _).
  repeat case_bool_decide; simpl.
  - exists (l0 :: schema_log acc
            ++ [mkLog WARN (missing_msg crate (missing_fields acc)) []]).
    simpl. by rewrite foldl_app.
  - exists (l0 :: schema_log acc
            ++ [mkLog WARN (mismatching_msg crate (mismatching_fields acc))
                  []]).
    simpl. by rewrite foldl_app.
  - by exists (l0 :: schema_log acc).
Qed.

Lemma check_schema_true_iff fp crate w d :
  f_schema fp = None →
  w_destination w = Some d →
  (check_schema fp crate w).1 = Ret true
  ↔ ∀ k f, get_fields (ds_fields d) !! k = Some f →
      ∃ s, get_fields (ds_fields (w_source w)) !! k = Some s
           ∧ abstract_type (fld_type s) = abstract_type (fld_type f)
           ∧ (fld_type s = "String" →
              (truncate_field_length s).1 = (truncate_field_length f).1).
Proof.
  intros Hf Hd. rewrite (check_schema_result fp crate w d Hf Hd).
  cbv zeta.
  set (S := get_fields (ds_fields (w_source w))).
  set (acc := collect_fields _ _).
  assert (Hmiss : missing_fields acc = [] ↔
    ∀ k f, get_fields (ds_fields d) !! k = Some f → is_Some (S !! k)).
  { split.
    - intros Hnil k f Hk. destruct (S !! k) eqn:HS; [by eexists|].
      assert (fld_name f ∈ missing_fields acc) as Hin
        by (apply collect_fields_missing; eauto).
      rewrite Hnil in Hin. by apply elem_of_nil in Hin.
    - intros Hall. destruct (missing_fields acc) as [|n l] eqn:Hm; [done|].
      assert (n ∈ missing_fields acc) as Hin
        by (rewrite Hm; apply list_elem_of_here).
      apply collect_fields_missing in Hin as (k & f & Hk & HS & _).
      destruct (Hall k f Hk) as [s Hs]. unfold S in Hs. congruence. }
  assert (Hmis : mismatching_fields acc = [] ↔
    ∀ k f, get_fields (ds_fields d) !! k = Some f →
           mismatch_of S (k, f) = None).
  { split.
    - intros Hnil k f Hk. destruct (mismatch_of S (k, f)) eqn:HS; [|done].
      assert (s ∈ mismatching_fields acc) as Hin
        by (apply collect_fields_mismatching; eauto).
      rewrite Hnil in Hin. by apply elem_of_nil in Hin.
    - intros Hall. destruct (mismatching_fields acc) as [|n l] eqn:Hm;
        [done|].
      assert (n ∈ mismatching_fields acc) as Hin
        by (rewrite Hm; apply list_elem_of_here).
      apply collect_fields_mismatching in Hin as (k & f & Hk & HS).
      pose proof (Hall k f Hk) as Hn. unfold S in Hn. congruence. }
  split.
  - intros Hres. repeat case_bool_decide; try done.
    assert (Hm : missing_fields acc = [])
      by (destruct (missing_fields acc); [done|]; by destruct H).
    assert (Hmm : mismatching_fields acc = [])
      by (destruct (mismatching_fields acc); [done|]; by destruct H0).
    intros k f Hk.
    destruct (proj1 Hmiss Hm k f Hk) as [s Hs].
    pose proof (proj1 Hmis Hmm k f Hk) as Hno.
    exists s. split; [done|].
    unfold mismatch_of in Hno. simpl in Hno. rewrite Hs in Hno.
    repeat case_bool_decide; done.
  - intros Hall.
    assert (Hm : missing_fields acc = []).
    { apply Hmiss. intros k f Hk. destruct (Hall k f Hk) as (s & Hs & _).
      by eexists. }
    assert (Hmm : mismatching_fields acc = []).
    { apply Hmis. intros k f Hk.
      destruct (Hall k f Hk) as (s & Hs & Ht & Hl).
      unfold mismatch_of. simpl. fold S. rewrite Hs.
      rewrite bool_decide_false by (by intros Hn; apply Hn).
      case_bool_decide as Hstr; [|done].
      by rewrite bool_decide_false by (by intros Hn; apply Hn, Hl). }
    rewrite Hm, Hmm. done.
Qed.

(** X4: when the destination exists and its fields can be listed,
    [check_schema] returns [True] exactly when every field of the
    destination that is not a managed one has a field of the source of the
    same upper-cased name, of the same type (the numeric types being taken
    for one) and, for a text field, of the same length (lengths above 4000
    being taken for 4000).  Fields that only the source has do not count. *)
Theorem check_schema_accepts fp crate w d :
  f_schema fp = None →
  w_destination w = Some d →
  (check_schema fp crate w).1 = Ret true
  ↔ ∀ k f, get_fields (ds_fields d) !! k = Some f →
      ∃ s, get_fields (ds_fields (w_source w)) !! k = Some s
           ∧ abstract_type (fld_type s) = abstract_type (fld_type f)
           ∧ (fld_type s = "String" →
              (truncate_field_length s).1 = (truncate_field_length f).1).
Proof. apply check_schema_true_iff. Qed.

(** X5: whether it returns or raises, and whatever the faults of the back
    end, [check_schema] changes nothing in the store: the store it leaves
    is the one it found with records appended to the log. *)
Theorem check_schema_only_logs fp crate w :
  ∃ ls, (check_schema fp crate w).2 = foldl (λ w l, add_log l w) w ls.
Proof. apply check_schema_logs. Qed.

(** ** A created destination and the default check *)

Lemma get_fields_filter fs :
  get_fields (filter (λ f, managed_field (fld_name f) = false) fs)
  = get_fields fs.
Proof.
  rewrite !get_fields_as_fold. generalize (∅ : gmap string Field).
  induction fs as [|f fs IH]; intros m; [done|].
  rewrite filter_cons. case_decide as Hm; simpl.
  - by rewrite Hm, IH.
  - apply not_false_is_true in Hm. by rewrite Hm, IH.
Qed.

Lemma get_fields_sublist (fs : list Field) (P : Field → bool) k f :
  NoDup ((λ f, upper (fld_name f)) <$> fs) →
  get_fields (filter (λ f, P f = true) fs) !! k = Some f →
  get_fields fs !! k = Some f.
Proof.
  intros Hnd. rewrite !get_fields_spec.
  intros (pre & post & Hl & Hm & Hk & _).
  assert (f ∈ fs) as Hin.
  { assert (f ∈ filter (λ f, P f = true) fs) as Hin
      by (rewrite Hl; apply elem_of_app; right; apply list_elem_of_here).
    by apply list_elem_of_filter in Hin as [_ ?]. }
  apply list_elem_of_split in Hin as (pre' & post' & ->).
  exists pre', post'. split_and!; [done..|].
  intros f' Hf' _ Hk'.
  rewrite fmap_app, fmap_cons in Hnd.
  apply NoDup_app in Hnd as (_ & _ & Hnd).
  apply NoDup_cons in Hnd as [Hnd _]. apply Hnd.
  rewrite Hk, <- Hk'. apply list_elem_of_fmap. eauto.
Qed.

Lemma validation_invalid fp crate validate_crate w m w' :
  validation fp crate validate_crate w = (Ret (Some m), w') →
  ∃ w1, validate fp crate validate_crate w
        = (Raise (ValidationException m), w1).
Proof.
  unfold validation, try_except, bind.
  destruct (validate fp crate validate_crate w) as [[[]|e] w1]; [done|].
  destruct e as [m'|m']; [|done]. intros [= <- _]. eauto.
Qed.

Lemma ensure_destination_source fp crate w st w1 :
  w_destination w = None →
  ensure_destination fp crate w = (Ret st, w1) →
  w_source w1 = w_source w.
Proof.
  intros Hd. unfold ensure_destination. intros H.
  apply bind_ret_inv in H as (w' & w2 & Hg & H). injection Hg as <- <-.
  rewrite Hd in H.
  apply bind_ret_inv in H as ([] & w3 & Hl & H).
  unfold log, modify in Hl. injection Hl as <-.
  apply bind_ret_inv in H as ([] & w4 & Hc & H).
  apply create_destination_schema in Hc as (Hsrc & _).
  apply bind_ret_inv in H as (w5 & w6 & Hg & H). injection Hg as <- <-.
  apply bind_ret_inv in H as ([] & w7 & Hh & H). injection H as <- <-.
  destruct (w_hash_table w4); injection Hh as <-; done.
Qed.

Lemma fresh_schema_matches fp crate w1 d (src : list Field) :
  NoDup ((λ f, upper (fld_name f)) <$> src) →
  f_schema fp = None →
  w_destination w1 = Some d →
  ds_fields (w_source w1) = src →
  filter (λ f, managed_field (fld_name f) = false) (ds_fields d)
  = filter (λ f, managed_field (fld_name f) = false)
      (filter (λ f, is_user_field f = true) src) →
  (check_schema fp crate w1).1 = Ret true.
Proof.
  intros Hnd Hf Hd Hsrc Hflt.
  apply (check_schema_true_iff fp crate w1 d Hf Hd).
  intros k f Hk. rewrite Hsrc. exists f.
  rewrite <- get_fields_filter, Hflt, get_fields_filter in Hk.
  apply (get_fields_sublist src is_user_field) in Hk; done.
Qed.

(** X6: a destination that [_create_destination_data] has just created
    from the source passes the default schema check, provided that no two
    fields of the source have names that differ in case only (and that the
    fields can be listed).  Hence [update], on a crate without destination
    and with the default check, never returns [INVALID_DATA]. *)
Theorem created_destination_passes_check fp crate validate_crate w :
  NoDup ((λ f, upper (fld_name f)) <$> ds_fields (w_source w)) →
  f_schema fp = None →
  (∀ w1, _create_destination_data fp crate w = (Ret tt, w1) →
         (check_schema fp crate w1).1 = Ret true)
  ∧ (w_destination w = None →
     (∀ w', validate_crate crate w' = Ret NotImplemented) →
     ∀ r w', update md5 fp crate validate_crate w = (Ret r, w') →
             r.1 = CREATED ∨ r.1 = UNHANDLED_EXCEPTION).
Proof.
  intros Hnd Hf. split.
  - intros w1 Hc.
    apply create_destination_schema in Hc as (Hsrc & d & Hd & _ & Hflt).
    apply (fresh_schema_matches fp crate w1 d (ds_fields (w_source w)));
      [done..| by rewrite Hsrc | done].
  - intros Hd Hv r w' Hu.
    set (w0 := enter crate w).
    assert (w_destination w0 = None) as Hd0 by done.
    destruct (update_body md5 fp crate validate_crate w0) as [[r'|e] w1]
      eqn:Hb.
    + rewrite (update_body_returns _ _ _ _ _ _ _ Hb) in Hu.
      injection Hu as <- _.
      unfold update_body in Hb.
      apply bind_ret_inv in Hb as (st & w2 & He & Hb).
      pose proof (ensure_destination_source fp crate w0 st w2 Hd0 He) as Hs2.
      pose proof (ensure_destination_created fp crate w0 st w2 Hd0 He)
        as (-> & _ & d & Hd2 & _ & Hflt).
      apply bind_ret_inv in Hb as ([m|] & w3 & Hval & Hb).
      * apply validation_invalid in Hval as [w4 Hval].
        unfold validate, bind in Hval. rewrite Hv in Hval.
        pose proof (fresh_schema_matches fp crate w2 d
                      (ds_fields (w_source w)) Hnd Hf Hd2) as Hok.
        destruct (check_schema fp crate w2) as [[b|e] w5]; simpl in *.
        -- done.
        -- rewrite Hs2 in Hok. by specialize (Hok eq_refl Hflt).
      * apply synchronise_status in Hb as [_ Hst].
        rewrite !bump_created in Hst. left. by destruct Hst as [?|[?|?]].
    + pose proof (update_body_raises _ _ _ _ _ _ _ Hb) as Hr.
      rewrite Hu in Hr. simpl in Hr. injection Hr as ->. by right.
Qed.

(** ** [_hash] *)

(** X7: when the crate has its hash table, computing the changes reads
    the store and writes only the scratch table and the log: whether [_hash]
    returns or raises, the destination, the hash table, the source and the
    edit session are as they were. *)
Theorem hash_reads_only fp crate reproject w d h :
  w_destination w = Some d →
  w_hash_table w = Some h →
  let w' := (_hash md5 fp crate reproject w).2 in
  w_destination w' = Some d
  ∧ w_hash_table w' = Some h
  ∧ w_source w' = w_source w
  ∧ w_editor w' = w_editor w
  ∧ w_projected w' = w_projected w.
Proof.
  intros Hd Hh.
  destruct (hash_computes md5 fp crate reproject w d h Hd Hh)
    as (r & w1 & -> & ? & ? & ? & ? & ? & _).
  done.
Qed.

(** X8: every identifier [_hash] marks for deletion is the identifier of
    a row of the hash table, one that holds a digest; with an empty hash
    table nothing is marked. *)
Theorem deletes_are_stored_identifiers crate src d h :
  (∀ x, x ∈ _deletes (changes_of md5 crate src d h) →
        ∃ row, row ∈ h ∧ h_id row = x
               ∧ (is_Some (h_att row) ∨ is_Some (h_geom row)))
  ∧ _deletes (changes_of md5 crate src d []) = ∅.
Proof.
  split.
  - intros x. unfold changes_of. simpl. unfold determine_deletes.
    pose proof (hash_loop_lookups_shrink md5 crate (needs_reproject crate)
                  (hash_fields crate src d).2
                  (source_stream crate src (hash_fields crate src d).1)
                  (hash_init (hash_lookups h))) as [Ha Hg].
    fold (hash_run md5 crate (needs_reproject crate) src d (hash_lookups h))
      in Ha, Hg.
    set (st := hash_run _ _ _ _ _ _) in *.
    simpl in Ha, Hg. rewrite hash_lookups_build in Ha, Hg. simpl in Ha, Hg.
    rewrite elem_of_union, !elem_of_map_img.
    intros [[a Hx] | [g Hx]].
    + eapply lookup_weaken in Hx; [|exact Ha].
      apply build_lookup_elem in Hx as [Hx | (r & Hr & Hc & Hi)]; [done|].
      exists r. split_and!; [done..|]. left. by eexists.
    + eapply lookup_weaken in Hx; [|exact Hg].
      apply build_lookup_elem in Hx as [Hx | (r & Hr & Hc & Hi)]; [done|].
      exists r. split_and!; [done..|]. right. by eexists.
  - pose proof (hash_run_empty_lookups md5 crate (needs_reproject crate)
                  src d) as (Ha & Hg & _).
    unfold changes_of. simpl. unfold determine_deletes.
    rewrite Ha, Hg. by rewrite map_img_empty_L, union_empty_l_L.
Qed.

Lemma hash_loop_partition crate reproject primary_key_index rows st :
  let st' := hash_loop md5 crate reproject primary_key_index st rows in
  let E := stream_entries md5 crate primary_key_index (unique_salty_id st)
             rows in
  dom (hs_adds st') ∪ dom (hs_unchanged st')
  = dom (hs_adds st) ∪ dom (hs_unchanged st) ∪ list_to_set E.*1
  ∧ (NoDup E.*1 →
     (∀ k, k ∈ E.*1 → k ∉ dom (hs_adds st) ∪ dom (hs_unchanged st)) →
     dom (hs_adds st) ## dom (hs_unchanged st) →
     dom (hs_adds st') ## dom (hs_unchanged st')
     ∧ (size (hs_adds st') + size (hs_unchanged st')
        = size (hs_adds st) + size (hs_unchanged st) + length E)%nat).
Proof.
  revert st. induction rows as [|r rows IH]; intros st; cbv zeta.
  { simpl. split; [set_solver|]. intros _ _ ?. split; [done|lia]. }
  rewrite hash_loop_cons. simpl stream_entries.
  pose proof (hash_step_cases md5 crate reproject primary_key_index st r)
    as Hc. cbv zeta in Hc. destruct Hc as [Hsalt Hc].
  specialize (IH (hash_step md5 crate reproject primary_key_index st r)).
  cbv zeta in IH. rewrite Hsalt in IH. destruct IH as [IH1 IH2].
  set (st1 := hash_step md5 crate reproject primary_key_index st r) in *.
  set (E := stream_entries md5 crate primary_key_index
              (unique_salty_id st + 1) rows) in *.
  set (k := py_str (py_neg_index r primary_key_index)) in *.
  destruct Hc as [(Hsk & _ & _ & Had & Hun & _)
                 |[(Hsk & _ & _ & _ & Had & Hun & _)
                  |(Hsk & _ & _ & _ & Had & Hun & _)]];
    rewrite Hsk; simpl.
  - rewrite Had, Hun in IH1, IH2. split; [exact IH1|exact IH2].
  - rewrite IH1, Had, Hun, dom_insert_L. split; [set_solver|].
    intros [Hk Hnd]%NoDup_cons Hfr Hdj.
    assert (k ∉ dom (hs_adds st) ∪ dom (hs_unchanged st)) as Hkf
      by (apply Hfr; left).
    destruct IH2 as [IHd IHs]; [done| |rewrite Had, Hun, dom_insert_L|].
    + intros k' Hk'. rewrite Had, Hun, dom_insert_L.
      assert (k' ≠ k) by (by intros ->).
      assert (k' ∉ dom (hs_adds st) ∪ dom (hs_unchanged st))
        by (apply Hfr; by right).
      set_solver.
    + set_solver.
    + split; [done|]. rewrite IHs, Had, Hun.
      rewrite map_size_insert_None; [lia|].
      apply not_elem_of_dom. set_solver.
  - rewrite IH1, Had, Hun, dom_insert_L. split; [set_solver|].
    intros [Hk Hnd]%NoDup_cons Hfr Hdj.
    assert (k ∉ dom (hs_adds st) ∪ dom (hs_unchanged st)) as Hkf
      by (apply Hfr; left).
    destruct IH2 as [IHd IHs]; [done| |rewrite Had, Hun, dom_insert_L|].
    + intros k' Hk'. rewrite Had, Hun, dom_insert_L.
      assert (k' ≠ k) by (by intros ->).
      assert (k' ∉ dom (hs_adds st) ∪ dom (hs_unchanged st))
        by (apply Hfr; by right).
      set_solver.
    + set_solver.
    + split; [done|]. rewrite IHs, Had, Hun.
      rewrite map_size_insert_None; [lia|].
      apply not_elem_of_dom. set_solver.
Qed.

Lemma stream_entries_length crate primary_key_index salt rows :
  length (stream_entries md5 crate primary_key_index salt rows)
  = length (filter (λ r, skipped crate r = false) rows).
Proof.
  revert salt. induction rows as [|r rows IH]; intros salt; [done|].
  simpl stream_entries. rewrite filter_cons, length_app, IH.
  case_decide as Hs.
  - by rewrite Hs.
  - apply not_false_is_true in Hs. by rewrite Hs.
Qed.

(** X9: [_hash] classifies every record it does not skip: the keys of the
    adds and of the unchanged entries are together the keys of those
    records, and the total-row count is their number.  When no two of them
    share a key, no key is both an add and unchanged, and the two mappings
    together have as many entries as the count says. *)
Theorem every_record_classified crate src d h :
  let changes := changes_of md5 crate src d h in
  let E := source_entries md5 crate src d in
  (∀ k, k ∈ dom (adds changes) ∪ dom (unchanged changes) ↔ k ∈ E.*1)
  ∧ total_rows changes = Z.of_nat (length E)
  ∧ (NoDup E.*1 →
     dom (adds changes) ## dom (unchanged changes)
     ∧ Z.of_nat (size (adds changes)) + Z.of_nat (size (unchanged changes))
       = total_rows changes).
Proof.
  cbv zeta. unfold changes_of, source_entries. simpl. unfold hash_run.
  pose proof (hash_loop_partition crate (needs_reproject crate)
                (hash_fields crate src d).2
                (source_stream crate src (hash_fields crate src d).1)
                (hash_init (hash_lookups h))) as HP.
  cbv zeta in HP. simpl in HP. destruct HP as [HP1 HP2].
  assert (HT : hs_total_rows
                 (hash_loop md5 crate (needs_reproject crate)
                    (hash_fields crate src d).2 (hash_init (hash_lookups h))
                    (source_stream crate src (hash_fields crate src d).1))
               = Z.of_nat (length
                   (stream_entries md5 crate (hash_fields crate src d).2 0
                      (source_stream crate src
                         (hash_fields crate src d).1)))).
  { rewrite hash_loop_total, stream_entries_length. simpl. lia. }
  split_and!.
  - intros k. rewrite HP1, dom_empty_L. set_solver.
  - exact HT.
  - intros Hnd. destruct HP2 as [Hd Hs]; [done| |set_solver|].
    + intros k _. rewrite dom_empty_L. set_solver.
    + split; [done|]. rewrite HT. rewrite !map_size_empty in Hs. lia.
Qed.

Lemma py_neg_slice_app (a b : row) :
  py_neg_slice (a ++ b) (length b) = a.
Proof.
  unfold py_neg_slice. rewrite length_app.
  replace (length a + length b - length b)%nat with (length a) by lia.
  by rewrite take_app_length.
Qed.

(** X10: the attribute digest of a record covers the fields that the
    source and the destination have in common, are not naughty and are not
    the key, in ascending order of their names, and nothing else: neither
    the key nor the geometry takes part in it. *)
Theorem digest_covers_common_fields crate src d :
  ∃ l,
    StronglySorted String.le l
    ∧ (∀ f, f ∈ l ↔ f ∈ field_names d ∧ f ∈ field_names src
                    ∧ _is_naughty_field f = false
                    ∧ f ≠ source_primary_key crate)
    ∧ ∀ rec salt,
        attribute_digest md5 (hash_fields crate src d).2
          (read_row src (hash_fields crate src d).1 rec) salt
        = _create_hash md5 (tuple_str (read_row src l rec)) salt.
Proof.
  destruct (filter_fields_spec (common_fields src d)
              (source_primary_key crate)) as (l & Hl & Hs & _ & Hin).
  exists l. split; [done|]. split.
  - intros f. rewrite Hin. unfold common_fields.
    rewrite elem_of_intersection, !elem_of_list_to_set. tauto.
  - intros rec salt. unfold attribute_digest, hash_fields. rewrite Hl.
    do 2 f_equal.
    destruct (is_table crate); simpl.
    + rewrite read_row_app. apply (py_neg_slice_app _ [_]).
    + rewrite <- app_assoc. rewrite read_row_app.
      apply (py_neg_slice_app _ [_; _]).
Qed.

(** ** [update] *)

Lemma ensure_destination_status fp crate w st w1 :
  ensure_destination fp crate w = (Ret st, w1) →
  (st = NO_CHANGES ∨ st = CREATED) ∧ is_Some (w_destination w1).
Proof.
  intros He. destruct (w_destination w) as [d|] eqn:Hd.
  - rewrite (ensure_destination_exists fp crate w d Hd) in He.
    injection He as <- <-. split; [by left|]. by rewrite Hd.
  - apply (ensure_destination_created fp crate w st w1 Hd) in He
      as (-> & _ & d & -> & _). split; [by right|]. by eexists.
Qed.

Lemma update_env fp crate validate_crate w :
  w_env (update md5 fp crate validate_crate w).2 = None.
Proof.
  unfold update, try_finally, modify.
  by destruct (try_except _ _ _) as [r w1].
Qed.

(** X11: [update] returns one of two shapes of pair: a status among
    [NO_CHANGES], [CREATED] and [UPDATED] with no message, or [INVALID_DATA]
    or [UNHANDLED_EXCEPTION] with a message; and, whatever happened, the
    geoprocessing environment it set on entry has been reset. *)
Theorem update_result_shape fp crate validate_crate w :
  ∃ st m w',
    update md5 fp crate validate_crate w = (Ret (st, m), w')
    ∧ w_env w' = None
    ∧ ((m = None ∧ (st = NO_CHANGES ∨ st = CREATED ∨ st = UPDATED))
       ∨ (is_Some m ∧ (st = INVALID_DATA ∨ st = UNHANDLED_EXCEPTION))).
Proof.
  pose proof (update_env fp crate validate_crate w) as Henv.
  destruct (update_body md5 fp crate validate_crate (enter crate w))
    as [[[st m]|e] w1] eqn:Hb.
  - pose proof (update_body_returns _ _ _ _ _ _ _ Hb) as Hu.
    exists st, m, (set_env None w1). split; [done|]. split; [done|].
    unfold update_body in Hb.
    apply bind_ret_inv in Hb as (st0 & w2 & He & Hb).
    apply ensure_destination_status in He as [Hst0 _].
    apply bind_ret_inv in Hb as ([m'|] & w3 & Hval & Hb).
    + injection Hb as <- <- _. right. split; [by eexists|by left].
    + apply synchronise_status in Hb as [Hm Hst]. simpl in Hm, Hst.
      left. split; [done|].
      unfold bump in Hst.
      destruct Hst0 as [-> | ->], Hst as [-> | [-> | ->]]; simpl; auto.
  - pose proof (update_body_raises _ _ _ _ _ _ _ Hb) as Hu.
    destruct (update md5 fp crate validate_crate w) as [r w'] eqn:Hup.
    simpl in Hu, Henv. subst r.
    exists UNHANDLED_EXCEPTION, (Some (message e)), w'.
    split; [done|]. split; [done|]. right. split; [by eexists|by right].
Qed.

(** X12: on a crate whose destination and hash table exist, a successful
    call of [update] returns [UPDATED] exactly when [_hash] found something
    to add or to delete, and [NO_CHANGES] otherwise. *)
Theorem update_status_reflects_changes fp crate validate_crate w d h st w' :
  w_destination w = Some d →
  w_hash_table w = Some h →
  update md5 fp crate validate_crate w = (Ret (st, None), w') →
  st = if has_changes (changes_of md5 crate (w_source w) d h)
       then UPDATED else NO_CHANGES.
Proof.
  intros Hd Hh Hu.
  apply (update_success md5 fp crate validate_crate w d st w' Hd) in Hu
    as (w1 & w2 & _ & Hs & _ & Hd1 & Hh1 & Hs1 & _).
  rewrite Hh in Hh1.
  apply (synchronise_spec md5 fp crate NO_CHANGES w1 _ w2 d h) in Hs;
    [|done..].
  cbv zeta in Hs. rewrite Hs1 in Hs.
  destruct Hs as (d1 & h1 & d' & h' & _ & _ & _ & _ & _ & _ & Hr).
  injection Hr as ->. unfold has_changes.
  by destruct (has_adds _), (has_deletes _).
Qed.

(** X13: a successful call of [update] on an existing destination never
    rewrites a record: the destination keeps its fields, its old records are
    those whose key column is not among the deletes, untouched and in their
    order, and the records that follow them are new ones, with identifiers
    the store had not yet assigned.  The source is as it was. *)
Theorem update_keeps_surviving_records fp crate validate_crate w d h st w' :
  w_destination w = Some d →
  w_hash_table w = Some h →
  update md5 fp crate validate_crate w = (Ret (st, None), w') →
  let changes := changes_of md5 crate (w_source w) d h in
  ∃ d' recs,
    w_destination w' = Some d'
    ∧ ds_fields d' = ds_fields d
    ∧ ds_oid_field d' = ds_oid_field d
    ∧ ds_rows d'
      = filter (λ rec, py_str (read_field d rec (source_primary_key crate))
                       ∉ _deletes changes) (ds_rows d) ++ recs
    ∧ (∀ rec, rec ∈ recs → ds_next_oid d ≤ rec_oid rec)
    ∧ w_source w' = w_source w.
Proof.
  intros Hd Hh Hu changes.
  apply (update_success md5 fp crate validate_crate w d st w' Hd) in Hu
    as (w1 & w2 & _ & Hs & -> & Hd1 & Hh1 & Hs1 & _).
  rewrite Hh in Hh1.
  apply (synchronise_spec md5 fp crate NO_CHANGES w1 _ w2 d h) in Hs;
    [|done..].
  cbv zeta in Hs. rewrite Hs1 in Hs. fold changes in Hs.
  destruct Hs as (d1 & h1 & d' & h' & _ & Hdel & Hadd & Hd2 & _ & Hs2 & _).
  set (keep := filter (λ rec, py_str (read_field d rec
                                        (source_primary_key crate))
                              ∉ _deletes changes) (ds_rows d)).
  assert (H1 : ds_fields d1 = ds_fields d ∧ ds_oid_field d1 = ds_oid_field d
               ∧ ds_next_oid d1 = ds_next_oid d ∧ ds_rows d1 = keep).
  { destruct (has_deletes changes) eqn:Hhd.
    - destruct Hdel as [-> _]. simpl. split_and!; [done..|].
      apply list_filter_iff. intros rec. unfold eval_where. simpl.
      by rewrite bool_decide_eq_false.
    - destruct Hdel as [-> _]. split_and!; [done..|].
      unfold has_deletes in Hhd. apply negb_false_iff in Hhd.
      apply bool_decide_eq_true in Hhd. unfold keep. rewrite Hhd.
      clear. induction (ds_rows d) as [|rec l IH]; [done|].
      rewrite filter_cons_True by set_solver. by rewrite <- IH. }
  destruct H1 as (Hf1 & Ho1 & Hn1 & Hr1).
  destruct (has_adds changes).
  - destruct Hadd as (rows & news & _ & _ & Hadded).
    destruct Hadded as (Hf & Ho & _ & (recs & Hrows & Hfresh) & _).
    exists d', recs. simpl. rewrite Hs2.
    split_and!; [done|congruence|congruence|by rewrite Hrows, Hr1| |done].
    intros rec Hrec. rewrite <- Hn1. by apply Hfresh.
  - destruct Hadd as [-> _]. exists d1, []. simpl. rewrite Hs2.
    split_and!; [done..|by rewrite app_nil_r| |done].
    intros rec Hrec. by apply elem_of_nil in Hrec.
Qed.


(** ** [update] and the edit session *)

Lemma validate_logs fp crate validate_crate w :
  ∃ ls, (validate fp crate validate_crate w).2
        = foldl (λ w l, add_log l w) w ls.
Proof.
  unfold validate, bind.
  destruct (validate_crate crate w) as [[]|e]; simpl.
  - destruct (check_schema_logs fp crate w) as [ls Hls].
    exists ls. by destruct (check_schema fp crate w) as [[b|e] w1].
  - by exists [].
  - by exists [].
Qed.

Lemma validation_logs fp crate validate_crate w :
  ∃ ls, (validation fp crate validate_crate w).2
        = foldl (λ w l, add_log l w) w ls.
Proof.
  destruct (validate_logs fp crate validate_crate w) as [ls Hls].
  unfold validation, try_except, bind.
  destruct (validate fp crate validate_crate w) as [[[]|e] w1]; simpl in *.
  - by exists ls.
  - destruct e as [m|m]; simpl.
    + exists (ls ++ [mkLog WARN "validation error: %s for crate %r"
                       [m; name crate]]).
      by rewrite foldl_app, <- Hls.
    + by exists ls.
Qed.

Lemma create_destination_editor fp crate w r w1 :
  _create_destination_data fp crate w = (r, w1) → w_editor w1 = w_editor w.
Proof.
  unfold _create_destination_data, the_destination, bind, get, log, modify,
    inject, raise, ret.
  destruct (w_workspace w), (endswith (destination_workspace crate) ".gdb"),
    (f_create fp), (is_table crate),
    (bool_decide (source_dataType crate = "ShapeFile"));
    simpl; intros Heq; apply (f_equal snd) in Heq; simpl in Heq;
    by subst w1.
Qed.

Lemma ensure_destination_editor fp crate w r w1 :
  ensure_destination fp crate w = (r, w1) → w_editor w1 = w_editor w.
Proof.
  unfold ensure_destination, bind, get. destruct (w_destination w).
  { by intros [= <- <-]. }
  unfold log, modify at 1. simpl.
  destruct (_create_destination_data fp crate _) as [[[]|e] w2] eqn:Hc;
    apply create_destination_editor in Hc; simpl in Hc.
  - destruct (w_hash_table w2); simpl; intros [= <- <-]; done.
  - by intros [= <- <-].
Qed.

Lemma hash_editor fp crate reproject w d r w' :
  w_destination w = Some d →
  _hash md5 fp crate reproject w = (r, w') →
  w_editor w' = w_editor w.
Proof.
  intros Hd Hh. destruct (w_hash_table w) as [h|] eqn:Hht.
  - destruct (hash_computes md5 fp crate reproject w d h Hd Hht)
      as (r' & w1 & Heq & _ & _ & _ & He & _).
    rewrite Hh in Heq. by injection Heq as _ ->.
  - destruct (ensure_hash_table_missing crate w d Hht Hd)
      as (w1 & Hen & Hh1 & Hd1 & _ & He1 & _).
    rewrite (hash_after_ensure md5 fp crate reproject w w1 Hen) in Hh
      by (by rewrite Hh1).
    destruct (hash_computes md5 fp crate reproject w1 _ _ Hd1 Hh1)
      as (r' & w2 & Heq & _ & _ & _ & He & _).
    rewrite Hh in Heq. injection Heq as _ ->. by rewrite He.
Qed.

(** One step through a successful sequence of calls. *)
Ltac walk H H1 :=
  apply bind_ret_inv in H as (? & ? & H1 & H);
  first
    [ apply inject_ret in H1 as [H1 ->]
    | apply open_cursor_ret in H1 as [H1 ->]
    | apply the_destination_ret in H1 as [H1 ->]
    | apply the_hash_table_ret in H1 as [H1 ->]
    | apply log_ret in H1 as ->
    | apply start_editing_ret in H1 as ->
    | apply modify_ret in H1 as ->
    | apply get_ret in H1 as [-> ->]
    | idtac ].

Lemma delete_phase_editor fp crate changes w w' :
  delete_phase fp crate changes w = (Ret tt, w') → w_editor w' = Stopped.
Proof.
  unfold delete_phase. intros H.
  walk H H1. walk H H2. walk H H3. walk H H4. walk H H5. walk H H6.
  unfold stop_editing in H. walk H H7. walk H H8. walk H H9.
  apply modify_ret in H as ->. done.
Qed.

Lemma add_loop_editor crate changes fields rows w r w' :
  add_loop crate changes fields rows w = (r, w') → w_editor w' = w_editor w.
Proof.
  revert w. induction rows as [|x rows IH]; intros w; simpl.
  { by intros [= <- <-]. }
  destruct (negb (is_table crate) && bool_decide (py_neg_index x 2 = VNone)).
  { apply IH. }
  unfold the_destination, the_hash_table, bind, get, modify, raise, ret.
  destruct (w_destination w) as [d|]; simpl; [|by intros [= <- <-]].
  destruct (adds changes !! py_str (py_neg_index x 1)) as [dg|]; simpl.
  - destruct (w_hash_table w) as [h|]; simpl; [|by intros [= <- <-]].
    intros Hl. by apply IH in Hl.
  - destruct (unchanged changes !! py_str (py_neg_index x 1)) as [dg|];
      simpl; [|by intros [= <- <-]].
    destruct (w_hash_table w) as [h|]; simpl; [|by intros [= <- <-]].
    intros Hl. by apply IH in Hl.
Qed.

Lemma add_phase_editor fp crate changes w w' :
  add_phase fp crate changes w = (Ret tt, w') → w_editor w' = Stopped.
Proof.
  unfold add_phase. intros H.
  walk H H1. walk H H2. walk H H3. walk H H4. walk H H5. walk H H6.
  walk H H7. walk H H8. walk H H9. walk H H10. walk H H11. walk H H12.
  walk H H13. unfold stop_editing in H. walk H H14.
  match type of H with
  | (match ?t with _ => _ end) _ = _ => destruct t
  end.
  - by injection H as <-.
  - by injection H as <-.
  - walk H H15. apply modify_ret in H as ->. done.
Qed.

Lemma synchronise_editor fp crate st0 w d r w' :
  w_destination w = Some d →
  synchronise md5 fp crate st0 w = (Ret r, w') →
  w_editor w' = w_editor w ∨ w_editor w' = Stopped.
Proof.
  intros Hd H. unfold synchronise in H.
  apply bind_ret_inv in H as (changes & w1 & Hh & H).
  apply (hash_editor fp crate _ w d) in Hh; [|done].
  apply bind_ret_inv in H as ([] & w2 & Hl & H).
  assert (w_editor w2 = w_editor w1) as He2.
  { destruct (negb (has_changes changes)).
    - apply log_ret in Hl as ->. done.
    - by injection Hl as <-. }
  apply bind_ret_inv in H as (st1 & w3 & Hdel & H).
  assert (w_editor w3 = w_editor w2 ∨ w_editor w3 = Stopped) as He3.
  { destruct (has_deletes changes).
    - apply bind_ret_inv in Hdel as ([] & w4 & Hdel & Hr).
      injection Hr as _ <-. right. by apply delete_phase_editor in Hdel.
    - injection Hdel as _ <-. by left. }
  apply bind_ret_inv in H as (st2 & w4 & Hadd & H).
  injection H as _ <-.
  destruct (has_adds changes).
  - apply bind_ret_inv in Hadd as ([] & w5 & Hadd & Hr).
    injection Hr as _ <-. right. by apply add_phase_editor in Hadd.
  - injection Hadd as _ <-. destruct He3 as [He3|He3]; [left|by right].
    congruence.
Qed.

Lemma on_exception_closes fp crate e w :
  f_abort fp = None → session_closed (on_exception fp crate e w).2.
Proof.
  intros Hf. unfold on_exception, abort_session, try_except, bind, log,
    modify, get, inject, raise, ret, session_closed.
  rewrite Hf. destruct w as [s d h ws t p ed env lg]. simpl.
  by destruct ed.
Qed.

Lemma on_exception_unbound fp crate e w :
  w_editor w = Unbound →
  w_destination (on_exception fp crate e w).2 = w_destination w
  ∧ w_hash_table (on_exception fp crate e w).2 = w_hash_table w.
Proof.
  unfold on_exception, abort_session, try_except, bind, log,
    modify, get, inject, raise, ret.
  destruct w as [s d h ws t p ed env lg]. simpl. by intros ->.
Qed.

Lemma update_unfold fp crate validate_crate w :
  update md5 fp crate validate_crate w
  = match update_body md5 fp crate validate_crate (enter crate w) with
    | (Ret r, w1) => (Ret r, set_env None w1)
    | (Raise e, w1) =>
        ((on_exception fp crate e w1).1,
         set_env None (on_exception fp crate e w1).2)
    end.
Proof.
  unfold update, try_finally, try_except, modify.
  destruct (update_body md5 fp crate validate_crate (enter crate w))
    as [[r|e] w1]; [done|].
  by destruct (on_exception fp crate e w1) as [[r|e'] w2].
Qed.

(** X15: [update] leaves no edit session open: when it returns, every
    session it started has been stopped or, after an exception, aborted
    (the abort itself not failing). *)
Theorem update_closes_edit_session fp crate validate_crate w :
  f_abort fp = None →
  session_closed (update md5 fp crate validate_crate w).2.
Proof.
  intros Hf. rewrite update_unfold.
  destruct (update_body md5 fp crate validate_crate (enter crate w))
    as [[r|e] w1] eqn:Hb; simpl.
  2: { by apply on_exception_closes. }
  unfold update_body in Hb.
  apply bind_ret_inv in Hb as (st & w2 & He & Hb).
  pose proof (ensure_destination_editor _ _ _ _ _ He) as He2.
  apply ensure_destination_status in He as [_ [d Hd2]].
  apply bind_ret_inv in Hb as (inv & w3 & Hval & Hb).
  destruct (validation_logs fp crate validate_crate w2) as [ls Hls].
  rewrite Hval in Hls. simpl in Hls.
  assert (w_editor w3 = Unbound) as He3
    by (by rewrite Hls, add_logs_editor, He2).
  assert (w_destination w3 = Some d) as Hd3
    by (by rewrite Hls, add_logs_destination).
  unfold session_closed. change (w_editor (set_env None w1)) with (w_editor w1).
  destruct inv as [m|].
  - injection Hb as _ <-. by rewrite He3.
  - apply (synchronise_editor fp crate st w3 d) in Hb; [|done].
    destruct Hb as [-> | ->]; [by rewrite He3|done].
Qed.

(** X16: on a crate whose destination and hash table exist and which
    passes validation, when the source cannot be read (the back end fails,
    or a field of the cursor, the key, is not a field of the source)
    [update] returns [UNHANDLED_EXCEPTION] and leaves the destination and the
    hash table as they were. *)
Theorem unreadable_source_changes_nothing fp crate validate_crate w d h :
  w_destination w = Some d →
  w_hash_table w = Some h →
  (validate fp crate validate_crate (enter crate w)).1 = Ret tt →
  is_Some (f_hash fp)
  ∨ cursor_fields_ok (w_source w) (hash_fields crate (w_source w) d).1
    = false →
  ∃ m w',
    update md5 fp crate validate_crate w
    = (Ret (UNHANDLED_EXCEPTION, Some m), w')
    ∧ w_destination w' = Some d
    ∧ w_hash_table w' = Some h.
Proof.
  intros Hd Hh Hv Hbad.
  set (w0 := enter crate w).
  assert (w_destination w0 = Some d) as Hd0 by done.
  destruct (validate fp crate validate_crate w0) as [rv w1] eqn:Hval.
  fold w0 in Hv. rewrite Hval in Hv. simpl in Hv. subst rv.
  pose proof (validate_frame fp crate validate_crate w0)
    as (Hd1 & Hh1 & Hs1 & _).
  destruct (validate_logs fp crate validate_crate w0) as [ls Hls].
  rewrite Hval in Hd1, Hh1, Hs1, Hls. simpl in *.
  assert (w_editor w1 = Unbound) as He1 by (by rewrite Hls, add_logs_editor).
  rewrite Hd0 in Hd1. change (w_hash_table w0) with (w_hash_table w) in Hh1.
  rewrite Hh in Hh1. change (w_source w0) with (w_source w) in Hs1.
  destruct (hash_computes md5 fp crate (needs_reproject crate) w1 d h
              Hd1 Hh1) as (r & w2 & Hhash & Hd2 & Hh2 & _ & He2 & _ & Hr).
  rewrite Hs1 in Hr.
  destruct Hr as [(e & -> & _) | (_ & Hnf & Hok & _)].
  2: { destruct Hbad as [[e' Hbad]|Hbad]; congruence. }
  assert (update_body md5 fp crate validate_crate w0 = (Raise e, w2)) as Hb.
  { unfold update_body, bind.
    rewrite (ensure_destination_exists fp crate w0 d Hd0).
    rewrite (validation_passed _ _ _ _ _ Hval).
    unfold synchronise, bind. by rewrite Hhash. }
  rewrite update_unfold. fold w0. rewrite Hb.
  destruct (on_exception_returns fp crate e w2) as [w3 Hon].
  destruct (on_exception_unbound fp crate e w2) as [Hd3 Hh3];
    [by rewrite He2|].
  rewrite Hon in Hd3, Hh3 |- *. simpl in *.
  exists (message e), (set_env None w3). split; [done|].
  split; simpl; congruence.
Qed.

(** X17: after a successful call of [update] on a crate whose destination
    and hash table exist, every key [_hash] classified as an add has a row
    in the hash table that carries the digests recorded for the key, under
    an identifier the store assigned during the call. *)
Theorem every_add_is_indexed fp crate validate_crate w d h st w' k digs :
  w_destination w = Some d →
  w_hash_table w = Some h →
  update md5 fp crate validate_crate w = (Ret (st, None), w') →
  (is_table crate = true → needs_reproject crate = false) →
  adds (changes_of md5 crate (w_source w) d h) !! k = Some digs →
  ∃ h' x z,
    w_hash_table w' = Some h'
    ∧ x ∈ h'
    ∧ h_att x = Some digs.1
    ∧ h_geom x = digs.2
    ∧ h_id x = pretty z
    ∧ ds_next_oid d ≤ z.
Proof.
  intros Hd Hh Hu Ht Hk.
  apply (update_success md5 fp crate validate_crate w d st w' Hd) in Hu
    as (w1 & w2 & _ & Hs & -> & Hd1 & Hh1 & Hs1 & Ht1 & Hp1).
  rewrite Hh in Hh1.
  apply (synchronise_spec md5 fp crate NO_CHANGES w1 _ w2 d h) in Hs;
    [|done..].
  cbv zeta in Hs. rewrite Hs1 in Hs.
  set (changes := changes_of md5 crate (w_source w) d h) in *.
  destruct Hs as (d1 & h1 & d' & h' & _ & Hdel & Hadd & _ & Hh2 & _).
  assert (has_adds changes = true) as Hha.
  { unfold has_adds. apply negb_true_iff, bool_decide_eq_false.
    intros He. by rewrite He in Hk. }
  rewrite Hha in Hadd. destruct Hadd as (rows & news & Hrows & -> & Hadded).
  assert (ds_next_oid d1 = ds_next_oid d) as Hn1.
  { destruct (has_deletes changes); by destruct Hdel as [-> _]. }
  destruct Hadded as (_ & _ & _ & _ & Hnews & Hcover).
  destruct (add_rows_cover md5 crate (w_source w) d h (w_temp w1)
              (w_projected w1) rows k Ht Hrows) as (r & Hr & Hkey & Hins).
  { apply elem_of_dom. by eexists. }
  destruct (Hcover r Hr Hins) as (x & digs' & Hx & Hdg & Ha & Hg).
  unfold digests_of in Hdg. rewrite Hkey in Hdg.
  fold changes in Hk. rewrite Hk in Hdg. injection Hdg as <-.
  destruct (Hnews x Hx) as [(z & Hz & Hid) _].
  exists (h1 ++ news), x, z. simpl.
  split_and!; [done| |done..|lia].
  apply elem_of_app. by right.
Qed.

End Coverage.

(** ** [init] *)

(** X18: [init] never discards the hash geodatabase: it creates an empty
    one only when there is none, and keeps the tables of one that exists.
    It always leaves an empty scratch geodatabase and no workspace set in
    the environment; called again, it changes nothing but the log. *)
Theorem init_keeps_hashes hash_gdb_path g :
  g_hashes (init hash_gdb_path g) = Some (default ∅ (g_hashes g))
  ∧ g_scratch (init hash_gdb_path g) = Some ∅
  ∧ g_workspace (init hash_gdb_path g) = None
  ∧ g_hashes (init hash_gdb_path (init hash_gdb_path g))
    = g_hashes (init hash_gdb_path g)
  ∧ g_scratch (init hash_gdb_path (init hash_gdb_path g))
    = g_scratch (init hash_gdb_path g)
  ∧ g_workspace (init hash_gdb_path (init hash_gdb_path g))
    = g_workspace (init hash_gdb_path g).
Proof.
  destruct g as [[hs|] [sc|] ws lg]; done.
Qed.

(** ** Further examples *)

(** The schema of [towns_world] matches: the destination has the fields
    of the source. *)
Lemma towns_pass_the_check :
  f_schema no_faults = None
  ∧ w_destination towns_world = Some towns_destination
  ∧ (check_schema no_faults towns towns_world).1 = Ret true.
Proof.
  split; [reflexivity|]. split; [reflexivity|].
  apply (proj2 (check_schema_accepts no_faults towns towns_world
                  towns_destination eq_refl eq_refl)).
  intros k f Hk. exists f. split; [exact Hk|]. split; reflexivity.
Defined.

(** The destination created for [towns_fresh] passes the check. *)
Lemma created_towns_pass_the_check :
  NoDup ((λ f, upper (fld_name f)) <$> ds_fields (w_source towns_fresh))
  ∧ (check_schema no_faults towns
       (_create_destination_data no_faults towns towns_fresh).2).1
    = Ret true.
Proof.
  assert (Hnd : NoDup ((λ f, upper (fld_name f))
                         <$> ds_fields (w_source towns_fresh)))
    by (apply (bool_decide_unpack _); vm_compute; exact I).
  split; [exact Hnd|].
  apply (proj1 (created_destination_passes_check sample_md5 no_faults towns
                  use_default towns_fresh Hnd eq_refl)).
  vm_compute. reflexivity.
Defined.

(** Computing the changes of [towns_world] leaves its destination and its
    hash table alone. *)
Lemma hashing_towns_reads_only :
  let w' := (_hash sample_md5 no_faults towns false towns_world).2 in
  w_destination w' = Some towns_destination
  ∧ w_hash_table w' = Some towns_hashes.
Proof.
  destruct (hash_reads_only sample_md5 no_faults towns false towns_world
              towns_destination towns_hashes eq_refl eq_refl)
    as (H1 & H2 & _).
  exact (conj H1 H2).
Defined.

(** The run on [towns_world] finds changes and returns [UPDATED]. *)
Lemma towns_are_updated :
  (update sample_md5 no_faults towns use_default towns_world).1
  = Ret (UPDATED, None)
  ∧ UPDATED
    = if has_changes (changes_of sample_md5 towns towns_source
                        towns_destination towns_hashes)
      then UPDATED else NO_CHANGES.
Proof.
  split; [vm_compute; reflexivity|].
  apply (update_status_reflects_changes sample_md5 no_faults towns
           use_default towns_world towns_destination towns_hashes UPDATED
           (update sample_md5 no_faults towns use_default towns_world).2);
    [reflexivity | reflexivity | vm_compute; reflexivity].
Defined.

(** Town 1, which did not change, is still the first record of the
    destination after the run on [towns_world]. *)
Lemma town_1_survives :
  ∃ d' recs,
    w_destination
      (update sample_md5 no_faults towns use_default towns_world).2
    = Some d'
    ∧ ds_rows d' = town 1 "a" 10 :: recs
    ∧ ∀ rec, rec ∈ recs → 3 ≤ rec_oid rec.
Proof.
  destruct (update_keeps_surviving_records sample_md5 no_faults towns
              use_default towns_world towns_destination towns_hashes UPDATED
              (update sample_md5 no_faults towns use_default towns_world).2)
    as (d' & recs & Hd & _ & _ & Hrows & Hfresh & _);
    [reflexivity | reflexivity | vm_compute; reflexivity |].
  exists d', recs. split; [exact Hd|]. split; [|exact Hfresh].
  rewrite Hrows. f_equal.
Defined.


(** An insert that fails leaves no edit session open. *)
Lemma failed_insert_closes_the_session :
  let fp := mkFaults None None None None None
              (Some (PyException "insert failed")) None in
  f_abort fp = None
  ∧ w_editor (update sample_md5 fp towns use_default towns_world).2
    = Stopped.
Proof.
  intros fp. split; [reflexivity|].
  pose proof (update_closes_edit_session sample_md5 fp towns use_default
                towns_world eq_refl) as H.
  unfold session_closed in H.
  destruct (w_editor (update sample_md5 fp towns use_default towns_world).2)
    eqn:He; [|destruct H|reflexivity].
  vm_compute in He. discriminate He.
Defined.

(** A source that cannot be read leaves [towns_world] as it is. *)
Lemma unreadable_towns_change_nothing :
  let fp := mkFaults None None (Some (PyException "cannot open"))
              None None None None in
  ∃ m w',
    update sample_md5 fp towns use_default towns_world
    = (Ret (UNHANDLED_EXCEPTION, Some m), w')
    ∧ w_destination w' = Some towns_destination
    ∧ w_hash_table w' = Some towns_hashes.
Proof.
  intros fp.
  apply (unreadable_source_changes_nothing sample_md5 fp towns use_default
           towns_world towns_destination towns_hashes);
    [reflexivity | reflexivity | vm_compute; reflexivity |].
  left. by eexists.
Defined.

(** Town 3 is new in [towns_world]: after the run the hash table has a row
    with its digest. *)
Lemma town_3_is_indexed :
  adds (changes_of sample_md5 towns towns_source towns_destination
          towns_hashes) !! "3"
  = Some ("(u'c', 30)3", None)
  ∧ ∃ h' x z,
      w_hash_table
        (update sample_md5 no_faults towns use_default towns_world).2
      = Some h'
      ∧ x ∈ h'
      ∧ h_att x = Some "(u'c', 30)3"
      ∧ h_geom x = None
      ∧ h_id x = pretty z
      ∧ 3 ≤ z.
Proof.
  assert (Hk : adds (changes_of sample_md5 towns towns_source
                       towns_destination towns_hashes) !! "3"
               = Some ("(u'c', 30)3", None))
    by (vm_compute; reflexivity).
  split; [exact Hk|].
  apply (every_add_is_indexed sample_md5 no_faults towns use_default
           towns_world towns_destination towns_hashes UPDATED
           (update sample_md5 no_faults towns use_default towns_world).2
           "3" ("(u'c', 30)3", None));
    [reflexivity | reflexivity | vm_compute; reflexivity
    | intros _; reflexivity | exact Hk].
Defined.
